(** * The cleaning pipeline of app.py ([clean_data]) over a model of pandas

    [clean_data] is a chain of five pandas calls on a DataFrame.  The
    development embeds the part of pandas that the function uses, with the
    behaviour of pandas 2.x (strings live in object columns, no
    copy-on-write, so that [df[col].fillna(..., inplace=True)] writes into
    [df]):

    - a cell is a Python object: a string, a number, a boolean, a timestamp
      or the missing marker (None or NaN, NaT in a datetime column);
    - a Series is a dtype with its values, a DataFrame an ordered list of
      named Series; the row labels are not modelled, the row count of a
      frame is the common length of its columns;
    - a finite number is kept as the rational it is, the two infinities
      are cells of their own, NaN is the missing marker; the median is
      computed as NumPy computes it, with the rounding and the overflow of
      float64; the sign of zero is not modelled;
    - a string is the UTF-8 encoding of a Python [str], compared byte by
      byte, which is the order of the code points;
    - a timestamp is kept by its instant, with or without a time zone;
    - a Python exception that leaves a call is the result [None]; warnings
      are not modelled;
    - the date parser behind [pd.to_datetime] is a parameter of the
      development; it is applied value by value and sees the column it
      works on (pandas 2 infers one format for the whole column), and
      answers the time zone it read with a timestamp;
    - frames are objects in a store, names hold references: this is what
      tells [df = df.drop_duplicates()] from an update in place. *)

From Stdlib Require Import QArith Qcanon Ascii String.
From stdpp Require Import base numbers list strings sorting option gmap.

Set Warnings "-clear-no-such-hyp".

Local Open Scope string_scope.
Local Open Scope nat_scope.

(** ** Data model *)

Inductive cell :=
  | Str (s : string)
  | Num (q : Qc)
  | Inf (negative : bool)
  | Bool (b : bool)
  | Date (t : Z)
  | NA.

Inductive Dtype := Dobject | Dnumber | Dbool | Ddatetime.

Record Series := mkSeries { dtype : Dtype; values : list cell }.

Abbreviation DataFrame := (list (string * Series)).

#[global] Instance cell_eq_dec : EqDecision cell.
Proof. solve_decision. Defined.

#[global] Instance Dtype_eq_dec : EqDecision Dtype.
Proof. solve_decision. Defined.

#[global] Instance Series_eq_dec : EqDecision Series.
Proof. solve_decision. Defined.

Definition isna (c : cell) : bool :=
  match c with NA => true | _ => false end.

Definition is_str (c : cell) : bool :=
  match c with Str _ => true | _ => false end.

Definition is_num (c : cell) : bool :=
  match c with Num _ | Inf _ => true | _ => false end.

Definition is_bool (c : cell) : bool :=
  match c with Bool _ => true | _ => false end.

Definition is_date (c : cell) : bool :=
  match c with Date _ => true | _ => false end.

Definition is_object (d : Dtype) : bool :=
  match d with Dobject => true | _ => false end.

Definition is_number (d : Dtype) : bool :=
  match d with Dnumber => true | _ => false end.

(** The values a column of a given dtype can hold: anything in an object
    column, numbers or NaN in a numeric one, booleans in a boolean one,
    timestamps or NaT in a datetime one. *)
Definition cell_fits (d : Dtype) (c : cell) : bool :=
  match d with
  | Dobject => true
  | Dnumber => is_num c || isna c
  | Dbool => is_bool c
  | Ddatetime => is_date c || isna c
  end.

Definition columns (df : DataFrame) : list string := fst <$> df.

Definition nrows (df : DataFrame) : nat :=
  match df with
  | [] => 0
  | (_, s) :: _ => length (values s)
  end.

(** [df[col]] and [df[col] = s]. *)
Fixpoint getitem (df : DataFrame) (col : string) : option Series :=
  match df with
  | [] => None
  | (n, s) :: df' => if decide (n = col) then Some s else getitem df' col
  end.

Fixpoint setitem (df : DataFrame) (col : string) (s : Series) : DataFrame :=
  match df with
  | [] => [(col, s)]
  | (n, s0) :: df' =>
      if decide (n = col) then (n, s) :: df' else (n, s0) :: setitem df' col s
  end.

(** [df.select_dtypes(include=[...]).columns] *)
Definition select_dtypes (include : Dtype → bool) (df : DataFrame) : list string :=
  columns (filter (λ p, include (dtype p.2) = true) df).

(** A frame the reader hands over: unique column names, columns of one
    length, every value of the kind its column's dtype stores. *)
Definition rectangular (df : DataFrame) : Prop :=
  Forall (λ p, length (values p.2) = nrows df) df.

Definition typed (df : DataFrame) : Prop :=
  Forall (λ p, Forall (λ c, cell_fits (dtype p.2) c = true) (values p.2)) df.

Record wf (df : DataFrame) : Prop := mkWf {
  wf_names : NoDup (columns df);
  wf_rect : rectangular df;
  wf_typed : typed df
}.

(** ** Stage 1: [DataFrame.drop_duplicates] *)

(** Rows are compared as pandas' object hash table compares them: with
    Python's [==], under which [True == 1] and [False == 0], and with the
    missing marker equal to itself. *)
Definition py_key (c : cell) : cell :=
  match c with
  | Bool true => Num 1%Qc
  | Bool false => Num 0%Qc
  | _ => c
  end.

Fixpoint rows_of (n : nat) (cols : list (list cell)) : list (list cell) :=
  match cols with
  | [] => replicate n []
  | c :: cs => zip_with cons c (rows_of n cs)
  end.

Definition rows (df : DataFrame) : list (list cell) :=
  rows_of (nrows df) ((λ p, values p.2) <$> df).

Definition row_key (r : list cell) : list cell := py_key <$> r.

Definition row_keys (df : DataFrame) : list (list cell) :=
  row_key <$> rows df.

(** [duplicated(keep='first')]: a row is flagged when an equal row came
    before it. *)
Fixpoint duplicated_from {K} `{EqDecision K} (seen ks : list K) : list bool :=
  match ks with
  | [] => []
  | k :: ks => bool_decide (k ∈ seen) :: duplicated_from (k :: seen) ks
  end.

Definition duplicated (df : DataFrame) : list bool :=
  duplicated_from [] (row_keys df).

(** Indexing with a boolean mask. *)
Fixpoint take_where {A} (mask : list bool) (l : list A) : list A :=
  match mask, l with
  | b :: mask, x :: l => if b then x :: take_where mask l else take_where mask l
  | _, _ => []
  end.

Definition drop_duplicates (df : DataFrame) : DataFrame :=
  let keep := negb <$> duplicated df in
  (λ p, (p.1, mkSeries (dtype p.2) (take_where keep (values p.2)))) <$> df.

(** ** Stage 2: [Series.str.strip] *)

(** A string is the UTF-8 encoding of a Python [str].  [str.strip]
    removes the characters of [str.isspace] from both ends: U+0009 to
    U+000D, U+001C to U+0020, U+0085, U+00A0, U+1680, U+2000 to U+200A,
    U+2028, U+2029, U+202F, U+205F and U+3000, here by their encodings. *)
Definition utf8 (bytes : list N) : list ascii := ascii_of_N <$> bytes.

Definition whitespace : list (list ascii) :=
  utf8 <$>
    [[0x09]; [0x0A]; [0x0B]; [0x0C]; [0x0D]; [0x1C]; [0x1D]; [0x1E]; [0x1F];
     [0x20]; [0xC2; 0x85]; [0xC2; 0xA0]; [0xE1; 0x9A; 0x80];
     [0xE2; 0x80; 0x80]; [0xE2; 0x80; 0x81]; [0xE2; 0x80; 0x82];
     [0xE2; 0x80; 0x83]; [0xE2; 0x80; 0x84]; [0xE2; 0x80; 0x85];
     [0xE2; 0x80; 0x86]; [0xE2; 0x80; 0x87]; [0xE2; 0x80; 0x88];
     [0xE2; 0x80; 0x89]; [0xE2; 0x80; 0x8A]; [0xE2; 0x80; 0xA8];
     [0xE2; 0x80; 0xA9]; [0xE2; 0x80; 0xAF]; [0xE2; 0x81; 0x9F];
     [0xE3; 0x80; 0x80]]%N.

(** The number of bytes of the character of [ws] that [l] starts with, 0
    when it starts with none. *)
Definition width (ws : list (list ascii)) (l : list ascii) : nat :=
  from_option (λ p, length p.2) 0 (list_find (λ w, w `prefix_of` l) ws).

(** [l] without its first [skip] bytes and without the characters of [ws]
    that follow them. *)
Fixpoint drop_leading (ws : list (list ascii)) (skip : nat) (l : list ascii)
    : list ascii :=
  match l with
  | [] => []
  | _ :: l' =>
      match skip with
      | S k => drop_leading ws k l'
      | 0 =>
          match width ws l with
          | 0 => l
          | S k => drop_leading ws k l'
          end
      end
  end.

Definition lstrip (s : string) : string :=
  string_of_list_ascii (drop_leading whitespace 0 (list_ascii_of_string s)).

Definition rstrip (s : string) : string :=
  string_of_list_ascii
    (reverse (drop_leading (reverse <$> whitespace) 0
                (reverse (list_ascii_of_string s)))).

Definition strip (s : string) : string := rstrip (lstrip s).

(** [lib.infer_dtype(values, skipna=True)]: the first non-missing value
    selects the check that is run on the whole array; an array that fails
    the check is mixed.  [Inumeric] stands for the answers pandas gives on
    numbers only (integer, floating, mixed-integer-float), [Imixed] for
    mixed and mixed-integer. *)
Inductive inferred :=
  | Iempty | Istring | Inumeric | Iboolean | Idatetime | Imixed.

Definition infer_dtype (vs : list cell) : inferred :=
  let l := filter (λ c, isna c = false) vs in
  match l with
  | [] => Iempty
  | Str _ :: _ => if forallb is_str l then Istring else Imixed
  | Num _ :: _ | Inf _ :: _ => if forallb is_num l then Inumeric else Imixed
  | Bool _ :: _ => if forallb is_bool l then Iboolean else Imixed
  | Date _ :: _ => if forallb is_date l then Idatetime else Imixed
  | NA :: _ => Imixed
  end.

(** [StringMethods._validate]: the [.str] accessor raises AttributeError
    unless the inferred kind is string, empty or mixed (a column of another
    dtype than object is inferred from its dtype, and refused). *)
Definition str_accessor_ok (vs : list cell) : bool :=
  match infer_dtype vs with
  | Istring | Iempty | Imixed => true
  | Inumeric | Iboolean | Idatetime => false
  end.

(** On an object array [str.strip] answers NaN for every element that is
    not a string. *)
Definition strip_cell (c : cell) : cell :=
  match c with
  | Str s => Str (strip s)
  | _ => NA
  end.

(** The result is an object column, except that pandas converts a result
    of NaN only, computed from an array with a value, to float64
    ([_str_map] with [convert=True]). *)
Definition str_strip (s : Series) : option Series :=
  if is_object (dtype s) && str_accessor_ok (values s)
  then
    let vs := strip_cell <$> values s in
    Some (mkSeries
            (if forallb isna vs && negb (forallb isna (values s))
             then Dnumber else Dobject) vs)
  else None.

(** ** Stage 3: [Series.median] and [Series.fillna] *)

(** *** float64 arithmetic

    [round64 q] is the binary64 nearest to the rational [q], ties to
    even, and the infinity when that is out of range: the rounding of
    IEEE 754 that every float64 operation of NumPy applies to its exact
    result. *)

(** The integer nearest to [n/d], for [0 ≤ n] and [0 < d]. *)
Definition round_half_even (n d : Z) : Z :=
  let f := (n / d)%Z in
  match (2 * (n mod d) ?= d)%Z with
  | Lt => f
  | Gt => (f + 1)%Z
  | Eq => if Z.even f then f else (f + 1)%Z
  end.

(** [n/d * 2^(-e)] as a fraction. *)
Definition scaled (n d e : Z) : Z * Z :=
  if (0 <=? e)%Z then (n, d * 2 ^ e)%Z else (n * 2 ^ (- e), d)%Z.

(** [m * 2^e] *)
Definition pow2 (m e : Z) : Qc :=
  Q2Qc (Qred (if (0 <=? e)%Z then (m * 2 ^ e) # 1
              else m # Z.to_pos (2 ^ (- e)))).

(** For [0 < n/d]: with [2^l ≤ n/d < 2^(l+1)] the result is [m * 2^e]
    where [e] is [l - 52], at least -1074 (the subnormal numbers), and [m]
    the integer nearest to [n/d * 2^(-e)]; [None] when that is [2^1024]
    or more. *)
Definition round64_pos (n d : Z) : option Qc :=
  let l0 := (Z.log2 n - Z.log2 d)%Z in
  let '(n0, d0) := scaled n d l0 in
  let l := if (n0 <? d0)%Z then (l0 - 1)%Z else l0 in
  let e := Z.max (l - 52) (-1074) in
  let '(n1, d1) := scaled n d e in
  let m := round_half_even n1 d1 in
  if (m * 2 ^ (e + 1074) <? 2 ^ 2098)%Z then Some (pow2 m e) else None.

Definition round64 (q : Qc) : cell :=
  match Qnum q with
  | Z0 => Num 0
  | Zpos n => from_option Num (Inf false) (round64_pos (Zpos n) (Zpos (Qden q)))
  | Zneg n =>
      from_option (λ x, Num (- x)) (Inf true)
        (round64_pos (Zpos n) (Zpos (Qden q)))
  end.

(** A number as a float64: [Series.median] converts the values of an
    integer column first. *)
Definition float64 (c : cell) : cell :=
  match c with Num q => round64 q | _ => c end.

(** [np.mean] of two numbers, as float64: the sum, rounded, divided by
    two, rounded; the sum of the two infinities is NaN. *)
Definition mean64 (a b : cell) : cell :=
  match float64 a, float64 b with
  | Num x, Num y =>
      match round64 (x + y) with
      | Num sum => round64 (sum / Q2Qc 2)
      | c => c
      end
  | Inf n, Inf n' => if bool_decide (n = n') then Inf n else NA
  | Inf n, Num _ | Num _, Inf n => Inf n
  | _, _ => NA
  end.

(** The order of the numbers, minus infinity first; the other cells are
    put after them to make the order total. *)
Definition num_rank (c : cell) : Z :=
  match c with
  | Inf true => 0
  | Num _ => 1
  | Inf false => 2
  | _ => 3
  end.

Definition num_le (x y : cell) : Prop :=
  match x, y with
  | Num a, Num b => (a <= b)%Qc
  | _, _ => (num_rank x <= num_rank y)%Z
  end.

#[global] Instance num_le_dec : RelDecision num_le.
Proof. intros x y. unfold num_le. destruct x, y; apply _. Defined.

Definition numbers (vs : list cell) : list cell :=
  filter (λ c, is_num c = true) vs.

(** [Series.median()]: NaN is skipped; the middle one of the sorted
    numbers, or the mean of the middle two. *)
Definition median (s : Series) : cell :=
  let xs := merge_sort num_le (numbers (values s)) in
  let n := length xs in
  if Nat.even n then
    match xs !! (n / 2 - 1)%nat, xs !! (n / 2)%nat with
    | Some a, Some b => mean64 a b
    | _, _ => NA
    end
  else from_option float64 NA (xs !! (n / 2)%nat).

(** [Series.fillna(v, inplace=True)].  A value the dtype of the column
    cannot hold makes pandas cast the column to object, when there is a
    gap to fill; without a gap nothing happens. *)
Definition fillna (v : cell) (s : Series) : Series :=
  mkSeries
    (if forallb (λ c, negb (isna c)) (values s) || cell_fits (dtype s) v
     then dtype s else Dobject)
    ((λ c, if isna c then v else c) <$> values s).

(** ** Stage 4: [Series.mode] *)

(** The values of a list up to Python equality, each by its first
    occurrence. *)
Fixpoint unique_from (seen : list cell) (l : list cell) : list cell :=
  match l with
  | [] => []
  | c :: l =>
      if bool_decide (py_key c ∈ seen) then unique_from seen l
      else c :: unique_from (py_key c :: seen) l
  end.

Definition count_eq (c : cell) (l : list cell) : nat :=
  length (filter (λ x, py_key x = py_key c) l).

(** [np.sort] on the modes: a TypeError (values of kinds Python does not
    order) is caught by pandas, which then keeps the unsorted modes. *)
Definition cell_le (x y : cell) : Prop :=
  match py_key x, py_key y with
  | Str a, Str b => String.leb a b = true
  | Num a, Num b => (a <= b)%Qc
  | Inf true, (Num _ | Inf _) | (Num _ | Inf _), Inf false => True
  | Inf false, (Num _ | Inf true) | Num _, Inf true => False
  | Date a, Date b => (a <= b)%Z
  | _, _ => True
  end.

#[global] Instance cell_le_dec : RelDecision cell_le.
Proof.
  intros x y. unfold cell_le.
  destruct (py_key x) as [| |[]| | |], (py_key y) as [| |[]| | |]; apply _.
Defined.

Definition sortable (l : list cell) : bool :=
  forallb is_str l
  || forallb (λ c, is_num c || is_bool c) l
  || forallb is_date l.

Definition np_sort (l : list cell) : option (list cell) :=
  if sortable l then Some (merge_sort cell_le l) else None.

Definition mode (s : Series) : list cell :=
  let vs := filter (λ c, isna c = false) (values s) in
  let us := unique_from [] vs in
  let m := max_list ((λ c, count_eq c vs) <$> us) in
  let modes := filter (λ c, count_eq c vs = m) us in
  default modes (np_sort modes).

(** ** Stage 5: [pd.to_datetime] *)

(** What the parser makes of one value: a timestamp without a time zone,
    a timestamp with one (the instant and the zone, a UTC offset), the
    missing timestamp NaT (pandas reads the empty string and the string
    [NaT] so), or an exception.  A timestamp is kept as a cell by its
    instant, which is what Python's [==] compares. *)
Inductive parsed :=
  | Timestamp (t : Z)
  | TimestampTz (t : Z) (tz : Z)
  | NaT
  | ParseError.

Definition timezone (p : parsed) : option (option Z) :=
  match p with
  | Timestamp _ => Some None
  | TimestampTz _ tz => Some (Some tz)
  | NaT | ParseError => None
  end.

(** References to frames, and the store of the frames alive. *)
Abbreviation ref := positive.
Abbreviation store := (gmap ref DataFrame).

Section Pipeline.

(** [parse vs c]: the conversion by [pd.to_datetime] of the non-missing
    object [c] found in the column of values [vs]. *)
Variable parse : list cell → cell → parsed.

Definition to_datetime_cell (vs : list cell) (c : cell) : option cell :=
  if isna c then Some NA
  else match parse vs c with
       | Timestamp t | TimestampTz t _ => Some (Date t)
       | NaT => Some NA
       | ParseError => None
       end.

(** The time zones of the parsed values of a column. *)
Definition timezones (vs : list cell) : list (option Z) :=
  omap (λ c, if isna c then None else timezone (parse vs c)) vs.

Definition mixed_timezones (vs : list cell) : bool :=
  match timezones vs with
  | [] => false
  | z :: zs => negb (forallb (λ z', bool_decide (z' = z)) zs)
  end.

(** When every value parses the result is a datetime column, unless the
    values were parsed with different time zones: pandas 2 then answers an
    object column of Timestamps (and a FutureWarning). *)
Definition to_datetime (s : Series) : option Series :=
  vs ← mapM (to_datetime_cell (values s)) (values s);
  Some (mkSeries
          (if mixed_timezones (values s) then Dobject else Ddatetime) vs).

(** ** The five stages, as loops over column names *)

(** [for col in str_cols: df[col] = df[col].str.strip()] *)
Fixpoint strip_columns (str_cols : list string) (df : DataFrame)
    : option DataFrame :=
  match str_cols with
  | [] => Some df
  | col :: cols =>
      s ← getitem df col;
      s' ← str_strip s;
      strip_columns cols (setitem df col s')
  end.

(** [for col in num_cols: df[col].fillna(df[col].median(), inplace=True)] *)
Fixpoint fill_median (num_cols : list string) (df : DataFrame)
    : option DataFrame :=
  match num_cols with
  | [] => Some df
  | col :: cols =>
      s ← getitem df col;
      let median_val := median s in
      fill_median cols (setitem df col (fillna median_val s))
  end.

(** [for col in str_cols: ... fillna(mode_val[0]) / fillna("Unknown")] *)
Fixpoint fill_mode (str_cols : list string) (df : DataFrame)
    : option DataFrame :=
  match str_cols with
  | [] => Some df
  | col :: cols =>
      s ← getitem df col;
      match mode s with
      | mode_val0 :: _ => fill_mode cols (setitem df col (fillna mode_val0 s))
      | [] => fill_mode cols (setitem df col (fillna (Str "Unknown") s))
      end
  end.

(** [for col in df.columns: if df[col].dtype == 'object': try ... except: pass] *)
Fixpoint convert_dates (cols : list string) (df : DataFrame)
    : option DataFrame :=
  match cols with
  | [] => Some df
  | col :: cols =>
      s ← getitem df col;
      if is_object (dtype s) then
        match to_datetime s with
        | Some s' => convert_dates cols (setitem df col s')
        | None => convert_dates cols df
        end
      else convert_dates cols df
  end.

(** The value [clean_data] computes from the value of its argument. *)
Definition clean (df : DataFrame) : option DataFrame :=
  let df := drop_duplicates df in
  let str_cols := select_dtypes is_object df in
  df ← strip_columns str_cols df;
  let num_cols := select_dtypes is_number df in
  df ← fill_median num_cols df;
  df ← fill_mode str_cols df;
  convert_dates (columns df) df.

(** ** [clean_data] on the store of DataFrame objects

    Names are bound to references; [drop_duplicates] allocates a new
    frame, item assignment and [fillna(inplace=True)] update the frame a
    reference points to. *)

Definition alloc (df : DataFrame) (h : store) : ref * store :=
  let r := fresh (dom h) in (r, <[r := df]> h).

Definition update (r : ref) (f : DataFrame → option DataFrame) (h : store)
    : option store :=
  df ← h !! r;
  df' ← f df;
  Some (<[r := df']> h).

Definition clean_data (df : ref) (h : store) : option (ref * store) :=
  arg ← h !! df;
  let '(df, h) := alloc (drop_duplicates arg) h in
  str_cols ← select_dtypes is_object <$> h !! df;
  h ← update df (strip_columns str_cols) h;
  num_cols ← select_dtypes is_number <$> h !! df;
  h ← update df (fill_median num_cols) h;
  h ← update df (fill_mode str_cols) h;
  cols ← columns <$> h !! df;
  h ← update df (convert_dates cols) h;
  Some (df, h).

End Pipeline.

(** ** A parser to run the pipeline on examples

    It reads [YYYY-MM-DD] into the day number [YYYY*10000 + MM*100 + DD],
    the empty string and [NaT] into NaT, passes timestamps through and
    refuses everything else, whatever the column. *)

Definition digit (a : ascii) : option Z :=
  let n := Z.of_nat (nat_of_ascii a) in
  if bool_decide (48 ≤ n ≤ 57)%Z then Some (n - 48)%Z else None.

Definition iso_date (s : string) : option Z :=
  match s with
  | String y1 (String y2 (String y3 (String y4 (String "-" (String m1
      (String m2 (String "-" (String d1 (String d2 EmptyString))))))))) =>
      y1 ← digit y1; y2 ← digit y2; y3 ← digit y3; y4 ← digit y4;
      m1 ← digit m1; m2 ← digit m2; d1 ← digit d1; d2 ← digit d2;
      let m := (m1 * 10 + m2)%Z in
      let d := (d1 * 10 + d2)%Z in
      if bool_decide (1 ≤ m ≤ 12 ∧ 1 ≤ d ≤ 31)%Z
      then Some ((y1 * 1000 + y2 * 100 + y3 * 10 + y4) * 10000 + m * 100 + d)%Z
      else None
  | _ => None
  end.

Definition iso_parse (_ : list cell) (c : cell) : parsed :=
  match c with
  | Str "" | Str "NaT" => NaT
  | Str s => from_option Timestamp ParseError (iso_date s)
  | Date t => Timestamp t
  | _ => ParseError
  end.

(** A second parser, for the layout [YYYY-MM-DD HH:MM:SS+HH:MM]: it
    answers the instant in seconds since 1970-01-01 00:00:00 UTC and the
    UTC offset in minutes. *)

Fixpoint digits (n : nat) (acc : Z) (s : string) : option (Z * string) :=
  match n with
  | 0 => Some (acc, s)
  | S n =>
      match s with
      | String a s' => d ← digit a; digits n (acc * 10 + d)%Z s'
      | EmptyString => None
      end
  end.

Definition expect (a : ascii) (s : string) : option string :=
  match s with
  | String b s' => if decide (a = b) then Some s' else None
  | EmptyString => None
  end.

(** The days from 1970-01-01 to the day [y-m-d] of the Gregorian
    calendar. *)
Definition days_from_civil (y m d : Z) : Z :=
  let y := (if m <=? 2 then y - 1 else y)%Z in
  let era := (y / 400)%Z in
  let yoe := (y - era * 400)%Z in
  let doy := ((153 * (if 2 <? m then m - 3 else m + 9) + 2) / 5 + d - 1)%Z in
  let doe := (yoe * 365 + yoe / 4 - yoe / 100 + doy)%Z in
  (era * 146097 + doe - 719468)%Z.

Definition offset_datetime (s : string) : option (Z * Z) :=
  '(y, s) ← digits 4 0 s; s ← expect "-" s;
  '(m, s) ← digits 2 0 s; s ← expect "-" s;
  '(d, s) ← digits 2 0 s; s ← expect " " s;
  '(hh, s) ← digits 2 0 s; s ← expect ":" s;
  '(mm, s) ← digits 2 0 s; s ← expect ":" s;
  '(ss, s) ← digits 2 0 s;
  '(sign, s) ← match s with
               | String "+" s' => Some (1%Z, s')
               | String "-" s' => Some ((-1)%Z, s')
               | _ => None
               end;
  '(oh, s) ← digits 2 0 s; s ← expect ":" s;
  '(om, s) ← digits 2 0 s;
  if bool_decide (s = "" ∧ 1 ≤ m ≤ 12 ∧ 1 ≤ d ≤ 31 ∧ hh ≤ 23 ∧ mm ≤ 59 ∧
                  ss ≤ 59 ∧ oh ≤ 23 ∧ om ≤ 59)%Z
  then
    let tz := (sign * (oh * 60 + om))%Z in
    Some ((days_from_civil y m d * 86400 + hh * 3600 + mm * 60 + ss
           - tz * 60)%Z, tz)
  else None.

Definition offset_parse (_ : list cell) (c : cell) : parsed :=
  match c with
  | Str "" | Str "NaT" => NaT
  | Str s =>
      match offset_datetime s with
      | Some (t, tz) => TimestampTz t tz
      | None => ParseError
      end
  | _ => ParseError
  end.

(** ** Column-wise reading of the loops

    The definitions below are the vocabulary of the theorems: what one
    loop does to one column, and the loop scheme the four loops share. *)

Fixpoint for_columns (f : Series → option Series) (cols : list string)
    (df : DataFrame) : option DataFrame :=
  match cols with
  | [] => Some df
  | col :: cols =>
      s ← getitem df col;
      s' ← f s;
      for_columns f cols (setitem df col s')
  end.

Definition on_cols (cols : list string) (f : Series → option Series)
    (p : string * Series) : option (string * Series) :=
  if bool_decide (p.1 ∈ cols) then pair p.1 <$> f p.2 else Some p.

Definition on_dtype (include : Dtype → bool) (f : Series → option Series)
    (p : string * Series) : option (string * Series) :=
  if include (dtype p.2) then pair p.1 <$> f p.2 else Some p.

Definition median_fill (s : Series) : Series := fillna (median s) s.

Definition mode_fill (s : Series) : Series :=
  fillna (match mode s with m :: _ => m | [] => Str "Unknown" end) s.

Definition try_to_datetime (parse : list cell → cell → parsed) (s : Series) : Series :=
  if is_object (dtype s) then default s (to_datetime parse s) else s.

Definition clean_col (parse : list cell → cell → parsed) (p : string * Series)
    : option (string * Series) :=
  match dtype p.2 with
  | Dobject =>
      s ← str_strip p.2; Some (p.1, try_to_datetime parse (mode_fill s))
  | Dnumber => Some (p.1, median_fill p.2)
  | _ => Some p
  end.

(** The rows [drop_duplicates] keeps, on any list of keys. *)
Definition firsts {K} `{EqDecision K} (seen ks : list K) : list K :=
  take_where (negb <$> duplicated_from seen ks) ks.

(** What [drop_duplicates] leaves of one column of [df]. *)
Definition dedup_series (df : DataFrame) (s : Series) : Series :=
  mkSeries (dtype s) (take_where (negb <$> duplicated df) (values s)).

(** The kind of Python object a cell holds. *)
Definition kind (c : cell) : inferred :=
  match c with
  | Str _ => Istring
  | Num _ | Inf _ => Inumeric
  | Bool _ => Iboolean
  | Date _ => Idatetime
  | NA => Iempty
  end.

(** A string that [str.strip] leaves as it is. *)
Definition stripped (c : cell) : Prop :=
  match c with Str t => strip t = t | _ => False end.

Definition has_value (s : Series) : Prop :=
  Exists (λ c, isna c = false) (values s).

Definition no_missing (s : Series) : Prop :=
  Forall (λ c, isna c = false) (values s).

Definition all_missing (s : Series) : Prop :=
  Forall (λ c, c = NA) (values s).

(** An object column with a Timestamp in it. *)
Definition holds_timestamps (s : Series) : Prop :=
  dtype s = Dobject ∧ Exists (λ c, is_date c = true) (values s).

Definition text_timestamps (df : DataFrame) : Prop :=
  ∃ col s, getitem df col = Some s ∧ holds_timestamps s.

(** ** Example frames *)

(** Rows [("a", 1), ("a", 1), ("b", None)]. *)
Definition scenario1 : DataFrame :=
  [("name", mkSeries Dobject [Str "a"; Str "a"; Str "b"]);
   ("val", mkSeries Dnumber [Num 1%Qc; Num 1%Qc; NA])].

Definition scenario1_out : DataFrame :=
  [("name", mkSeries Dobject [Str "a"; Str "b"]);
   ("val", mkSeries Dnumber [Num 1%Qc; Num 1%Qc])].

(** Two names that differ by a leading blank only. *)
Definition padded : DataFrame :=
  [("name", mkSeries Dobject [Str " a"; Str "a"])].

Definition padded_out : DataFrame :=
  [("name", mkSeries Dobject [Str "a"; Str "a"])].

Definition padded_twice : DataFrame :=
  [("name", mkSeries Dobject [Str "a"])].

(** A column of booleans with a gap, as [read_csv] delivers it: dtype
    object, values True, NaN, False. *)
Definition flags : DataFrame :=
  [("id", mkSeries Dnumber [Num 1%Qc; Num (Q2Qc 2); Num (Q2Qc 3)]);
   ("flag", mkSeries Dobject [Bool true; NA; Bool false])].

(** A datetime column with a gap, as [read_excel] delivers it. *)
Definition dated : DataFrame :=
  [("when", mkSeries Ddatetime [Date 20240101; NA])].

(** Two dates in text. *)
Definition dates : DataFrame :=
  [("t", mkSeries Dobject [Str "2024-01-01"; Str "2024-02-15"])].

(** Two moments written with different UTC offsets, and what
    [pd.to_datetime] makes of them: Timestamps in an object column. *)
Definition zoned : DataFrame :=
  [("at", mkSeries Dobject [Str "2024-01-01 00:00:00+01:00";
                            Str "2024-06-01 00:00:00+02:00"])].

Definition zoned_out : DataFrame :=
  [("at", mkSeries Dobject [Date 1704063600; Date 1717192800])].

(** A text column that holds numbers only, and one that holds a number
    and a boolean. *)
Definition counts : DataFrame :=
  [("n", mkSeries Dobject [Num (Q2Qc 7); Num (Q2Qc 8)])].

Definition oddments : DataFrame :=
  [("x", mkSeries Dobject [Num (Q2Qc 7); Bool true]);
   ("y", mkSeries Dnumber [Num 1%Qc; NA])].

Definition oddments_stripped : DataFrame :=
  [("x", mkSeries Dnumber [NA; NA]);
   ("y", mkSeries Dnumber [Num 1%Qc; NA])].

Definition oddments_out : DataFrame :=
  [("x", mkSeries Dobject [Str "Unknown"; Str "Unknown"]);
   ("y", mkSeries Dnumber [Num 1%Qc; Num 1%Qc])].

(** A numeric column with both infinities and a gap. *)
Definition unbounded : DataFrame :=
  [("v", mkSeries Dnumber [Inf false; NA; Inf true])].

(** A text column with a number in it and a numeric-looking text. *)
Definition codes : DataFrame :=
  [("code", mkSeries Dobject [Str " 1 "; Num (Q2Qc 7); Str "2"; Str "1"]);
   ("qty", mkSeries Dnumber [NA; NA; NA; NA])].

Definition codes_out : DataFrame :=
  [("code", mkSeries Dobject [Str "1"; Str "1"; Str "2"; Str "1"]);
   ("qty", mkSeries Dnumber [NA; NA; NA; NA])].

(** ** Vocabulary of the further properties *)

(** No whitespace character at either end. *)
Definition trimmed (t : string) : Prop :=
  ∀ w, w ∈ whitespace →
    ¬ w `prefix_of` list_ascii_of_string t ∧
    ¬ w `suffix_of` list_ascii_of_string t.

(** The non-missing values of a column, and how many numbers of a list
    are at most, or at least, a given one. *)
Definition present (vs : list cell) : list cell :=
  filter (λ c, isna c = false) vs.

Definition count_le (m : cell) (xs : list cell) : nat :=
  length (filter (λ x, num_le x m) xs).

Definition count_ge (m : cell) (xs : list cell) : nat :=
  length (filter (λ x, num_le m x) xs).

(** ** The upload route

    [request.files] is a map from field names to uploaded files.  The two
    pandas readers and the CSV writer are parameters: a reader answers a
    frame or the text [str(e)] of the exception it raised.  A response is
    a text with a status code, or the file [send_file] sends; an exception
    that leaves the view is the result [None]. *)

Record FileStorage := mkFile { filename : string; stream : string }.

Inductive response :=
  | Text (body : string) (status : nat)
  | SendFile (data : string) (mimetype : string) (as_attachment : bool)
      (download_name : string).

(** [str.endswith] *)
Fixpoint endswith (s suffix : string) : bool :=
  String.eqb s suffix ||
  match s with
  | EmptyString => false
  | String _ s' => endswith s' suffix
  end.

Section Upload.

Variable parse : list cell → cell → parsed.
Variable read_csv : string → string + DataFrame.
Variable read_excel : string → string + DataFrame.
Variable to_csv : DataFrame → string.

(** The [try] block of [upload]: [None] when the name has none of the
    three extensions, else what the reader chosen by the name answers. *)
Definition read_upload (file : FileStorage) : option (string + DataFrame) :=
  if endswith (filename file) ".csv" then Some (read_csv (stream file))
  else if endswith (filename file) ".xls" || endswith (filename file) ".xlsx"
  then Some (read_excel (stream file))
  else None.

Definition upload (files : gmap string FileStorage) : option response :=
  match files !! "file" with
  | None => Some (Text "No file uploaded" 400)
  | Some file =>
      if decide (filename file = "") then Some (Text "No selected file" 400)
      else
        match read_upload file with
        | None =>
            Some (Text
              "Unsupported file format. Please upload CSV or Excel file." 400)
        | Some (inl e) => Some (Text ("Error reading file: " ++ e) 400)
        | Some (inr df) =>
            '(cleaned, h) ← clean_data parse 1%positive {[ 1%positive := df ]};
            cleaned_df ← h !! cleaned;
            Some (SendFile (to_csv cleaned_df) "text/csv" true
                    "cleaned_data.csv")
        end
  end.

End Upload.

(** Stand-ins for the readers and the writer of pandas, for examples:
    [sample_reader] reads the text [padded] as the frame [padded] and the
    text [flags] as the frame [flags], and raises on any other text;
    [header_line] writes the header line only. *)
Definition sample_reader (text : string) : string + DataFrame :=
  if decide (text = "padded") then inr padded
  else if decide (text = "flags") then inr flags
  else inl "No columns to parse from file".

Definition header_line (df : DataFrame) : string :=
  String.concat "," (columns df).

(** * Facts *)

(** ** Item access *)

Lemma getitem_Some_elem df col s :
  getitem df col = Some s → (col, s) ∈ df.
Proof.
  induction df as [|[n s0] df IH]; simpl; [done|].
  case_decide; intros Hg; simplify_eq; [left|right; auto].
Qed.

Lemma getitem_is_Some df col :
  col ∈ columns df ↔ is_Some (getitem df col).
Proof.
  induction df as [|[n s0] df IH]; simpl.
  - split; [by intros ?%elem_of_nil|by intros [? ?]].
  - case_decide; subst.
    + split; [eauto|left].
    + rewrite elem_of_cons, IH. naive_solver.
Qed.

Lemma getitem_elem df col s :
  NoDup (columns df) → (col, s) ∈ df → getitem df col = Some s.
Proof.
  induction df as [|[n s0] df IH]; simpl; intros Hnd Hin.
  - by apply elem_of_nil in Hin.
  - apply NoDup_cons in Hnd as [Hn Hnd].
    apply elem_of_cons in Hin as [Heq|Hin]; simplify_eq.
    + by rewrite decide_True.
    + rewrite decide_False; [auto|].
      intros ->. apply Hn. by apply (list_elem_of_fmap_2 fst _ (col, s)).
Qed.

Lemma columns_setitem df col s :
  col ∈ columns df → columns (setitem df col s) = columns df.
Proof.
  induction df as [|[n s0] df IH]; simpl; intros Hin.
  - by apply elem_of_nil in Hin.
  - case_decide; simpl; [done|].
    f_equal. apply IH. apply elem_of_cons in Hin as [?|?]; [congruence|done].
Qed.

Lemma getitem_setitem df col s col' :
  col ∈ columns df →
  getitem (setitem df col s) col' =
    if decide (col = col') then Some s else getitem df col'.
Proof.
  induction df as [|[n s0] df IH]; simpl; intros Hin.
  - by apply elem_of_nil in Hin.
  - destruct (decide (n = col)) as [->|Hn]; simpl.
    + destruct (decide (col = col')); [done|]. done.
    + destruct (decide (n = col')) as [->|Hn'].
      * by rewrite decide_False.
      * apply IH. apply elem_of_cons in Hin as [?|?]; [congruence|done].
Qed.

Lemma setitem_id df col s :
  getitem df col = Some s → setitem df col s = df.
Proof.
  induction df as [|[n s0] df IH]; simpl; [done|].
  case_decide; intros Hg; simplify_eq; [done|]. f_equal. auto.
Qed.

Lemma nrows_setitem df col s s0 :
  getitem df col = Some s0 → length (values s) = length (values s0) →
  nrows (setitem df col s) = nrows df.
Proof.
  destruct df as [|[n s1] df]; simpl; [done|].
  case_decide; intros Hg; simplify_eq; simpl; congruence.
Qed.

Lemma columns_cons n s (df : DataFrame) :
  columns ((n, s) :: df) = n :: columns df.
Proof. done. Qed.

Arguments columns : simpl never.
Arguments on_cols : simpl never.
Arguments on_dtype : simpl never.

(** ** The loops, column by column *)

Lemma strip_columns_for cols df :
  strip_columns cols df = for_columns str_strip cols df.
Proof. revert df. induction cols as [|c cols IH]; intros df; simpl; [done|].
  destruct (getitem df c); simpl; [|done].
  destruct (str_strip s); simpl; auto.
Qed.

Lemma fill_median_for cols df :
  fill_median cols df = for_columns (λ s, Some (median_fill s)) cols df.
Proof. revert df. induction cols as [|c cols IH]; intros df; simpl; [done|].
  destruct (getitem df c); simpl; auto.
Qed.

Lemma fill_mode_for cols df :
  fill_mode cols df = for_columns (λ s, Some (mode_fill s)) cols df.
Proof. revert df. induction cols as [|c cols IH]; intros df; simpl; [done|].
  destruct (getitem df c) as [s|]; simpl; [|done].
  unfold mode_fill. destruct (mode s); auto.
Qed.

Lemma convert_dates_for parse cols df :
  convert_dates parse cols df =
    for_columns (λ s, Some (try_to_datetime parse s)) cols df.
Proof. revert df. induction cols as [|c cols IH]; intros df; simpl; [done|].
  destruct (getitem df c) as [s|] eqn:Hg; simpl; [|done].
  unfold try_to_datetime.
  destruct (is_object (dtype s)); simpl.
  - destruct (to_datetime parse s); simpl; [done|].
    by rewrite (setitem_id _ _ _ Hg).
  - by rewrite (setitem_id _ _ _ Hg).
Qed.

Lemma for_columns_columns f cols df df' :
  for_columns f cols df = Some df' → columns df' = columns df.
Proof.
  revert df. induction cols as [|c cols IH]; intros df; simpl.
  - by intros [= ->].
  - destruct (getitem df c) as [s|] eqn:Hg; simpl; [|done].
    destruct (f s) as [s'|]; simpl; [|done].
    intros H%IH. rewrite H. apply columns_setitem.
    apply getitem_is_Some. eauto.
Qed.

Lemma for_columns_nrows f cols df df' :
  (∀ s s', f s = Some s' → length (values s') = length (values s)) →
  for_columns f cols df = Some df' → nrows df' = nrows df.
Proof.
  intros Hf. revert df. induction cols as [|c cols IH]; intros df; simpl.
  - by intros [= ->].
  - destruct (getitem df c) as [s|] eqn:Hg; simpl; [|done].
    destruct (f s) as [s'|] eqn:Hs; simpl; [|done].
    intros H%IH. rewrite H. eapply nrows_setitem; eauto.
Qed.

Lemma on_cols_fst cols f p q : on_cols cols f p = Some q → q.1 = p.1.
Proof.
  unfold on_cols. case_bool_decide; [|by intros [= <-]].
  destruct (f p.2); simpl; [|done]. by intros [= <-].
Qed.

Lemma mapM_ext_Forall {A B} (f g : A → option B) l :
  Forall (λ x, f x = g x) l → mapM f l = mapM g l.
Proof. induction 1 as [|x l Hx _ IH]; simpl; [done|]. by rewrite Hx, IH. Qed.

Lemma mapM_cons {A B} (f : A → option B) x l :
  mapM f (x :: l) = f x ≫= λ y, mapM f l ≫= λ k, Some (y :: k).
Proof. done. Qed.

Lemma mapM_compose {A B C} (f : A → option B) (g : B → option C) l :
  mapM f l ≫= mapM g = mapM (λ x, f x ≫= g) l.
Proof.
  induction l as [|x l IH]; simpl; [done|].
  destruct (f x) as [y|]; simpl; [|done].
  rewrite <-IH. destruct (mapM f l) as [k|]; simpl; [done|].
  by destruct (g y).
Qed.

Lemma mapM_compose_k {A B C D} (f : A → option B) (g : B → option C)
    (h : list C → option D) l :
  mapM f l ≫= (λ k, mapM g k ≫= h) = mapM (λ x, f x ≫= g) l ≫= h.
Proof. rewrite <-mapM_compose. by destruct (mapM f l). Qed.

Lemma on_cols_not_in cols f df col :
  col ∉ columns df →
  Forall (λ p, on_cols (col :: cols) f p = on_cols cols f p) df.
Proof.
  intros Hcol. apply Forall_forall. intros [n s] Hin. unfold on_cols; simpl.
  assert (n ≠ col).
  { intros ->. apply Hcol. by apply (list_elem_of_fmap_2 fst _ (col, s)). }
  apply (f_equal (λ b : bool, if b then _ else _)), bool_decide_ext.
  rewrite elem_of_cons. naive_solver.
Qed.

Lemma mapM_on_cols_cons f col cols df s s' :
  NoDup (columns df) → col ∉ cols →
  getitem df col = Some s → f s = Some s' →
  mapM (on_cols (col :: cols) f) df = mapM (on_cols cols f) (setitem df col s').
Proof.
  intros Hnd Hcol. induction df as [|[n s0] df IH]; simpl; [done|].
  rewrite columns_cons in Hnd. apply NoDup_cons in Hnd as [Hn Hnd].
  case_decide as Hd; intros Hg Hf; simplify_eq; rewrite !mapM_cons.
  - rewrite (mapM_ext_Forall _ _ _ (on_cols_not_in cols f df col Hn)).
    unfold on_cols; simpl.
    rewrite bool_decide_true by left.
    rewrite bool_decide_false by done. by rewrite Hf.
  - rewrite <-IH by done.
    assert (on_cols (col :: cols) f (n, s0) = on_cols cols f (n, s0)) as ->; [|done].
    unfold on_cols; simpl.
    apply (f_equal (λ b : bool, if b then _ else _)), bool_decide_ext.
    rewrite elem_of_cons. naive_solver.
Qed.

Lemma mapM_on_cols_nil f df : mapM (on_cols [] f) df = Some df.
Proof.
  apply mapM_Some, Forall2_same_length_lookup. split; [done|].
  intros i x y ? ?. simplify_eq. unfold on_cols.
  rewrite bool_decide_false; [done|]. apply not_elem_of_nil.
Qed.

(** A loop over distinct names, each naming a column, transforms the
    named columns and touches no other. *)
Lemma for_columns_mapM f cols df :
  NoDup cols → NoDup (columns df) → cols ⊆ columns df →
  for_columns f cols df = mapM (on_cols cols f) df.
Proof.
  intros Hc. revert df. induction Hc as [|c cols Hc Hcs IH]; intros df Hnd Hsub.
  - simpl. by rewrite mapM_on_cols_nil.
  - simpl.
    assert (c ∈ columns df) as Hin by (apply Hsub; left).
    destruct (proj1 (getitem_is_Some df c) Hin) as [s Hg]. rewrite Hg. simpl.
    destruct (f s) as [s'|] eqn:Hf; simpl.
    + rewrite IH.
      * symmetry. by eapply mapM_on_cols_cons.
      * by rewrite columns_setitem.
      * rewrite columns_setitem by done. intros x Hx. apply Hsub. by right.
    + symmetry. apply mapM_None, Exists_exists. exists (c, s). split.
      * by apply getitem_Some_elem.
      * unfold on_cols; simpl. rewrite bool_decide_true by left. by rewrite Hf.
Qed.

Lemma select_dtypes_elem include df n s :
  NoDup (columns df) → (n, s) ∈ df →
  n ∈ select_dtypes include df ↔ include (dtype s) = true.
Proof.
  intros Hnd Hin. unfold select_dtypes, columns. rewrite list_elem_of_fmap. split.
  - intros [[n' s'] [-> [Hi Hin']%list_elem_of_filter]]. simpl in *.
    assert (s' = s) as ->; [|done].
    apply getitem_elem in Hin, Hin'; try done. congruence.
  - intros Hi. exists (n, s). split; [done|]. by apply list_elem_of_filter.
Qed.

Lemma select_dtypes_sub include df : select_dtypes include df ⊆ columns df.
Proof.
  unfold select_dtypes, columns.
  intros n [p [-> [_ Hp]%list_elem_of_filter]]%list_elem_of_fmap.
  by apply list_elem_of_fmap_2.
Qed.

Lemma select_dtypes_NoDup include df :
  NoDup (columns df) → NoDup (select_dtypes include df).
Proof.
  unfold select_dtypes, columns. intros Hnd.
  apply (sublist_NoDup _ (fst <$> df)); [exact Hnd|].
  apply (fmap_sublist fst), sublist_filter.
Qed.

Lemma on_cols_select include f df :
  NoDup (columns df) →
  Forall (λ p, on_cols (select_dtypes include df) f p = on_dtype include f p) df.
Proof.
  intros Hnd. apply Forall_forall. intros [n s] Hin. unfold on_cols, on_dtype; simpl.
  destruct (include (dtype s)) eqn:Hi.
  - rewrite bool_decide_true; [done|]. by eapply select_dtypes_elem.
  - rewrite bool_decide_false; [done|].
    rewrite select_dtypes_elem by done. congruence.
Qed.

Lemma on_cols_all f df :
  Forall (λ p, on_cols (columns df) f p = on_dtype (λ _, true) f p) df.
Proof.
  apply Forall_forall. intros p Hin. unfold on_cols, on_dtype.
  rewrite bool_decide_true; [done|]. by apply list_elem_of_fmap_2.
Qed.

Lemma for_columns_select include f df :
  NoDup (columns df) →
  for_columns f (select_dtypes include df) df = mapM (on_dtype include f) df.
Proof.
  intros Hnd. rewrite for_columns_mapM.
  - by apply mapM_ext_Forall, on_cols_select.
  - by apply select_dtypes_NoDup.
  - done.
  - apply select_dtypes_sub.
Qed.


(** ** Boolean indexing and [duplicated] *)

Lemma take_where_nil_r {A} (mask : list bool) : take_where mask (@nil A) = [].
Proof. by destruct mask. Qed.

Section TakeWhere.

Context {A B : Type}.

Lemma take_where_fmap (f : A → B) mask l :
  take_where mask (f <$> l) = f <$> take_where mask l.
Proof.
  revert l. induction mask as [|b mask IH]; intros [|x l]; simpl; try done.
  destruct b; simpl; by rewrite IH.
Qed.

Lemma take_where_length (mask : list bool) (l : list A) (k : list B) :
  length l = length k →
  length (take_where mask l) = length (take_where mask k).
Proof.
  revert l k. induction mask as [|b mask IH]; intros [|x l] [|y k]; simpl; try done.
  intros [= H]. destruct b; simpl; auto.
Qed.

Lemma take_where_sublist (mask : list bool) (l : list A) :
  take_where mask l `sublist_of` l.
Proof.
  revert l. induction mask as [|b mask IH]; intros [|x l]; simpl;
    try apply sublist_nil_l.
  destruct b; [by apply sublist_skip|by apply sublist_cons].
Qed.

Lemma take_where_all (l : list A) n :
  length l ≤ n → take_where (replicate n true) l = l.
Proof.
  revert l. induction n as [|n IH]; intros [|x l]; simpl; try done; [lia|].
  intros ?. f_equal. apply IH. lia.
Qed.

Lemma take_where_Forall (P : A → Prop) mask (l : list A) :
  Forall P l → Forall P (take_where mask l).
Proof.
  intros H. apply Forall_forall. intros x Hx.
  eapply Forall_forall; [exact H|].
  eapply elem_of_sublist; [exact Hx|apply take_where_sublist].
Qed.

Lemma take_where_zip_with {C} (f : A → B → C) mask l k :
  take_where mask (zip_with f l k) =
    zip_with f (take_where mask l) (take_where mask k).
Proof.
  revert l k. induction mask as [|b mask IH]; intros [|x l] [|y k]; simpl;
    try done.
  - by destruct b, (take_where mask l).
  - destruct b; simpl; by rewrite IH.
Qed.

Lemma take_where_replicate mask n (x : A) :
  length mask = n →
  take_where mask (replicate n x) =
    replicate (length (take_where mask mask)) x.
Proof.
  intros <-. induction mask as [|b mask IH]; simpl; [done|].
  destruct b; simpl; by rewrite IH.
Qed.

End TakeWhere.

Section Firsts.

Context {K : Type} `{EqDecision K}.

Lemma length_duplicated_from (seen ks : list K) :
  length (duplicated_from seen ks) = length ks.
Proof.
  revert seen. induction ks as [|k ks IH]; intros seen; simpl; [done|].
  by rewrite IH.
Qed.

Lemma firsts_cons (seen : list K) k ks :
  firsts seen (k :: ks) =
    if bool_decide (k ∈ seen) then firsts (k :: seen) ks
    else k :: firsts (k :: seen) ks.
Proof. unfold firsts; simpl. by destruct (bool_decide _). Qed.

Lemma elem_of_firsts (seen ks : list K) x :
  x ∈ firsts seen ks ↔ x ∈ ks ∧ x ∉ seen.
Proof.
  revert seen. induction ks as [|k ks IH]; intros seen.
  - unfold firsts; simpl. rewrite !elem_of_nil. naive_solver.
  - rewrite firsts_cons. case_bool_decide as Hk.
    + rewrite IH, !elem_of_cons. naive_solver.
    + rewrite elem_of_cons, IH, not_elem_of_cons, elem_of_cons.
      destruct (decide (x = k)) as [->|]; naive_solver.
Qed.

Lemma NoDup_firsts (seen ks : list K) : NoDup (firsts seen ks).
Proof.
  revert seen. induction ks as [|k ks IH]; intros seen.
  - apply NoDup_nil_2.
  - rewrite firsts_cons. case_bool_decide; [done|].
    apply NoDup_cons. split; [|done].
    rewrite elem_of_firsts, elem_of_cons. naive_solver.
Qed.

Lemma firsts_sublist (seen ks : list K) : firsts seen ks `sublist_of` ks.
Proof. apply take_where_sublist. Qed.

Lemma duplicated_from_NoDup (seen ks : list K) :
  NoDup ks → (∀ x, x ∈ ks → x ∉ seen) →
  duplicated_from seen ks = replicate (length ks) false.
Proof.
  intros Hnd. revert seen. induction Hnd as [|k ks Hk Hnd IH]; intros seen Hs;
    simpl; [done|].
  rewrite bool_decide_false by (apply Hs; left). f_equal.
  apply IH. intros x Hx [->|Hin]%elem_of_cons; [done|].
  by apply (Hs x); [right|].
Qed.

(** A row is flagged exactly when an equal row stands before it. *)
Lemma duplicated_from_lookup (seen ks : list K) i k :
  ks !! i = Some k →
  duplicated_from seen ks !! i = Some (bool_decide (k ∈ seen ∨ k ∈ take i ks)).
Proof.
  revert seen i. induction ks as [|a ks IH]; intros seen [|i]; simpl; try done.
  - intros [= ->]. f_equal. apply bool_decide_ext.
    rewrite elem_of_nil. naive_solver.
  - intros Hi. rewrite (IH _ _ Hi). f_equal. apply bool_decide_ext.
    rewrite !elem_of_cons. naive_solver.
Qed.

Lemma length_firsts (ks : list K) :
  length (firsts [] ks) = length (remove_dups ks).
Proof.
  apply Permutation_length, NoDup_Permutation.
  - apply NoDup_firsts.
  - apply NoDup_remove_dups.
  - intros x. rewrite elem_of_firsts, elem_of_remove_dups, elem_of_nil.
    naive_solver.
Qed.

Lemma firsts_fmap_elem {V} (g : K → V) (seen ks : list K) k :
  k ∈ ks → k ∉ seen →
  g k ∈ take_where (negb <$> duplicated_from seen ks) (g <$> ks).
Proof.
  intros Hk Hs. rewrite take_where_fmap. apply list_elem_of_fmap_2.
  by apply elem_of_firsts.
Qed.

End Firsts.

(** ** Rows of a frame and [drop_duplicates] *)

Lemma length_rows_of n cs :
  Forall (λ c : list cell, length c = n) cs → length (rows_of n cs) = n.
Proof.
  induction 1 as [|c cs Hc _ IH]; simpl.
  - apply length_replicate.
  - rewrite length_zip_with, IH, Hc. lia.
Qed.

Lemma rows_of_take_where mask n cs :
  length mask = n → Forall (λ c : list cell, length c = n) cs →
  rows_of (length (take_where mask mask)) (take_where mask <$> cs) =
    take_where mask (rows_of n cs).
Proof.
  intros Hm. induction 1 as [|c cs Hc _ IH]; csimpl.
  - by rewrite take_where_replicate.
  - by rewrite take_where_zip_with, IH.
Qed.

Lemma rectangular_cols df :
  rectangular df →
  Forall (λ c : list cell, length c = nrows df) ((λ p, values p.2) <$> df).
Proof. intros H. by apply Forall_fmap. Qed.

Lemma length_rows df : rectangular df → length (rows df) = nrows df.
Proof. intros H. by apply length_rows_of, rectangular_cols. Qed.

Lemma length_duplicated df : rectangular df → length (duplicated df) = nrows df.
Proof.
  intros H. unfold duplicated, row_keys.
  by rewrite length_duplicated_from, length_fmap, length_rows.
Qed.

Lemma columns_drop_duplicates df : columns (drop_duplicates df) = columns df.
Proof. unfold drop_duplicates, columns. by rewrite <-list_fmap_compose. Qed.

Lemma nrows_drop_duplicates_mask df :
  rectangular df →
  let keep := negb <$> duplicated df in
  nrows (drop_duplicates df) = length (take_where keep keep).
Proof.
  intros H keep. destruct df as [|[n s] df]; [done|]. simpl.
  apply take_where_length. unfold keep.
  rewrite length_fmap, length_duplicated by done. done.
Qed.

Lemma rows_drop_duplicates df :
  rectangular df →
  rows (drop_duplicates df) = take_where (negb <$> duplicated df) (rows df).
Proof.
  intros H. unfold rows at 1. rewrite nrows_drop_duplicates_mask by done.
  unfold drop_duplicates. rewrite <-list_fmap_compose.
  change ((λ p : string * Series, values p.2) ∘ _) with
    (take_where (negb <$> duplicated df) ∘ (λ p : string * Series, values p.2)).
  rewrite list_fmap_compose. apply rows_of_take_where.
  - by rewrite length_fmap, length_duplicated.
  - by apply rectangular_cols.
Qed.

Lemma row_keys_drop_duplicates df :
  rectangular df → row_keys (drop_duplicates df) = firsts [] (row_keys df).
Proof.
  intros H. unfold row_keys at 1. rewrite rows_drop_duplicates by done.
  by rewrite <-take_where_fmap.
Qed.

Lemma nrows_drop_duplicates df :
  rectangular df →
  nrows (drop_duplicates df) = length (firsts [] (row_keys df)).
Proof.
  intros H. rewrite nrows_drop_duplicates_mask by done.
  apply take_where_length. unfold duplicated.
  by rewrite length_fmap, length_duplicated_from.
Qed.

Lemma rectangular_drop_duplicates df :
  rectangular df → rectangular (drop_duplicates df).
Proof.
  intros H. unfold rectangular. rewrite nrows_drop_duplicates_mask by done.
  unfold drop_duplicates. apply Forall_fmap, Forall_forall.
  intros [n s] Hin. simpl. apply take_where_length.
  rewrite length_fmap, length_duplicated by done.
  eapply Forall_forall in H; [|done]. done.
Qed.

Lemma typed_drop_duplicates df : typed df → typed (drop_duplicates df).
Proof.
  intros H. unfold typed, drop_duplicates. apply Forall_fmap.
  eapply Forall_impl; [exact H|]. intros [n s] Hs. simpl in *.
  by apply take_where_Forall.
Qed.

Lemma drop_duplicates_id df :
  rectangular df → NoDup (row_keys df) → drop_duplicates df = df.
Proof.
  intros H Hnd. unfold drop_duplicates, duplicated.
  rewrite duplicated_from_NoDup; [|done|by intros ?? ?%elem_of_nil].
  rewrite fmap_replicate. simpl.
  rewrite <-(list_fmap_id df) at 2. apply Forall_fmap_ext, Forall_forall.
  intros [n s] Hin. simpl. f_equal. destruct s as [d vs]. simpl. f_equal.
  apply take_where_all. unfold row_keys. rewrite length_fmap, length_rows by done.
  eapply Forall_forall in H; [|done]. simpl in H. lia.
Qed.

(** ** One column through [drop_duplicates] *)

Lemma drop_duplicates_by_column df :
  drop_duplicates df = (λ p, (p.1, dedup_series df p.2)) <$> df.
Proof. done. Qed.

Lemma getitem_fmap (f : Series → Series) (df : DataFrame) col :
  getitem ((λ p, (p.1, f p.2)) <$> df) col = f <$> getitem df col.
Proof.
  induction df as [|[n s] df IH]; csimpl; [done|]. by case_decide.
Qed.

Lemma getitem_drop_duplicates df col :
  getitem (drop_duplicates df) col = dedup_series df <$> getitem df col.
Proof. by rewrite drop_duplicates_by_column, getitem_fmap. Qed.

Lemma zip_cons_head (c : list cell) (rs : list (list cell)) :
  length rs = length c →
  (λ r : list cell, r !! 0) <$> zip_with cons c rs = Some <$> c.
Proof.
  revert rs. induction c as [|x c IH]; intros [|r rs]; csimpl; try done.
  intros [= H]. by rewrite IH.
Qed.

Lemma zip_cons_tail (c : list cell) (rs : list (list cell)) j :
  length rs = length c →
  (λ r : list cell, r !! S j) <$> zip_with cons c rs =
    (λ r : list cell, r !! j) <$> rs.
Proof.
  revert rs. induction c as [|x c IH]; intros [|r rs]; csimpl; try done.
  intros [= H]. by rewrite IH.
Qed.

(** Column [j] of a frame is the [j]-th projection of its rows. *)
Lemma rows_of_lookup n cs j c :
  Forall (λ c : list cell, length c = n) cs → cs !! j = Some c →
  (λ r : list cell, r !! j) <$> rows_of n cs = Some <$> c.
Proof.
  intros H. revert j. induction H as [|c0 cs Hc Hcs IH]; intros [|j]; simpl;
    try done.
  - intros [= ->]. apply zip_cons_head. by rewrite length_rows_of, Hc.
  - intros Hj. rewrite zip_cons_tail by by rewrite length_rows_of, Hc. auto.
Qed.

Lemma py_key_isna c : isna (py_key c) = isna c.
Proof. by destruct c as [| | |[]| |]. Qed.

(** Every value of a column is still there, up to Python equality, after
    the duplicate rows are dropped. *)
Lemma column_survives df n s c :
  rectangular df → (n, s) ∈ df → c ∈ values s →
  ∃ c', c' ∈ values (dedup_series df s) ∧ py_key c' = py_key c.
Proof.
  intros Hr [j Hj]%list_elem_of_lookup Hc.
  pose (g := λ r : list cell, r !! j).
  assert (g <$> row_keys df = (λ c, Some (py_key c)) <$> values s) as Hg.
  { unfold row_keys. rewrite <-list_fmap_compose.
    transitivity (fmap py_key <$> (g <$> rows df)).
    - rewrite <-list_fmap_compose. apply list_fmap_ext. intros i r _. simpl.
      unfold g, row_key. apply list_lookup_fmap.
    - unfold g, rows. rewrite (rows_of_lookup _ _ j (values s)).
      + by rewrite <-list_fmap_compose.
      + by apply rectangular_cols.
      + by rewrite list_lookup_fmap, Hj. }
  assert (Some (py_key c) ∈ g <$> row_keys df) as Hin.
  { rewrite Hg. by apply (list_elem_of_fmap_2 (λ c, Some (py_key c))). }
  apply list_elem_of_fmap in Hin as [k [Hk Hkin]].
  pose proof (firsts_fmap_elem g [] (row_keys df) k Hkin) as Hf.
  rewrite Hg, take_where_fmap, <-Hk in Hf.
  apply list_elem_of_fmap in Hf as [c' [[= Hc'] Hin']]; [|apply not_elem_of_nil].
  exists c'. split; [exact Hin'|done].
Qed.

Lemma dedup_series_sub df s c :
  c ∈ values (dedup_series df s) → c ∈ values s.
Proof. intros H. eapply elem_of_sublist; [exact H|apply take_where_sublist]. Qed.

(** ** Whitespace stripping *)

Section DropLeading.

Variable ws : list (list ascii).
Hypothesis ws_nonempty : [] ∉ ws.

Lemma drop_leading_skip k l :
  drop_leading ws k l = drop_leading ws 0 (drop k l).
Proof.
  revert k. induction l as [|a l IH]; intros [|k]; simpl; done.
Qed.

Lemma width_S l k :
  width ws l = S k → ∃ w, w ∈ ws ∧ w `prefix_of` l ∧ length w = S k.
Proof.
  unfold width. destruct (list_find _ ws) as [[i w]|] eqn:Hf; simpl; [|done].
  apply list_find_Some in Hf as (Hi & Hp & _). intros Hl.
  exists w. split; [by eapply list_elem_of_lookup_2|done].
Qed.

Lemma width_0 l w : width ws l = 0 → w ∈ ws → ¬ w `prefix_of` l.
Proof.
  unfold width. destruct (list_find _ ws) as [[i w']|] eqn:Hf; simpl.
  - apply list_find_Some in Hf as (Hi & _ & _). intros Hl%nil_length_inv.
    subst w'. destruct ws_nonempty. by eapply list_elem_of_lookup_2.
  - intros _ Hw. apply list_find_None in Hf.
    by eapply Forall_forall in Hf.
Qed.

Lemma drop_leading_cons a l :
  drop_leading ws 0 (a :: l) =
    match width ws (a :: l) with
    | 0 => a :: l
    | S k => drop_leading ws 0 (drop (S k) (a :: l))
    end.
Proof. simpl. destruct (width ws (a :: l)); [done|]. apply drop_leading_skip. Qed.

Lemma drop_leading_suffix l : drop_leading ws 0 l `suffix_of` l.
Proof.
  induction l as [l IH] using (induction_ltof1 _ length). unfold ltof in IH.
  destruct l as [|a l]; [done|]. rewrite drop_leading_cons.
  destruct (width ws (a :: l)) as [|k]; [done|].
  etrans; [apply IH|apply suffix_drop]. rewrite length_drop. simpl. lia.
Qed.

Lemma drop_leading_no_prefix l w :
  w ∈ ws → ¬ w `prefix_of` drop_leading ws 0 l.
Proof.
  intros Hw. induction l as [l IH] using (induction_ltof1 _ length).
  unfold ltof in IH. destruct l as [|a l].
  - simpl. intros ->%prefix_nil_inv. by destruct ws_nonempty.
  - rewrite drop_leading_cons. destruct (width ws (a :: l)) as [|k] eqn:Hk.
    + by apply width_0.
    + apply IH. rewrite length_drop. simpl. lia.
Qed.

Lemma drop_leading_fixed l :
  (∀ w, w ∈ ws → ¬ w `prefix_of` l) → drop_leading ws 0 l = l.
Proof.
  intros H. destruct l as [|a l]; [done|]. rewrite drop_leading_cons.
  destruct (width ws (a :: l)) as [|k] eqn:Hk; [done|].
  apply width_S in Hk as (w & Hw & Hp & _). by destruct (H w Hw).
Qed.

End DropLeading.

Lemma whitespace_nonempty : [] ∉ whitespace.
Proof. refine (bool_decide_unpack _ _). vm_compute. exact I. Qed.

Lemma whitespace_reverse_nonempty : [] ∉ reverse <$> whitespace.
Proof.
  intros [w [Hw Hin]]%list_elem_of_fmap. symmetry in Hw.
  apply (f_equal reverse) in Hw. rewrite reverse_involutive in Hw.
  subst w. by apply whitespace_nonempty.
Qed.

Lemma list_of_lstrip s :
  list_ascii_of_string (lstrip s) =
    drop_leading whitespace 0 (list_ascii_of_string s).
Proof. apply list_ascii_of_string_of_list_ascii. Qed.

Lemma list_of_rstrip s :
  list_ascii_of_string (rstrip s) =
    reverse (drop_leading (reverse <$> whitespace) 0
               (reverse (list_ascii_of_string s))).
Proof. apply list_ascii_of_string_of_list_ascii. Qed.

Lemma list_of_string_inj s t :
  list_ascii_of_string s = list_ascii_of_string t → s = t.
Proof.
  intros H. rewrite <-(string_of_list_ascii_of_string s), H.
  apply string_of_list_ascii_of_string.
Qed.

Lemma rstrip_prefix s :
  list_ascii_of_string (rstrip s) `prefix_of` list_ascii_of_string s.
Proof.
  rewrite list_of_rstrip. apply prefix_suffix_reverse.
  rewrite reverse_involutive. apply drop_leading_suffix.
Qed.

Lemma rstrip_no_suffix s w :
  w ∈ whitespace → ¬ w `suffix_of` list_ascii_of_string (rstrip s).
Proof.
  intros Hw Hs. rewrite list_of_rstrip in Hs.
  apply suffix_prefix_reverse in Hs. rewrite reverse_involutive in Hs.
  revert Hs. apply drop_leading_no_prefix.
  - apply whitespace_reverse_nonempty.
  - by apply list_elem_of_fmap_2.
Qed.

Lemma lstrip_fixed t :
  (∀ w, w ∈ whitespace → ¬ w `prefix_of` list_ascii_of_string t) →
  lstrip t = t.
Proof.
  intros H. apply list_of_string_inj. rewrite list_of_lstrip.
  by apply drop_leading_fixed.
Qed.

Lemma rstrip_fixed t :
  (∀ w, w ∈ whitespace → ¬ w `suffix_of` list_ascii_of_string t) →
  rstrip t = t.
Proof.
  intros H. apply list_of_string_inj. rewrite list_of_rstrip.
  rewrite drop_leading_fixed; [apply reverse_involutive|].
  intros w' [w [-> Hw]]%list_elem_of_fmap Hp.
  apply (H w Hw). by apply suffix_prefix_reverse.
Qed.

(** What [str.strip] answers has no whitespace at either end. *)
Lemma trimmed_strip s : trimmed (strip s).
Proof.
  intros w Hw. split.
  - intros Hp. unfold strip in Hp.
    assert (w `prefix_of` list_ascii_of_string (lstrip s)) as Hp'
      by (etrans; [exact Hp|apply rstrip_prefix]).
    rewrite list_of_lstrip in Hp'. revert Hp'.
    apply drop_leading_no_prefix; [apply whitespace_nonempty|done].
  - by apply rstrip_no_suffix.
Qed.

(** A string is a fixed point of [str.strip] exactly when no whitespace
    character stands at its start or at its end. *)
Lemma strip_fixed_iff t : strip t = t ↔ trimmed t.
Proof.
  split.
  - intros <-. apply trimmed_strip.
  - intros H. unfold strip.
    rewrite (lstrip_fixed t) by (intros w Hw; apply (H w Hw)).
    apply rstrip_fixed. intros w Hw. apply (H w Hw).
Qed.

Lemma strip_strip s : strip (strip s) = strip s.
Proof. apply strip_fixed_iff, trimmed_strip. Qed.

Lemma strip_cell_strip_cell c : strip_cell (strip_cell c) = strip_cell c.
Proof. destruct c; simpl; try done. by rewrite strip_strip. Qed.

Lemma forallb_isna vs : forallb isna vs = true ↔ Forall (λ c, c = NA) vs.
Proof.
  rewrite <-Is_true_true, forallb_True. apply Forall_proper; [|done].
  intros c. by destruct c.
Qed.

Lemma forallb_notna vs :
  forallb (λ c, negb (isna c)) vs = true ↔ Forall (λ c, isna c = false) vs.
Proof.
  rewrite <-Is_true_true, forallb_True. apply Forall_proper; [|done].
  intros c. by destruct (isna c).
Qed.

Lemma str_strip_Some s s' :
  str_strip s = Some s' →
  dtype s = Dobject ∧ str_accessor_ok (values s) = true ∧
  values s' = strip_cell <$> values s ∧
  (dtype s' = Dobject ∨
   (dtype s' = Dnumber ∧ all_missing s' ∧ values s' ≠ [])).
Proof.
  unfold str_strip. destruct (dtype s); simpl; try done.
  destruct (str_accessor_ok _); [|done]. intros [= <-]. simpl.
  split; [done|]. split; [done|]. split; [done|].
  destruct (forallb isna (strip_cell <$> values s)) eqn:E1; [|by left].
  destruct (forallb isna (values s)) eqn:E2; [by left|]. right.
  split; [done|]. split; [by apply forallb_isna|].
  by destruct (values s).
Qed.

Lemma str_strip_is_Some s :
  dtype s = Dobject → str_accessor_ok (values s) = true →
  is_Some (str_strip s).
Proof. intros Hd Hok. unfold str_strip. by rewrite Hd, Hok. Qed.

Lemma str_strip_None s :
  dtype s = Dobject → str_strip s = None ↔ str_accessor_ok (values s) = false.
Proof.
  intros Hd. unfold str_strip. rewrite Hd. simpl.
  by destruct (str_accessor_ok (values s)).
Qed.

(** ** Filling *)

Lemma fillna_values v s :
  values (fillna v s) = (λ c, if isna c then v else c) <$> values s.
Proof. done. Qed.

Lemma fillna_dtype v s :
  cell_fits (dtype s) v = true → dtype (fillna v s) = dtype s.
Proof. intros H. unfold fillna. simpl. by rewrite H, orb_true_r. Qed.

Lemma fillna_cast v s :
  cell_fits (dtype s) v = false → ¬ no_missing s →
  dtype (fillna v s) = Dobject.
Proof.
  intros H Hm. unfold fillna. simpl. rewrite H, orb_false_r.
  destruct (forallb _ (values s)) eqn:E; [|done].
  by apply forallb_notna in E.
Qed.

Lemma fillna_lookup v s i c :
  values s !! i = Some c →
  values (fillna v s) !! i = Some (if isna c then v else c).
Proof. intros H. by rewrite fillna_values, list_lookup_fmap, H. Qed.

Lemma fillna_no_missing v s : isna v = false → no_missing (fillna v s).
Proof.
  intros Hv. unfold no_missing, fillna; simpl. apply Forall_fmap, Forall_forall.
  intros c _. simpl. by destruct (isna c) eqn:Hc.
Qed.

Lemma fillna_id v s : no_missing s → fillna v s = s.
Proof.
  intros H. destruct s as [d vs]. unfold fillna, no_missing in *; simpl in *.
  rewrite (proj2 (forallb_notna vs) H). simpl.
  f_equal. rewrite <-(list_fmap_id vs) at 2. apply Forall_fmap_ext.
  eapply Forall_impl; [exact H|]. intros c Hc. simpl. by rewrite Hc.
Qed.

Lemma fillna_NA s : cell_fits (dtype s) NA = true → fillna NA s = s.
Proof.
  intros H. destruct s as [d vs]. unfold fillna; simpl in *.
  rewrite H, orb_true_r. f_equal.
  rewrite <-(list_fmap_id vs) at 2. apply list_fmap_ext. intros i c _.
  by destruct c.
Qed.

(** ** The median *)

Lemma round64_is_num q : is_num (round64 q) = true.
Proof.
  unfold round64. destruct (Qnum q); [done| |];
    by destruct (round64_pos _ _).
Qed.

Lemma float64_is_num c : is_num c = true → is_num (float64 c) = true.
Proof. destruct c; simpl; try done. intros _. apply round64_is_num. Qed.

(** The mean of two numbers is a number, or NaN for the two infinities. *)
Lemma mean64_cases a b :
  is_num a = true → is_num b = true →
  is_num (mean64 a b) = true ∨
  (mean64 a b = NA ∧ ∃ n, float64 a = Inf n ∧ float64 b = Inf (negb n)).
Proof.
  intros Ha%float64_is_num Hb%float64_is_num. unfold mean64.
  destruct (float64 a) as [|x|n| | |], (float64 b) as [|y|n'| | |];
    simpl in *; try done.
  - left. pose proof (round64_is_num (x + y)) as H.
    destruct (round64 (x + y)) as [|sum| | | |]; simpl in *; try done.
    apply round64_is_num.
  - by left.
  - by left.
  - case_bool_decide as E; [by left|]. right. split; [done|].
    exists n. split; [done|]. by destruct n, n'.
Qed.

Lemma elem_of_numbers c vs : c ∈ numbers vs ↔ c ∈ vs ∧ is_num c = true.
Proof. unfold numbers. by rewrite list_elem_of_filter, (comm and). Qed.

Lemma elem_of_sorted_numbers c vs :
  c ∈ merge_sort num_le (numbers vs) ↔ c ∈ vs ∧ is_num c = true.
Proof. by rewrite merge_sort_Permutation, elem_of_numbers. Qed.

(** The median is NaN or a number; it is NaN only for a column without a
    number, or when the middle two of its numbers are the two
    infinities. *)
Lemma median_cases s :
  is_num (median s) = true ∨
  (median s = NA ∧
   (numbers (values s) = [] ∨
    ∃ a b, a ∈ values s ∧ b ∈ values s ∧
      float64 a = Inf true ∧ float64 b = Inf false)).
Proof.
  unfold median.
  set (xs := merge_sort num_le (numbers (values s))).
  assert (∀ i c, xs !! i = Some c → c ∈ values s ∧ is_num c = true) as Hxs.
  { intros i c Hi. apply elem_of_sorted_numbers. by eapply list_elem_of_lookup_2. }
  assert (length xs = 0 → numbers (values s) = []) as Hnil.
  { intros Hl%nil_length_inv. apply Permutation_nil_r.
    rewrite <-(merge_sort_Permutation num_le). fold xs. by rewrite Hl. }
  destruct (Nat.even (length xs)) eqn:Hev.
  - destruct (xs !! (length xs / 2 - 1)) as [a|] eqn:Ha.
    2:{ right. split; [done|]. left. apply Hnil.
        apply lookup_ge_None in Ha. destruct (length xs) as [|[|n]]; [done..|].
        assert (S (S n) / 2 < S (S n)) by (apply Nat.div_lt; lia). lia. }
    destruct (xs !! (length xs / 2)) as [b|] eqn:Hb.
    2:{ right. split; [done|]. left. apply Hnil.
        apply lookup_ge_None in Hb. destruct (length xs) as [|n]; [done|].
        assert (S n / 2 < S n) by (apply Nat.div_lt; lia). lia. }
    destruct (Hxs _ _ Ha) as [Ha1 Ha2]. destruct (Hxs _ _ Hb) as [Hb1 Hb2].
    destruct (mean64_cases a b Ha2 Hb2) as [?|(E & n & En & En')]; [by left|].
    right. split; [done|]. right.
    destruct n; [exists a, b|exists b, a]; done.
  - destruct (xs !! (length xs / 2)) as [b|] eqn:Hb; simpl.
    + left. apply float64_is_num. by apply (Hxs _ _ Hb).
    + right. split; [done|]. left. apply Hnil.
      apply lookup_ge_None in Hb. destruct (length xs) as [|n]; [done|].
      assert (S n / 2 < S n) by (apply Nat.div_lt; lia). lia.
Qed.

Lemma median_fits s : cell_fits Dnumber (median s) = true.
Proof.
  destruct (median_cases s) as [H|[-> _]]; [|done]. simpl. by rewrite H.
Qed.

Lemma median_no_numbers s : numbers (values s) = [] → median s = NA.
Proof. intros H. unfold median. by rewrite H. Qed.

Lemma numbers_all_missing vs : Forall (λ c, c = NA) vs → numbers vs = [].
Proof.
  unfold numbers. induction 1 as [|c vs -> _ IH]; [done|].
  by rewrite filter_cons.
Qed.

Lemma median_all_missing s : all_missing s → median s = NA.
Proof. intros H. by apply median_no_numbers, numbers_all_missing. Qed.

Lemma median_fill_dtype s : dtype s = Dnumber → dtype (median_fill s) = Dnumber.
Proof.
  intros Hd. unfold median_fill. rewrite fillna_dtype; [done|].
  rewrite Hd. apply median_fits.
Qed.

Lemma median_fill_all_missing s :
  dtype s = Dnumber → all_missing s → median_fill s = s.
Proof.
  intros Hd H. unfold median_fill. rewrite (median_all_missing _ H).
  apply fillna_NA. by rewrite Hd.
Qed.

Lemma median_fill_twice s :
  dtype s = Dnumber → median_fill (median_fill s) = median_fill s.
Proof.
  intros Hd. unfold median_fill at 1.
  destruct (median_cases s) as [Hm|[Hm _]].
  - apply fillna_id. unfold median_fill. apply fillna_no_missing.
    by destruct (median s).
  - assert (median_fill s = s) as ->.
    { unfold median_fill. rewrite Hm. apply fillna_NA. by rewrite Hd. }
    rewrite Hm. apply fillna_NA. by rewrite Hd.
Qed.

(** ** The mode *)

Lemma unique_from_sub seen l c : c ∈ unique_from seen l → c ∈ l.
Proof.
  revert seen. induction l as [|x l IH]; intros seen; simpl; [done|].
  case_bool_decide.
  - intros ?%IH. by right.
  - intros [->|?%IH]%elem_of_cons; [left|by right].
Qed.

Lemma np_sort_elem l l' c : np_sort l = Some l' → c ∈ l' ↔ c ∈ l.
Proof.
  unfold np_sort. destruct (sortable l); [|done]. intros [= <-].
  by rewrite merge_sort_Permutation.
Qed.

Lemma mode_elem s m : m ∈ mode s → m ∈ values s ∧ isna m = false.
Proof.
  unfold mode.
  set (vs := filter (λ c, isna c = false) (values s)).
  set (modes := filter _ (unique_from [] vs)).
  intros Hm. assert (m ∈ modes) as Hin.
  { destruct (np_sort modes) as [l'|] eqn:Hs; simpl in Hm; [|done].
    by apply (np_sort_elem _ _ _ Hs). }
  apply list_elem_of_filter in Hin as [_ Hin%unique_from_sub].
  by apply list_elem_of_filter in Hin as [? ?].
Qed.

Lemma mode_nonempty s : has_value s → mode s ≠ [].
Proof.
  intros Hv. unfold mode.
  set (vs := filter (λ c, isna c = false) (values s)).
  set (us := unique_from [] vs).
  set (counts := (λ c, count_eq c vs) <$> us).
  set (modes := filter _ us).
  assert (us ≠ []) as Hus.
  { unfold us. destruct vs as [|c vs'] eqn:Hvs; [|done].
    apply Exists_exists in Hv as [c [Hin Hc]].
    assert (c ∈ vs) as Hcv by by apply list_elem_of_filter.
    rewrite Hvs in Hcv. by apply elem_of_nil in Hcv. }
  assert (modes ≠ []) as Hmodes.
  { assert (max_list counts ∈ counts) as Hmax.
    { apply max_list_elem_of. unfold counts. by destruct us. }
    apply list_elem_of_fmap in Hmax as [c [Hc Hin]].
    assert (c ∈ modes) as Hcm by by apply list_elem_of_filter.
    intros E. rewrite E in Hcm. by apply elem_of_nil in Hcm. }
  unfold np_sort. destruct (sortable modes); simpl; [|done].
  intros E. apply Hmodes, Permutation_nil_r.
  by rewrite <-(merge_sort_Permutation cell_le modes), E.
Qed.

Lemma mode_fill_value s :
  ∃ m, mode_fill s = fillna m s ∧ isna m = false ∧
       (m ∈ values s ∨ (m = Str "Unknown" ∧ ¬ has_value s)).
Proof.
  unfold mode_fill. destruct (mode s) as [|m ms] eqn:Hm.
  - exists (Str "Unknown"). split; [done|]. split; [done|]. right.
    split; [done|]. by intros ?%mode_nonempty.
  - exists m. assert (m ∈ mode s) as [? ?]%mode_elem by (rewrite Hm; left).
    eauto.
Qed.

Lemma mode_fill_no_missing s : no_missing (mode_fill s).
Proof.
  destruct (mode_fill_value s) as (m & -> & Hm & _). by apply fillna_no_missing.
Qed.

Lemma mode_all_missing s : all_missing s → mode s = [].
Proof.
  intros H. destruct (mode s) as [|m ms] eqn:Hm; [done|].
  assert (m ∈ mode s) as [Hin Hna]%mode_elem by (rewrite Hm; left).
  eapply Forall_forall in H; [|exact Hin]. by subst m.
Qed.

(** After Stage 4 a column Stage 2 has stripped is an object column,
    also when Stage 2 had made it a float64 column of NaN. *)
Lemma mode_fill_dtype s s1 :
  str_strip s = Some s1 → dtype (mode_fill s1) = Dobject.
Proof.
  intros (_ & _ & _ & [Hd|(Hd & Hall & Hne)])%str_strip_Some.
  - unfold mode_fill. rewrite fillna_dtype; [done|]. by rewrite Hd.
  - unfold mode_fill. rewrite (mode_all_missing _ Hall).
    apply fillna_cast; [by rewrite Hd|].
    intros Hno. unfold all_missing, no_missing in *.
    destruct (values s1) as [|c vs]; [done|].
    apply Forall_cons in Hall as [-> _]. by apply Forall_cons in Hno as [? _].
Qed.

Lemma mode_fill_length s : length (values (mode_fill s)) = length (values s).
Proof. unfold mode_fill. by rewrite fillna_values, length_fmap. Qed.

(** ** Date coercion *)

Section ToDatetime.

Variable parse : list cell → cell → parsed.

Lemma to_datetime_Some s s' :
  to_datetime parse s = Some s' →
  dtype s' = (if mixed_timezones parse (values s) then Dobject else Ddatetime) ∧
  Forall2 (λ c c', to_datetime_cell parse (values s) c = Some c')
    (values s) (values s').
Proof.
  unfold to_datetime. destruct (mapM _ _) as [vs|] eqn:Hm; simpl; [|done].
  intros [= <-]. split; [done|]. by apply mapM_Some_1.
Qed.

Lemma to_datetime_None s :
  to_datetime parse s = None ↔
  Exists (λ c, isna c = false ∧ parse (values s) c = ParseError) (values s).
Proof.
  unfold to_datetime. rewrite bind_None.
  transitivity (mapM (to_datetime_cell parse (values s)) (values s) = None);
    [naive_solver|].
  rewrite mapM_None, !Exists_exists.
  apply exist_proper. intros c. unfold to_datetime_cell.
  destruct (isna c); [naive_solver|].
  destruct (parse (values s) c); naive_solver.
Qed.

Lemma to_datetime_cell_fits vs c c' :
  to_datetime_cell parse vs c = Some c' → cell_fits Ddatetime c' = true.
Proof.
  unfold to_datetime_cell. destruct (isna c); [by intros [= <-]|].
  destruct (parse vs c); intros [= <-]; done.
Qed.

Lemma to_datetime_length s s' :
  to_datetime parse s = Some s' → length (values s') = length (values s).
Proof. intros [_ H]%to_datetime_Some. symmetry. by eapply Forall2_length. Qed.

Lemma try_to_datetime_length s :
  length (values (try_to_datetime parse s)) = length (values s).
Proof.
  unfold try_to_datetime. destruct (is_object _); [|done].
  destruct (to_datetime parse s) eqn:H; simpl; [|done].
  by apply to_datetime_length.
Qed.

Lemma elem_of_timezones vs z :
  z ∈ timezones parse vs ↔
  ∃ c, c ∈ vs ∧ isna c = false ∧ timezone (parse vs c) = Some z.
Proof.
  unfold timezones. rewrite list_elem_of_omap. apply exist_proper. intros c.
  destruct (isna c); naive_solver.
Qed.

(** The time zones are mixed exactly when two present values of the
    column are parsed with different time zones. *)
Lemma mixed_timezones_spec vs :
  mixed_timezones parse vs = true ↔
  ∃ c c' z z', c ∈ vs ∧ c' ∈ vs ∧ isna c = false ∧ isna c' = false ∧
    timezone (parse vs c) = Some z ∧ timezone (parse vs c') = Some z' ∧
    z ≠ z'.
Proof.
  unfold mixed_timezones.
  pose proof (elem_of_timezones vs) as Hz.
  destruct (timezones parse vs) as [|z zs].
  { split; [done|]. intros (c & _ & z & _ & Hc & _ & Hna & _ & Ht & _).
    assert (z ∈ []) as []%elem_of_nil. apply Hz. eauto. }
  rewrite negb_true_iff, <-not_true_iff_false, <-Is_true_true, forallb_True.
  split.
  - intros E. apply not_Forall_Exists in E; [|apply _].
    apply Exists_exists in E as (z' & Hin & Hne). simpl in Hne.
    rewrite bool_decide_spec in Hne.
    destruct (proj1 (Hz z) ltac:(left)) as (c & Hc & Hna & Ht).
    destruct (proj1 (Hz z') ltac:(by right)) as (c' & Hc' & Hna' & Ht').
    exists c, c', z, z'. naive_solver.
  - intros (c & c' & z1 & z2 & Hc & Hc' & Hna & Hna' & Ht & Ht' & Hne).
    rewrite Forall_forall. intros Hall.
    assert (∀ x, x ∈ z :: zs → x = z) as Heq.
    { intros x [->|Hx]%elem_of_cons; [done|].
      specialize (Hall x Hx). by rewrite bool_decide_spec in Hall. }
    apply Hne. rewrite (Heq z1), (Heq z2); [done|apply Hz; eauto..].
Qed.

(** What [pd.to_datetime] answers holds timestamps and NaT only; with
    mixed time zones it holds a timestamp. *)
Lemma to_datetime_values s s' c' :
  to_datetime parse s = Some s' → c' ∈ values s' →
  is_date c' = true ∨ c' = NA.
Proof.
  intros [_ Hv]%to_datetime_Some [i Hi]%list_elem_of_lookup.
  destruct (Forall2_lookup_r _ _ _ _ _ Hv Hi) as (c & _ & Hcc).
  apply to_datetime_cell_fits in Hcc. destruct c'; try done; auto.
Qed.

Lemma to_datetime_mixed s s' :
  to_datetime parse s = Some s' → mixed_timezones parse (values s) = true →
  holds_timestamps s'.
Proof.
  intros Ht Hm. pose proof Ht as [Hd Hv]%to_datetime_Some.
  rewrite Hm in Hd. split; [done|].
  apply mixed_timezones_spec in Hm as (c & _ & z & _ & Hc & _ & Hna & _ & Hz & _).
  apply list_elem_of_lookup in Hc as [i Hi].
  destruct (Forall2_lookup_l _ _ _ _ _ Hv Hi) as (c' & Hi' & Hcc).
  apply Exists_exists. exists c'. split; [by eapply list_elem_of_lookup_2|].
  unfold to_datetime_cell in Hcc. rewrite Hna in Hcc.
  destruct (parse (values s) c); simplify_eq; done.
Qed.

Lemma mixed_timezones_replicate n c :
  mixed_timezones parse (replicate n c) = false.
Proof.
  apply not_true_iff_false. rewrite mixed_timezones_spec.
  intros (c1 & c2 & z & z' & ->%elem_of_replicate_inv
          & ->%elem_of_replicate_inv & _ & _ & H1 & H2 & Hne).
  congruence.
Qed.

End ToDatetime.

(** ** The pipeline, column by column *)

Lemma mapM_fst_columns (F : string * Series → option (string * Series))
    (d d' : DataFrame) :
  (∀ p q, F p = Some q → q.1 = p.1) →
  mapM F d = Some d' → columns d' = columns d.
Proof.
  intros HF H%mapM_Some_1. induction H as [|p q d d' Hpq _ IH]; [done|].
  destruct p, q. rewrite !columns_cons, IH. f_equal.
  by apply HF in Hpq.
Qed.

Lemma on_dtype_true include f n s :
  include (dtype s) = true → on_dtype include f (n, s) = pair n <$> f s.
Proof. intros H. unfold on_dtype. simpl. by rewrite H. Qed.

Lemma on_dtype_false include f n s :
  include (dtype s) = false → on_dtype include f (n, s) = Some (n, s).
Proof. intros H. unfold on_dtype. simpl. by rewrite H. Qed.

Lemma on_cols_in cols f n s :
  n ∈ cols → on_cols cols f (n, s) = pair n <$> f s.
Proof. intros H. unfold on_cols. simpl. by rewrite bool_decide_true. Qed.

Lemma on_cols_notin cols f n s :
  n ∉ cols → on_cols cols f (n, s) = Some (n, s).
Proof. intros H. unfold on_cols. simpl. by rewrite bool_decide_false. Qed.

Section CleanColumns.

Variable parse : list cell → cell → parsed.

Lemma clean_stages df :
  NoDup (columns df) →
  clean parse df =
    d2 ← mapM (on_dtype is_object str_strip) (drop_duplicates df);
    d3 ← mapM (on_dtype is_number (λ s, Some (median_fill s))) d2;
    d4 ← mapM (on_cols (select_dtypes is_object (drop_duplicates df))
                 (λ s, Some (mode_fill s))) d3;
    mapM (on_dtype (λ _, true) (λ s, Some (try_to_datetime parse s))) d4.
Proof.
  intros Hnd. unfold clean.
  assert (NoDup (columns (drop_duplicates df))) as Hnd1
    by by rewrite columns_drop_duplicates.
  set (d := drop_duplicates df) in *.
  rewrite strip_columns_for.
  destruct (for_columns str_strip _ d) as [d2|] eqn:H2; simpl.
  2:{ rewrite for_columns_select in H2 by done. by rewrite H2. }
  pose proof (for_columns_columns _ _ _ _ H2) as C2.
  rewrite for_columns_select in H2 by done. rewrite H2. simpl.
  assert (NoDup (columns d2)) as Hnd2 by by rewrite C2.
  rewrite fill_median_for.
  destruct (for_columns _ _ d2) as [d3|] eqn:H3; simpl.
  2:{ rewrite for_columns_select in H3 by done. by rewrite H3. }
  pose proof (for_columns_columns _ _ _ _ H3) as C3.
  rewrite for_columns_select in H3 by done. rewrite H3. simpl.
  assert (NoDup (columns d3)) as Hnd3 by by rewrite C3, C2.
  rewrite fill_mode_for, for_columns_mapM;
    [|by apply select_dtypes_NoDup|done
     |rewrite C3, C2; apply select_dtypes_sub].
  destruct (mapM _ d3) as [d4|] eqn:H4; simpl; [|done].
  assert (columns d4 = columns d3) as C4.
  { eapply mapM_fst_columns; [|exact H4]. apply on_cols_fst. }
  assert (NoDup (columns d4)) as Hnd4 by by rewrite C4.
  rewrite convert_dates_for, for_columns_mapM; [|done..].
  apply mapM_ext_Forall, on_cols_all.
Qed.

(** The whole pipeline is one pass over the columns of the deduplicated
    frame: Stage 3 leaves a column of NaN that Stage 2 has made numeric as
    it is, and Stage 4 finds the columns of [str_cols] by their names. *)
Lemma clean_by_column df :
  NoDup (columns df) →
  clean parse df = mapM (clean_col parse) (drop_duplicates df).
Proof.
  intros Hnd. rewrite clean_stages by done.
  assert (NoDup (columns (drop_duplicates df))) as Hnd1
    by by rewrite columns_drop_duplicates.
  set (d := drop_duplicates df) in *.
  rewrite !mapM_compose_k, mapM_compose.
  apply mapM_ext_Forall, Forall_forall. intros [n s] Hin.
  pose proof (select_dtypes_elem is_object d n s Hnd1 Hin) as Hsel.
  unfold clean_col. simpl.
  destruct (dtype s) eqn:Hd; simpl.
  - rewrite on_dtype_true by by rewrite Hd.
    destruct (str_strip s) as [s1|] eqn:Hs; [|done].
    cbn [fmap option_fmap option_map mbind option_bind].
    assert (on_dtype is_number (λ s, Some (median_fill s)) (n, s1)
            = Some (n, s1)) as ->.
    { apply str_strip_Some in Hs as (_ & _ & _ & [H1|(H1 & Hall & _)]).
      - apply on_dtype_false. by rewrite H1.
      - rewrite on_dtype_true by by rewrite H1.
        simpl. by rewrite median_fill_all_missing. }
    cbn [mbind option_bind]. rewrite on_cols_in by by apply Hsel.
    cbn [fmap option_fmap option_map mbind option_bind].
    by rewrite on_dtype_true.
  - rewrite on_dtype_false by by rewrite Hd. cbn [mbind option_bind].
    rewrite on_dtype_true by by rewrite Hd.
    cbn [fmap option_fmap option_map mbind option_bind].
    rewrite on_cols_notin by by rewrite Hsel.
    cbn [mbind option_bind]. rewrite on_dtype_true by done. simpl.
    unfold try_to_datetime. by rewrite (median_fill_dtype _ Hd).
  - rewrite on_dtype_false by by rewrite Hd. cbn [mbind option_bind].
    rewrite on_dtype_false by by rewrite Hd. cbn [mbind option_bind].
    rewrite on_cols_notin by by rewrite Hsel.
    cbn [mbind option_bind]. rewrite on_dtype_true by done. simpl.
    unfold try_to_datetime. by rewrite Hd.
  - rewrite on_dtype_false by by rewrite Hd. cbn [mbind option_bind].
    rewrite on_dtype_false by by rewrite Hd. cbn [mbind option_bind].
    rewrite on_cols_notin by by rewrite Hsel.
    cbn [mbind option_bind]. rewrite on_dtype_true by done. simpl.
    unfold try_to_datetime. by rewrite Hd.
Qed.

End CleanColumns.

(** ** One column through the pipeline *)

Section CleanColumn.

Variable parse : list cell → cell → parsed.

Lemma clean_col_fst p q : clean_col parse p = Some q → q.1 = p.1.
Proof.
  unfold clean_col. destruct (dtype p.2); try by intros [= <-].
  destruct (str_strip p.2); simpl; [|done]. by intros [= <-].
Qed.

Lemma clean_col_length p q :
  clean_col parse p = Some q → length (values q.2) = length (values p.2).
Proof.
  unfold clean_col. destruct (dtype p.2); try by intros [= <-].
  - destruct (str_strip p.2) as [s1|] eqn:Hs; simpl; [|done]. intros [= <-].
    apply str_strip_Some in Hs as (_ & _ & Hv & _). simpl.
    by rewrite try_to_datetime_length, mode_fill_length, Hv, length_fmap.
  - intros [= <-]. unfold median_fill, fillna. simpl. by rewrite length_fmap.
Qed.

Lemma clean_Forall2 df out :
  NoDup (columns df) → clean parse df = Some out →
  Forall2 (λ p q, clean_col parse p = Some q) (drop_duplicates df) out.
Proof. intros Hnd. rewrite clean_by_column by done. apply mapM_Some_1. Qed.

Lemma getitem_Forall2 (F : string * Series → option (string * Series))
    (d out : DataFrame) col s :
  (∀ p q, F p = Some q → q.1 = p.1) →
  Forall2 (λ p q, F p = Some q) d out →
  getitem d col = Some s →
  ∃ s', getitem out col = Some s' ∧ F (col, s) = Some (col, s').
Proof.
  intros HF. induction 1 as [|[n s0] [n' s0'] d out Hpq _ IH]; simpl; [done|].
  pose proof (HF _ _ Hpq) as Hn. simpl in Hn. subst n'.
  case_decide as Hc; [|done]. subst n. intros [= ->]. eauto.
Qed.

Lemma getitem_clean df out col s :
  NoDup (columns df) → clean parse df = Some out → getitem df col = Some s →
  ∃ s', getitem out col = Some s' ∧
        clean_col parse (col, dedup_series df s) = Some (col, s').
Proof.
  intros Hnd Hc Hg. eapply getitem_Forall2.
  - apply clean_col_fst.
  - by apply clean_Forall2.
  - by rewrite getitem_drop_duplicates, Hg.
Qed.

Lemma clean_nrows df out :
  NoDup (columns df) → clean parse df = Some out →
  nrows out = nrows (drop_duplicates df).
Proof.
  intros Hnd Hc. pose proof (clean_Forall2 _ _ Hnd Hc) as H.
  destruct H as [|[n s] [n' s'] d o Hpq _]; [done|]. simpl.
  by apply clean_col_length in Hpq.
Qed.

Lemma clean_columns df out :
  clean parse df = Some out → columns out = columns df.
Proof.
  unfold clean.
  destruct (strip_columns _ _) as [d2|] eqn:H2; simpl; [|done].
  destruct (fill_median _ _) as [d3|] eqn:H3; simpl; [|done].
  destruct (fill_mode _ _) as [d4|] eqn:H4; simpl; [|done].
  intros H5.
  rewrite strip_columns_for in H2. rewrite fill_median_for in H3.
  rewrite fill_mode_for in H4. rewrite convert_dates_for in H5.
  apply for_columns_columns in H2, H3, H4, H5.
  rewrite H5, H4, H3, H2. apply columns_drop_duplicates.
Qed.

Lemma clean_rectangular df out :
  NoDup (columns df) → rectangular df → clean parse df = Some out →
  rectangular out.
Proof.
  intros Hnd Hr Hc. unfold rectangular. rewrite (clean_nrows _ _ Hnd Hc).
  pose proof (clean_Forall2 _ _ Hnd Hc) as H.
  apply rectangular_drop_duplicates in Hr. unfold rectangular in Hr.
  revert Hr. generalize (nrows (drop_duplicates df)). intros m Hr.
  clear Hc. induction H as [|p q d o Hpq _ IH]; [done|].
  apply Forall_cons in Hr as [Hp Hr]. constructor; [|auto].
  by rewrite (clean_col_length _ _ Hpq).
Qed.

End CleanColumn.

(** * The claims *)

Ltac wf_frame :=
  split;
  [ refine (bool_decide_unpack _ _); vm_compute; exact I
  | repeat constructor
  | repeat constructor ].

(** ** Column names *)

(** C5. Column-set invariance: whenever [clean] returns, the output has
    the input's column names, in the input's order. *)
Theorem clean_keeps_columns (parse : list cell → cell → parsed) (df out : DataFrame) :
  clean parse df = Some out → columns out = columns df.
Proof. apply clean_columns. Qed.

Lemma clean_keeps_columns_witness :
  clean iso_parse scenario1 = Some scenario1_out ∧
  columns scenario1_out = columns scenario1.
Proof.
  assert (clean iso_parse scenario1 = Some scenario1_out) as H
    by (vm_compute; reflexivity).
  split; [exact H|]. exact (clean_keeps_columns iso_parse _ _ H).
Defined.

(** ** Row count *)

Lemma stage_nrows (parse : list cell → cell → parsed) :
  (∀ cols d d', strip_columns cols d = Some d' → nrows d' = nrows d) ∧
  (∀ cols d d', fill_median cols d = Some d' → nrows d' = nrows d) ∧
  (∀ cols d d', fill_mode cols d = Some d' → nrows d' = nrows d) ∧
  (∀ cols d d', convert_dates parse cols d = Some d' → nrows d' = nrows d).
Proof.
  repeat split; intros cols d d'.
  - rewrite strip_columns_for. apply for_columns_nrows.
    intros s s' (_ & _ & Hv & _)%str_strip_Some. by rewrite Hv, length_fmap.
  - rewrite fill_median_for. apply for_columns_nrows.
    intros s s' [= <-]. simpl. by rewrite length_fmap.
  - rewrite fill_mode_for. apply for_columns_nrows.
    intros s s' [= <-]. simpl. by rewrite length_fmap.
  - rewrite convert_dates_for. apply for_columns_nrows.
    intros s s' [= <-]. apply try_to_datetime_length.
Qed.

(** C4. Row count: on a rectangular frame with distinct column names the
    output of [clean] has as many rows as the input has distinct rows, at
    most as many as the input; Stage 1 keeps the rows that no equal row
    precedes, in their order; Stages 2 to 5 keep the row count. *)
Theorem clean_row_count (parse : list cell → cell → parsed) (df out : DataFrame) :
  NoDup (columns df) → rectangular df → clean parse df = Some out →
  nrows out = length (remove_dups (row_keys df)) ∧
  nrows out ≤ nrows df ∧
  rows (drop_duplicates df) = take_where (negb <$> duplicated df) (rows df) ∧
  rows (drop_duplicates df) `sublist_of` rows df ∧
  (∀ i r, rows df !! i = Some r →
     duplicated df !! i =
       Some (bool_decide (row_key r ∈ take i (row_keys df)))) ∧
  nrows out = nrows (drop_duplicates df) ∧
  (∀ cols d d', strip_columns cols d = Some d' → nrows d' = nrows d) ∧
  (∀ cols d d', fill_median cols d = Some d' → nrows d' = nrows d) ∧
  (∀ cols d d', fill_mode cols d = Some d' → nrows d' = nrows d) ∧
  (∀ cols d d', convert_dates parse cols d = Some d' → nrows d' = nrows d).
Proof.
  intros Hnd Hr Hc.
  pose proof (clean_nrows parse _ _ Hnd Hc) as Hn.
  pose proof (rows_drop_duplicates _ Hr) as Hrows.
  split; [by rewrite Hn, nrows_drop_duplicates, length_firsts|].
  split.
  { rewrite Hn, nrows_drop_duplicates by done.
    rewrite (sublist_length _ _ (firsts_sublist [] (row_keys df))).
    unfold row_keys. by rewrite length_fmap, length_rows. }
  split; [done|].
  split; [rewrite Hrows; apply take_where_sublist|].
  split.
  { intros i r Hi. unfold duplicated.
    rewrite (duplicated_from_lookup [] (row_keys df) i (row_key r)).
    - f_equal. apply bool_decide_ext. rewrite elem_of_nil. naive_solver.
    - unfold row_keys. by rewrite list_lookup_fmap, Hi. }
  split; [done|]. apply stage_nrows.
Qed.

Lemma clean_row_count_witness :
  NoDup (columns scenario1) ∧ rectangular scenario1 ∧
  clean iso_parse scenario1 = Some scenario1_out ∧
  nrows scenario1_out = length (remove_dups (row_keys scenario1)) ∧
  nrows scenario1_out ≤ nrows scenario1.
Proof.
  assert (NoDup (columns scenario1)) as H1
    by (refine (bool_decide_unpack _ _); vm_compute; exact I).
  assert (rectangular scenario1) as H2 by repeat constructor.
  assert (clean iso_parse scenario1 = Some scenario1_out) as H3
    by (vm_compute; reflexivity).
  destruct (clean_row_count iso_parse _ _ H1 H2 H3) as (Ha & Hb & _).
  exact (conj H1 (conj H2 (conj H3 (conj Ha Hb)))).
Defined.

(** ** Date coercion *)

Lemma convert_dates_all (parse : list cell → cell → parsed) (df : DataFrame) :
  NoDup (columns df) →
  convert_dates parse (columns df) df =
    Some ((λ p, (p.1, try_to_datetime parse p.2)) <$> df).
Proof.
  intros Hnd. rewrite convert_dates_for, for_columns_mapM; [|done..].
  apply mapM_Some_2, Forall2_fmap_r, Forall_Forall2_diag, Forall_forall.
  intros [n s] Hin. unfold on_cols. simpl.
  rewrite bool_decide_true; [done|]. by apply (list_elem_of_fmap_2 fst _ (n, s)).
Qed.

(** C2, counterexample. The two strings of [zoned] carry different UTC
    offsets: both parse, Stage 5 replaces them by Timestamps, and the
    column stays an object column.  The column is neither a date column
    nor what it was. *)
Lemma convert_dates_mixed_offsets :
  wf zoned ∧
  convert_dates offset_parse (columns zoned) zoned = Some zoned_out ∧
  clean offset_parse zoned = Some zoned_out ∧
  zoned_out ≠ zoned.
Proof.
  split; [wf_frame|]. split; [vm_compute; reflexivity|].
  split; [vm_compute; reflexivity|done].
Qed.

(** C2, amended. Stage 5 run on a frame with distinct column names
    returns, and an object column comes back in one of three ways.  When a
    value fails to parse, it comes back as it was, values and dtype.  When
    every non-missing value parses, every value is replaced by its parsed
    value (the timestamp the parser answers, or NaT), and the column is a
    datetime column unless two of its values were parsed with different
    time zones: then it stays an object column, holding the Timestamps.
    The columns of other dtypes come back as they were. *)
Theorem convert_dates_three_outcomes (parse : list cell → cell → parsed)
    (df : DataFrame) :
  NoDup (columns df) →
  ∃ out, convert_dates parse (columns df) df = Some out ∧
    ∀ col s, getitem df col = Some s →
      (dtype s = Dobject →
         (Exists (λ c, isna c = false ∧ parse (values s) c = ParseError)
            (values s) ∧
          getitem out col = Some s)
         ∨
         (Forall (λ c, isna c = false → parse (values s) c ≠ ParseError)
            (values s) ∧
          ∃ s', getitem out col = Some s' ∧
            length (values s') = length (values s) ∧
            (∀ i c, values s !! i = Some c →
               values s' !! i =
                 Some (if isna c then NA
                       else match parse (values s) c with
                            | Timestamp t | TimestampTz t _ => Date t
                            | NaT | ParseError => NA
                            end)) ∧
            (dtype s' = Ddatetime ∨ dtype s' = Dobject) ∧
            (dtype s' = Dobject ↔
             ∃ c c' z z', c ∈ values s ∧ c' ∈ values s ∧
               isna c = false ∧ isna c' = false ∧
               timezone (parse (values s) c) = Some z ∧
               timezone (parse (values s) c') = Some z' ∧ z ≠ z'))) ∧
      (dtype s ≠ Dobject → getitem out col = Some s).
Proof.
  intros Hnd. eexists. split; [by apply convert_dates_all|].
  intros col s Hg. rewrite getitem_fmap, Hg. simpl. unfold try_to_datetime.
  split.
  - intros ->. simpl.
    destruct (to_datetime parse s) as [s'|] eqn:Ht; simpl.
    + right. split.
      * apply Forall_forall. intros c Hin Hna Hp.
        assert (to_datetime parse s = None) as E; [|congruence].
        apply to_datetime_None, Exists_exists. eauto.
      * exists s'. split; [done|].
        split; [by eapply to_datetime_length|].
        apply to_datetime_Some in Ht as [Hd Hv]. split.
        { intros i c Hi.
          destruct (Forall2_lookup_l _ _ _ _ _ Hv Hi) as (c' & -> & Hcc).
          f_equal. unfold to_datetime_cell in Hcc.
          destruct (isna c); [congruence|].
          destruct (parse (values s) c); congruence. }
        rewrite <-mixed_timezones_spec, Hd.
        destruct (mixed_timezones parse (values s)); split; auto; done.
    + left. split; [by apply to_datetime_None|done].
  - intros Hd. by destruct (dtype s).
Qed.

Lemma convert_dates_three_outcomes_witness :
  NoDup (columns dates) ∧
  ∃ out s', convert_dates iso_parse (columns dates) dates = Some out ∧
    getitem out "t" = Some s' ∧
    values s' !! 1 = Some (Date 20240215) ∧ dtype s' = Ddatetime.
Proof.
  assert (NoDup (columns dates)) as H
    by (refine (bool_decide_unpack _ _); vm_compute; exact I).
  split; [exact H|].
  destruct (convert_dates_three_outcomes iso_parse dates H) as (out & Ho & Hcol).
  destruct (Hcol "t" (mkSeries Dobject [Str "2024-01-01"; Str "2024-02-15"])
              eq_refl) as [Hobj _].
  destruct (Hobj eq_refl) as [[Hfail _]|[_ (s' & Hg & _ & Hv & Hd & Hmix)]].
  { exfalso. apply Exists_cons in Hfail as [[_ Hf]|Hfail]; [done|].
    apply Exists_cons in Hfail as [[_ Hf]|Hfail]; [done|].
    by apply Exists_nil in Hfail. }
  exists out, s'. split; [exact Ho|]. split; [exact Hg|].
  split; [exact (Hv 1 (Str "2024-02-15") eq_refl)|].
  destruct Hd as [Hd|Hd]; [exact Hd|]. exfalso.
  apply Hmix in Hd as (c & c' & z & z' & Hc & Hc' & _ & _ & Hz & Hz' & Hne).
  assert (∀ x y, x ∈ [Str "2024-01-01"; Str "2024-02-15"] →
    timezone (iso_parse [Str "2024-01-01"; Str "2024-02-15"] x) = Some y →
    y = None) as Hnone.
  { intros x y Hx. simpl in Hx.
    apply elem_of_cons in Hx as [->|Hx]; [by intros [= <-]|].
    apply elem_of_cons in Hx as [->|Hx]; [by intros [= <-]|].
    by apply elem_of_nil in Hx. }
  apply Hne. by rewrite (Hnone c z), (Hnone c' z').
Defined.

(** ** The text-column snapshot *)

Lemma getitem_mapM_on_cols cols f (d d' : DataFrame) col :
  mapM (on_cols cols f) d = Some d' →
  getitem d' col =
    if bool_decide (col ∈ cols) then getitem d col ≫= f else getitem d col.
Proof.
  intros H%mapM_Some_1.
  induction H as [|[n s] [n' s'] d d' Hpq _ IH]; simpl.
  - by case_bool_decide.
  - pose proof (on_cols_fst _ _ _ _ Hpq) as Hn. simpl in Hn. subst n'.
    destruct (decide (n = col)) as [->|Hc]; [|done].
    unfold on_cols in Hpq. simpl in Hpq. case_bool_decide; simpl.
    + destruct (f s); simpl in *; congruence.
    + congruence.
Qed.

Lemma for_columns_getitem f cols (d d' : DataFrame) col :
  NoDup cols → NoDup (columns d) → cols ⊆ columns d →
  for_columns f cols d = Some d' →
  getitem d' col =
    if bool_decide (col ∈ cols) then getitem d col ≫= f else getitem d col.
Proof.
  intros H1 H2 H3. rewrite for_columns_mapM by done.
  apply getitem_mapM_on_cols.
Qed.

(** What the four loops of [clean] do to one column of the deduplicated
    frame [d1], the loops taken as they stand in the code: Stage 2 and
    Stage 4 over the names [str_cols], computed once on [d1], Stage 3 over
    the numeric columns of the frame Stage 2 returns. *)
Lemma stages_by_column (parse : list cell → cell → parsed)
    (df d2 d3 d4 out : DataFrame) :
  NoDup (columns df) →
  let d1 := drop_duplicates df in
  let str_cols := select_dtypes is_object d1 in
  strip_columns str_cols d1 = Some d2 →
  fill_median (select_dtypes is_number d2) d2 = Some d3 →
  fill_mode str_cols d3 = Some d4 →
  convert_dates parse (columns d4) d4 = Some out →
  ∀ col s1, getitem d1 col = Some s1 →
    (col ∈ str_cols ↔ dtype s1 = Dobject) ∧
    (dtype s1 = Dobject →
       ∃ s2, str_strip s1 = Some s2 ∧
         getitem d2 col = Some s2 ∧ getitem d3 col = Some s2 ∧
         getitem d4 col = Some (mode_fill s2) ∧
         getitem out col = Some (try_to_datetime parse (mode_fill s2))) ∧
    (dtype s1 ≠ Dobject →
       getitem d2 col = Some s1 ∧
       getitem d3 col =
         Some (if is_number (dtype s1) then median_fill s1 else s1) ∧
       getitem d4 col = getitem d3 col ∧
       getitem out col = getitem d3 col).
Proof.
  intros Hnd d1 str_cols H2 H3 H4 H5 col s1 Hg.
  assert (NoDup (columns d1)) as Hnd1
    by (unfold d1; by rewrite columns_drop_duplicates).
  rewrite strip_columns_for in H2. rewrite fill_median_for in H3.
  rewrite fill_mode_for in H4.
  pose proof (for_columns_columns _ _ _ _ H2) as C2.
  pose proof (for_columns_columns _ _ _ _ H3) as C3.
  pose proof (for_columns_columns _ _ _ _ H4) as C4.
  assert (NoDup str_cols) as Hs by by apply select_dtypes_NoDup.
  assert (str_cols ⊆ columns d1) as Hsub by apply select_dtypes_sub.
  assert (NoDup (columns d2)) as Hnd2 by by rewrite C2.
  assert (NoDup (columns d3)) as Hnd3 by by rewrite C3, C2.
  assert (NoDup (columns d4)) as Hnd4 by by rewrite C4, C3, C2.
  pose proof (for_columns_getitem _ _ _ _ col Hs Hnd1 Hsub H2) as G2.
  pose proof (for_columns_getitem _ _ _ _ col
    (select_dtypes_NoDup is_number d2 Hnd2) Hnd2
    (select_dtypes_sub is_number d2) H3) as G3.
  assert (str_cols ⊆ columns d3) as Hsub3 by by rewrite C3, C2.
  pose proof (for_columns_getitem _ _ _ _ col Hs Hnd3 Hsub3 H4) as G4.
  rewrite (convert_dates_all parse d4 Hnd4) in H5. injection H5 as <-.
  rewrite getitem_fmap.
  assert (col ∈ str_cols ↔ dtype s1 = Dobject) as Hin.
  { unfold str_cols.
    rewrite (select_dtypes_elem is_object d1 col s1 Hnd1)
      by by apply getitem_Some_elem.
    by destruct (dtype s1). }
  assert (∀ s, getitem d2 col = Some s →
    col ∈ select_dtypes is_number d2 ↔ dtype s = Dnumber) as Hnum.
  { intros s Hs2.
    rewrite (select_dtypes_elem is_number d2 col s Hnd2)
      by by apply getitem_Some_elem.
    by destruct (dtype s). }
  rewrite Hg in G2. simpl in G2.
  split; [done|]. split.
  - intros Hd. rewrite bool_decide_true in G2, G4 by by apply Hin.
    destruct (str_strip s1) as [s2|] eqn:Hs2.
    2:{ exfalso. assert (is_Some (getitem d2 col)) as [? E]; [|congruence].
        apply getitem_is_Some. rewrite C2. apply getitem_is_Some. eauto. }
    exists s2. split; [done|]. split; [done|].
    assert (getitem d3 col = Some s2) as E3.
    { rewrite G3, G2. simpl. case_bool_decide as Hn; [|done]. simpl.
      apply (Hnum _ G2) in Hn.
      apply str_strip_Some in Hs2 as (_ & _ & _ & [?|(_ & Hall & _)]);
        [congruence|].
      by rewrite median_fill_all_missing. }
    rewrite G4, E3. done.
  - intros Hd. rewrite bool_decide_false in G2, G4 by by rewrite Hin.
    split; [done|].
    assert (getitem d3 col =
      Some (if is_number (dtype s1) then median_fill s1 else s1)) as E3.
    { rewrite G3, G2. simpl. case_bool_decide as Hn.
      - apply (Hnum _ G2) in Hn. by rewrite Hn.
      - rewrite (Hnum _ G2) in Hn. by destruct (dtype s1). }
    split; [done|]. split; [done|]. rewrite G4, E3. simpl. f_equal.
    unfold try_to_datetime.
    destruct (is_number (dtype s1)) eqn:Hn1.
    + assert (dtype s1 = Dnumber) as Hd1 by by destruct (dtype s1).
      by rewrite (median_fill_dtype _ Hd1).
    + by destruct (dtype s1).
Qed.

(** C7. The text-column set is a snapshot.  Whenever [clean] returns, its
    four loops have run with [str_cols] the object columns of the
    deduplicated frame, computed once: Stage 2 strips exactly these
    columns and Stage 4 mode-fills exactly these columns, whatever Stage 2
    has made of them (a column of non-strings of several kinds comes out
    of Stage 2 as a float64 column of NaN, is not an object column any
    more, and is still filled by Stage 4); Stages 2 and 4 leave every
    other column as it is. *)
Theorem str_cols_snapshot (parse : list cell → cell → parsed)
    (df out : DataFrame) :
  NoDup (columns df) → clean parse df = Some out →
  let d1 := drop_duplicates df in
  let str_cols := select_dtypes is_object d1 in
  ∃ d2 d3 d4,
    strip_columns str_cols d1 = Some d2 ∧
    fill_median (select_dtypes is_number d2) d2 = Some d3 ∧
    fill_mode str_cols d3 = Some d4 ∧
    convert_dates parse (columns d4) d4 = Some out ∧
    ∀ col s1, getitem d1 col = Some s1 →
      (col ∈ str_cols ↔ dtype s1 = Dobject) ∧
      (dtype s1 = Dobject →
         ∃ s2, str_strip s1 = Some s2 ∧
           getitem d2 col = Some s2 ∧ getitem d3 col = Some s2 ∧
           getitem d4 col = Some (mode_fill s2) ∧
           getitem out col = Some (try_to_datetime parse (mode_fill s2)) ∧
           no_missing (mode_fill s2) ∧ dtype (mode_fill s2) = Dobject ∧
           (dtype s2 = Dobject ∨ (dtype s2 = Dnumber ∧ all_missing s2))) ∧
      (dtype s1 ≠ Dobject →
         getitem d2 col = Some s1 ∧
         getitem d4 col = getitem d3 col ∧
         getitem out col = getitem d3 col).
Proof.
  intros Hnd Hc d1 str_cols. unfold clean in Hc. fold d1 str_cols in Hc.
  destruct (strip_columns str_cols d1) as [d2|] eqn:H2; simpl in Hc; [|done].
  destruct (fill_median _ d2) as [d3|] eqn:H3; simpl in Hc; [|done].
  destruct (fill_mode str_cols d3) as [d4|] eqn:H4; simpl in Hc; [|done].
  exists d2, d3, d4. split; [done|]. split; [done|]. split; [done|].
  split; [done|]. intros col s1 Hg.
  destruct (stages_by_column parse df d2 d3 d4 out Hnd H2 H3 H4 Hc col s1 Hg)
    as (Hin & Hobj & Hother).
  split; [done|]. split.
  - intros Hd. destruct (Hobj Hd) as (s2 & Hs2 & G2 & G3 & G4 & G5).
    exists s2. split; [done|]. split; [done|]. split; [done|].
    split; [done|]. split; [done|].
    split; [apply mode_fill_no_missing|].
    split; [by eapply mode_fill_dtype|].
    apply str_strip_Some in Hs2 as (_ & _ & _ & [?|(? & ? & _)]); auto.
  - intros Hd. destruct (Hother Hd) as (G2 & _ & G4 & G5). done.
Qed.

Lemma str_cols_snapshot_witness :
  NoDup (columns oddments) ∧ clean iso_parse oddments = Some oddments_out ∧
  ∃ d2 s2,
    strip_columns (select_dtypes is_object (drop_duplicates oddments))
      (drop_duplicates oddments) = Some d2 ∧
    getitem d2 "x" = Some s2 ∧
    getitem oddments_out "x"
      = Some (try_to_datetime iso_parse (mode_fill s2)).
Proof.
  assert (NoDup (columns oddments)) as H1
    by (refine (bool_decide_unpack _ _); vm_compute; exact I).
  assert (clean iso_parse oddments = Some oddments_out) as H2
    by (vm_compute; reflexivity).
  refine (conj H1 (conj H2 _)).
  destruct (str_cols_snapshot iso_parse oddments oddments_out H1 H2)
    as (d2 & d3 & d4 & E2 & _ & _ & _ & Hcol).
  destruct (Hcol "x" (mkSeries Dobject [Num (Q2Qc 7); Bool true]) eq_refl)
    as (_ & Hobj & _).
  destruct (Hobj eq_refl) as (s2 & _ & G2 & _ & _ & G5 & _).
  exists d2, s2. exact (conj E2 (conj G2 G5)).
Defined.

(** ** The numeric column without a value *)

(** C8. A numeric column whose values are all missing: the median of the
    deduplicated column is the missing marker, the fill replaces nothing,
    and the column of the output of [clean] is numeric and entirely
    missing. *)
Theorem all_missing_numeric_stays (parse : list cell → cell → parsed)
    (df out : DataFrame) (col : string) (s : Series) :
  NoDup (columns df) → clean parse df = Some out →
  getitem df col = Some s → dtype s = Dnumber → all_missing s →
  median (dedup_series df s) = NA ∧
  median_fill (dedup_series df s) = dedup_series df s ∧
  ∃ s', getitem out col = Some s' ∧ dtype s' = Dnumber ∧ all_missing s'.
Proof.
  intros Hnd Hc Hg Hd Hall.
  assert (all_missing (dedup_series df s)) as Hall'
    by by apply take_where_Forall.
  pose proof (median_all_missing _ Hall') as Hm.
  assert (median_fill (dedup_series df s) = dedup_series df s) as Hf
    by by apply median_fill_all_missing.
  split; [done|]. split; [done|].
  destruct (getitem_clean parse _ _ _ _ Hnd Hc Hg) as (s' & Hg' & Hcol).
  unfold clean_col in Hcol. simpl in Hcol. rewrite Hd, Hf in Hcol.
  injection Hcol as <-. exists (dedup_series df s). done.
Qed.

Lemma all_missing_numeric_stays_witness :
  NoDup (columns codes) ∧ clean iso_parse codes = Some codes_out ∧
  ∃ s', getitem codes_out "qty" = Some s' ∧ dtype s' = Dnumber ∧
        all_missing s'.
Proof.
  assert (NoDup (columns codes)) as H1
    by (refine (bool_decide_unpack _ _); vm_compute; exact I).
  assert (clean iso_parse codes = Some codes_out) as H2
    by (vm_compute; reflexivity).
  refine (conj H1 (conj H2 _)).
  refine (proj2 (proj2 (all_missing_numeric_stays iso_parse codes codes_out
    "qty" (mkSeries Dnumber [NA; NA; NA; NA]) H1 H2 eq_refl eq_refl _))).
  repeat constructor.
Defined.

(** ** When the pipeline returns *)

Lemma elem_getitem_iff (df : DataFrame) n s :
  NoDup (columns df) → (n, s) ∈ df ↔ getitem df n = Some s.
Proof. intros H. split; [by apply getitem_elem|apply getitem_Some_elem]. Qed.

Lemma strip_columns_is_Some (d : DataFrame) :
  NoDup (columns d) →
  is_Some (strip_columns (select_dtypes is_object d) d) ↔
  ∀ col s, getitem d col = Some s → dtype s = Dobject →
           str_accessor_ok (values s) = true.
Proof.
  intros Hnd. rewrite strip_columns_for, for_columns_select by done.
  rewrite mapM_is_Some, Forall_forall. split.
  - intros H col s Hg Hd. specialize (H (col, s)).
    unfold on_dtype, str_strip in H. simpl in H. rewrite Hd in H. simpl in H.
    destruct (str_accessor_ok (values s)); [done|].
    destruct H as [? H]; [by apply getitem_Some_elem|done].
  - intros H [n s] Hin. apply (elem_getitem_iff _ _ _ Hnd) in Hin.
    unfold on_dtype, str_strip. simpl.
    destruct (dtype s) eqn:Hd; simpl; try done.
    rewrite (H n s Hin Hd). done.
Qed.

Lemma for_columns_total (g : Series → Series) cols (d : DataFrame) :
  NoDup cols → NoDup (columns d) → cols ⊆ columns d →
  is_Some (for_columns (λ s, Some (g s)) cols d).
Proof.
  intros H1 H2 H3. rewrite for_columns_mapM by done.
  apply mapM_is_Some, Forall_forall. intros p _. unfold on_cols. simpl.
  by case_bool_decide.
Qed.

Lemma clean_is_Some (parse : list cell → cell → parsed) (df : DataFrame) :
  NoDup (columns df) →
  is_Some (clean parse df) ↔
  ∀ col s, getitem (drop_duplicates df) col = Some s → dtype s = Dobject →
           str_accessor_ok (values s) = true.
Proof.
  intros Hnd.
  assert (NoDup (columns (drop_duplicates df))) as Hnd1
    by by rewrite columns_drop_duplicates.
  rewrite <-strip_columns_is_Some by done.
  rewrite clean_by_column, strip_columns_for, for_columns_select by done.
  rewrite !mapM_is_Some. apply Forall_proper; [|done]. intros [n s].
  unfold clean_col, on_dtype. simpl. destruct (dtype s); simpl; try done.
  destruct (str_strip s); simpl; split; intros [? ?]; done.
Qed.

(** ** Non-string values in a text column *)

(** C10, counterexample. The text column of [counts] holds two numbers
    and nothing else: Stage 2 does not turn them into the missing marker,
    its [.str] accessor raises, and [clean] returns no table. *)
Lemma strip_raises_on_numbers :
  wf counts ∧
  getitem counts "n" = Some (mkSeries Dobject [Num (Q2Qc 7); Num (Q2Qc 8)]) ∧
  strip_columns (select_dtypes is_object (drop_duplicates counts))
    (drop_duplicates counts) = None ∧
  clean iso_parse counts = None.
Proof.
  split; [wf_frame|]. split; [done|].
  split; vm_compute; reflexivity.
Qed.

(** C10, amended. When every object column of the deduplicated frame
    passes the check of the [.str] accessor, Stages 2 to 4 return, and in
    every object column Stage 2 leaves each string stripped and puts the
    missing marker at every position that does not hold a string (so a
    column without a missing value can come out of Stage 2 with one);
    Stage 4 then writes there the first mode of the stripped column, or
    [Unknown] when the stripped column has no value, and leaves the
    strings as they are. *)
Theorem strip_nulls_non_strings (parse : list cell → cell → parsed)
    (df : DataFrame) :
  NoDup (columns df) →
  let d1 := drop_duplicates df in
  let str_cols := select_dtypes is_object d1 in
  (∀ col s, getitem d1 col = Some s → dtype s = Dobject →
            str_accessor_ok (values s) = true) →
  ∃ d2 d3 d4,
    strip_columns str_cols d1 = Some d2 ∧
    fill_median (select_dtypes is_number d2) d2 = Some d3 ∧
    fill_mode str_cols d3 = Some d4 ∧
    clean parse df = convert_dates parse (columns d4) d4 ∧
    ∀ col s, getitem d1 col = Some s → dtype s = Dobject →
      ∃ s2 s4, getitem d2 col = Some s2 ∧ getitem d4 col = Some s4 ∧
        let fill :=
          match mode s2 with m :: _ => m | [] => Str "Unknown" end in
        isna fill = false ∧
        ∀ i c, values s !! i = Some c →
          (∀ t, c = Str t →
             values s2 !! i = Some (Str (strip t)) ∧
             values s4 !! i = Some (Str (strip t))) ∧
          (is_str c = false →
             values s2 !! i = Some NA ∧ values s4 !! i = Some fill).
Proof.
  intros Hnd d1 str_cols Hok.
  assert (NoDup (columns d1)) as Hnd1
    by (unfold d1; by rewrite columns_drop_duplicates).
  destruct (proj2 (strip_columns_is_Some d1 Hnd1) Hok) as [d2 H2].
  fold str_cols in H2.
  assert (columns d2 = columns d1) as C2.
  { rewrite strip_columns_for in H2. by apply for_columns_columns in H2. }
  destruct (for_columns_total median_fill (select_dtypes is_number d2) d2)
    as [d3 H3].
  { apply select_dtypes_NoDup. by rewrite C2. }
  { by rewrite C2. }
  { apply select_dtypes_sub. }
  assert (columns d3 = columns d2) as C3 by by apply for_columns_columns in H3.
  destruct (for_columns_total mode_fill str_cols d3) as [d4 H4].
  { by apply select_dtypes_NoDup. }
  { by rewrite C3, C2. }
  { rewrite C3, C2. apply select_dtypes_sub. }
  assert (columns d4 = columns d3) as C4 by by apply for_columns_columns in H4.
  rewrite <-fill_median_for in H3. rewrite <-fill_mode_for in H4.
  exists d2, d3, d4. split; [done|]. split; [done|]. split; [done|].
  split.
  { unfold clean. fold d1 str_cols. rewrite H2. simpl. rewrite H3. simpl.
    by rewrite H4. }
  intros col s Hg Hd.
  pose proof (convert_dates_all parse d4 ltac:(by rewrite C4, C3, C2)) as H5.
  destruct (stages_by_column parse df d2 d3 d4 _ Hnd H2 H3 H4 H5 col s Hg)
    as (_ & Hobj & _).
  destruct (Hobj Hd) as (s2 & Hs2 & G2 & _ & G4 & _).
  exists s2, (mode_fill s2). split; [done|]. split; [done|].
  apply str_strip_Some in Hs2 as (_ & _ & Hv & _).
  split.
  { destruct (mode s2) as [|m ms] eqn:Hmo; [done|].
    assert (m ∈ mode s2) as [_ ?]%mode_elem by (rewrite Hmo; left). done. }
  intros i c Hi.
  assert (values s2 !! i = Some (strip_cell c)) as E2
    by by rewrite Hv, list_lookup_fmap, Hi.
  unfold mode_fill. split.
  - intros t ->. split; [done|]. by rewrite (fillna_lookup _ _ _ _ E2).
  - intros Hc. assert (strip_cell c = NA) as E by by destruct c.
    rewrite E in E2. split; [done|]. by rewrite (fillna_lookup _ _ _ _ E2).
Qed.

Lemma strip_nulls_non_strings_witness :
  NoDup (columns codes) ∧
  ∃ d2 d4,
    strip_columns (select_dtypes is_object (drop_duplicates codes))
      (drop_duplicates codes) = Some d2 ∧
    (∃ s2, getitem d2 "code" = Some s2 ∧ values s2 !! 1 = Some NA) ∧
    (∃ s4, getitem d4 "code" = Some s4 ∧
           clean iso_parse codes = convert_dates iso_parse (columns d4) d4).
Proof.
  assert (NoDup (columns codes)) as H1
    by (refine (bool_decide_unpack _ _); vm_compute; exact I).
  split; [exact H1|].
  destruct (strip_nulls_non_strings iso_parse codes H1)
    as (d2 & d3 & d4 & H2 & _ & _ & Hc & Hcol).
  { assert (drop_duplicates codes = codes) as -> by (vm_compute; reflexivity).
    intros col s Hg Hd. unfold codes in Hg. simpl in Hg.
    repeat case_decide; simplify_eq; vm_compute; reflexivity. }
  destruct (Hcol "code"
    (mkSeries Dobject [Str " 1 "; Num (Q2Qc 7); Str "2"; Str "1"]))
    as (s2 & s4 & G2 & G4 & _ & Hv).
  { vm_compute. reflexivity. }
  { reflexivity. }
  exists d2, d4. split; [exact H2|]. split.
  - exists s2. split; [exact G2|].
    exact (proj1 (proj2 (Hv 1 (Num (Q2Qc 7)) eq_refl) eq_refl)).
  - exists s4. exact (conj G4 Hc).
Defined.

(** ** Exceptions *)

Lemma forallb_kind (f : cell → bool) (k : inferred) (l : list cell) :
  (∀ c, f c = true ↔ kind c = k) →
  forallb f l = true ↔ ∀ c, c ∈ l → kind c = k.
Proof.
  intros Hf. rewrite <-Is_true_true, forallb_True, Forall_forall.
  split; intros H c Hc; specialize (H c Hc).
  - apply Hf. by apply Is_true_true.
  - apply Is_true_true. by apply Hf.
Qed.

(** The accessor refuses a column exactly when it holds a non-missing
    value that is not a string and all its non-missing values are of that
    one kind. *)
Lemma str_accessor_refuses vs :
  str_accessor_ok vs = false ↔
  ∃ c, c ∈ vs ∧ isna c = false ∧ is_str c = false ∧
       ∀ c', c' ∈ vs → isna c' = false → kind c' = kind c.
Proof.
  unfold str_accessor_ok, infer_dtype.
  set (l := filter (λ c, isna c = false) vs).
  assert (∀ c, c ∈ l ↔ c ∈ vs ∧ isna c = false) as Hl.
  { intros c. unfold l. rewrite list_elem_of_filter. naive_solver. }
  destruct l as [|c0 l'] eqn:El.
  { split; [done|]. intros (c & Hc & Hna & _).
    assert (c ∈ []) as []%elem_of_nil. by apply Hl. }
  assert (c0 ∈ vs ∧ isna c0 = false) as [Hc0 Hna0] by (apply Hl; left).
  assert (∀ f k, (∀ c, f c = true ↔ kind c = k) → kind c0 = k →
    is_str c0 = false →
    (if forallb f (c0 :: l') then false else true) = false ↔
    ∃ c, c ∈ vs ∧ isna c = false ∧ is_str c = false ∧
         ∀ c', c' ∈ vs → isna c' = false → kind c' = kind c) as Hcase.
  { intros f k Hf Hk0 Hs0. destruct (forallb f (c0 :: l')) eqn:Hall.
    - split; [intros _|done]. rewrite (forallb_kind f k _ Hf) in Hall.
      exists c0. repeat split; try done.
      intros c' H1 H2. rewrite Hk0. by apply Hall, Hl.
    - split; [done|]. intros (c & Hc & Hna & Hs & Hsame).
      assert (forallb f (c0 :: l') = true) as E; [|congruence].
      apply (forallb_kind f k _ Hf). intros c' [H1 H2]%Hl.
      rewrite (Hsame c' H1 H2), <-(Hsame c0 Hc0 Hna0). done. }
  destruct c0 as [t|q|n|b|t|]; [| | | | |done].
  - split; [by destruct (forallb is_str _)|].
    intros (c & Hc & Hna & Hs & Hsame).
    specialize (Hsame _ Hc0 Hna0). by destruct c.
  - rewrite <-(Hcase is_num Inumeric); [by destruct (forallb is_num _)| |done..].
    by intros [].
  - rewrite <-(Hcase is_num Inumeric); [by destruct (forallb is_num _)| |done..].
    by intros [].
  - rewrite <-(Hcase is_bool Iboolean); [by destruct (forallb is_bool _)| |done..].
    by intros [].
  - rewrite <-(Hcase is_date Idatetime); [by destruct (forallb is_date _)| |done..].
    by intros [].
Qed.

(** C6, counterexample. The frame [flags] is well formed and its text
    column holds booleans only: the [.str] accessor of Stage 2 raises, no
    handler surrounds it, and [clean] returns no table. *)
Lemma clean_raises_on_boolean_text :
  wf flags ∧ clean iso_parse flags = None.
Proof. split; [wf_frame|vm_compute; reflexivity]. Qed.

Lemma clean_is_None (parse : list cell → cell → parsed) (df : DataFrame) :
  NoDup (columns df) →
  clean parse df = None ↔
  ∃ col s, getitem (drop_duplicates df) col = Some s ∧ dtype s = Dobject ∧
           str_accessor_ok (values s) = false.
Proof.
  intros Hnd.
  assert (NoDup (columns (drop_duplicates df))) as Hnd1
    by by rewrite columns_drop_duplicates.
  rewrite clean_by_column, mapM_None, Exists_exists by done. split.
  - intros ([n s] & Hin & Hcol). exists n, s.
    split; [by apply getitem_elem|].
    unfold clean_col, str_strip in Hcol. simpl in Hcol.
    destruct (dtype s); try done. simpl in Hcol.
    by destruct (str_accessor_ok (values s)).
  - intros (col & s & Hg & Hd & Hok). exists (col, s).
    split; [by apply getitem_Some_elem|].
    unfold clean_col, str_strip. simpl. by rewrite Hd, Hok.
Qed.

(** C6, amended. [clean] returns a table exactly when every object column
    of the deduplicated frame passes the check of the [.str] accessor; it
    raises exactly when some object column of the deduplicated frame holds
    a non-missing value that is not a string and all the non-missing
    values of the column are of that one kind.  A parse failure of Stage 5
    never keeps it from returning. *)
Theorem clean_returns_iff (parse : list cell → cell → parsed) (df : DataFrame) :
  NoDup (columns df) →
  (is_Some (clean parse df) ↔
   ∀ col s, getitem (drop_duplicates df) col = Some s → dtype s = Dobject →
            str_accessor_ok (values s) = true) ∧
  (clean parse df = None ↔
   ∃ col s c, getitem (drop_duplicates df) col = Some s ∧ dtype s = Dobject ∧
     c ∈ values s ∧ isna c = false ∧ is_str c = false ∧
     ∀ c', c' ∈ values s → isna c' = false → kind c' = kind c).
Proof.
  intros Hnd. split; [by apply clean_is_Some|].
  rewrite clean_is_None by done. split.
  - intros (col & s & Hg & Hd & (c & Hc)%str_accessor_refuses).
    exists col, s, c. tauto.
  - intros (col & s & c & Hg & Hd & Hc). exists col, s.
    split; [done|]. split; [done|]. apply str_accessor_refuses. eauto.
Qed.

Lemma clean_returns_iff_witness :
  NoDup (columns padded) ∧ is_Some (clean iso_parse padded).
Proof.
  assert (NoDup (columns padded)) as H
    by (refine (bool_decide_unpack _ _); vm_compute; exact I).
  split; [exact H|].
  apply (proj2 (proj1 (clean_returns_iff iso_parse padded H))).
  assert (drop_duplicates padded = padded) as -> by (vm_compute; reflexivity).
  intros col s Hg Hd. unfold padded in Hg. simpl in Hg.
  repeat case_decide; simplify_eq; vm_compute; reflexivity.
Defined.

(** ** The caller's frame *)

Lemma update_insert (r : ref) (f : DataFrame → option DataFrame)
    (d : DataFrame) (h : store) :
  update r f (<[r := d]> h) = d' ← f d; Some (<[r := d']> h).
Proof.
  unfold update. rewrite lookup_insert_eq. simpl.
  destruct (f d) as [d'|]; simpl; [|done]. by rewrite insert_insert_eq.
Qed.

(** [clean_data] binds its local name to the frame [drop_duplicates]
    allocates, and works on that frame only. *)
Lemma clean_data_spec (parse : list cell → cell → parsed) (df : ref) (h : store) :
  clean_data parse df h =
    arg ← h !! df;
    out ← clean parse arg;
    Some (fresh (dom h), <[fresh (dom h) := out]> h).
Proof.
  unfold clean_data, clean, alloc.
  destruct (h !! df) as [arg|]; simpl; [|done].
  set (r := fresh (dom h)).
  rewrite lookup_insert_eq. simpl. rewrite update_insert.
  destruct (strip_columns _ _) as [d2|]; simpl; [|done].
  rewrite lookup_insert_eq. simpl. rewrite update_insert.
  destruct (fill_median _ _) as [d3|]; simpl; [|done].
  rewrite update_insert.
  destruct (fill_mode _ _) as [d4|]; simpl; [|done].
  rewrite lookup_insert_eq. simpl. rewrite update_insert.
  by destruct (convert_dates _ _ _).
Qed.

(** C9, counterexample. The caller holds [padded] at reference 1; after
    the call the frame at reference 1 is still [padded], blanks included,
    and the stripped frame is a second object. *)
Lemma clean_data_leaves_argument :
  ∃ r h', clean_data iso_parse 1%positive {[ 1%positive := padded ]}
            = Some (r, h') ∧
          h' !! 1%positive = Some padded ∧
          h' !! r = Some padded_out ∧
          padded_out ≠ padded.
Proof.
  eexists _, _. split; [vm_compute; reflexivity|].
  split; [vm_compute; reflexivity|]. split; [vm_compute; reflexivity|done].
Qed.

(** C9, amended. [clean_data] leaves the frame it is given as it was: it
    returns a reference that was not in the store before the call, the
    store after the call holds the cleaned value there and is unchanged
    everywhere else, the caller's reference included. *)
Theorem clean_data_fresh_copy (parse : list cell → cell → parsed) (df : ref) (h : store)
    (arg : DataFrame) :
  h !! df = Some arg →
  (clean_data parse df h = None ↔ clean parse arg = None) ∧
  ∀ r h', clean_data parse df h = Some (r, h') →
    r ≠ df ∧ h !! r = None ∧
    h' !! df = Some arg ∧
    h' !! r = clean parse arg ∧
    ∀ r', r' ≠ r → h' !! r' = h !! r'.
Proof.
  intros Hdf. rewrite clean_data_spec, Hdf. simpl.
  assert (h !! fresh (dom h) = None) as Hfresh.
  { apply not_elem_of_dom, is_fresh. }
  split.
  - destruct (clean parse arg); simpl; done.
  - intros r h'. destruct (clean parse arg) as [out|]; simpl; [|done].
    intros [= <- <-].
    assert (fresh (dom h) ≠ df) as Hne by (intros E; congruence).
    split; [done|]. split; [done|].
    split; [by rewrite lookup_insert_ne|].
    split; [by rewrite lookup_insert_eq|].
    intros r' Hr'. by rewrite lookup_insert_ne.
Qed.

Lemma clean_data_fresh_copy_witness :
  ({[ 1%positive := padded ]} : store) !! 1%positive = Some padded ∧
  ∀ r h', clean_data iso_parse 1%positive {[ 1%positive := padded ]}
            = Some (r, h') →
          r ≠ 1%positive ∧ h' !! 1%positive = Some padded.
Proof.
  assert (({[ 1%positive := padded ]} : store) !! 1%positive = Some padded)
    as H by (vm_compute; reflexivity).
  split; [exact H|]. intros r h' Hc.
  destruct (proj2 (clean_data_fresh_copy iso_parse _ _ _ H) r h' Hc)
    as (Hr & _ & Hd & _).
  exact (conj Hr Hd).
Defined.

(** ** Cleaning twice *)

Lemma firsts_length_NoDup {K} `{EqDecision K} (seen ks : list K) :
  length (firsts seen ks) = length ks →
  NoDup ks ∧ ∀ x, x ∈ ks → x ∉ seen.
Proof.
  revert seen. induction ks as [|k ks IH]; intros seen.
  - intros _. split; [constructor|]. by intros x ?%elem_of_nil.
  - rewrite firsts_cons. case_bool_decide as Hk.
    + intros Hl. pose proof (sublist_length _ _ (firsts_sublist (k :: seen) ks)).
      simpl in Hl. lia.
    + simpl. intros [= Hl]. destruct (IH _ Hl) as [Hnd Hs]. split.
      * constructor; [|done]. intros Hin. apply (Hs k Hin). left.
      * intros x [->|Hx]%elem_of_cons; [done|].
        intros Hin. apply (Hs x Hx). by right.
Qed.

Lemma stripped_strip_cell c : isna (strip_cell c) = false → stripped (strip_cell c).
Proof. destruct c; simpl; try done. intros _. apply strip_strip. Qed.

Lemma mode_fill_stripped s s1 :
  str_strip s = Some s1 → Forall stripped (values (mode_fill s1)).
Proof.
  intros (_ & _ & Hv & _)%str_strip_Some.
  assert (∀ c, c ∈ values s1 → isna c = false → stripped c) as Hs1.
  { rewrite Hv. intros c [c0 [-> _]]%list_elem_of_fmap.
    apply stripped_strip_cell. }
  destruct (mode_fill_value s1) as (m & -> & Hm & Hin).
  assert (stripped m) as Hsm.
  { destruct Hin as [Hin|[-> _]]; [by apply Hs1|]. vm_compute. reflexivity. }
  rewrite fillna_values. apply Forall_fmap, Forall_forall.
  intros c Hc. simpl. destruct (isna c) eqn:Hna; [done|]. by apply Hs1.
Qed.

Lemma stripped_fixed vs :
  Forall stripped vs →
  str_accessor_ok vs = true ∧ strip_cell <$> vs = vs ∧
  Forall (λ c, isna c = false) vs.
Proof.
  intros H.
  assert (Forall (λ c, isna c = false) vs) as Hna.
  { eapply Forall_impl; [exact H|]. by intros []. }
  assert (Forall (λ c, is_str c = true) vs) as Hstr.
  { eapply Forall_impl; [exact H|]. by intros []. }
  split; [|split; [|done]].
  - unfold str_accessor_ok, infer_dtype.
    assert (filter (λ c, isna c = false) vs = vs) as ->.
    { clear -Hna. induction Hna as [|c vs Hc _ IH]; [done|].
      rewrite filter_cons. destruct (decide _); [|done]. by rewrite IH. }
    destruct vs as [|c vs']; [done|].
    assert (forallb is_str (c :: vs') = true) as Hall.
    { apply Is_true_true, forallb_True. eapply Forall_impl; [exact Hstr|].
      intros x ->. done. }
    apply Forall_cons in Hstr as [Hc _]. destruct c; try done.
    by rewrite Hall.
  - rewrite <-(list_fmap_id vs) at 2. apply Forall_fmap_ext.
    eapply Forall_impl; [exact H|]. intros [t| | | | |] Ht; try done.
    simpl in *. by rewrite Ht.
Qed.

Lemma clean_col_text_fixed (parse : list cell → cell → parsed) n s :
  dtype s = Dobject → Forall stripped (values s) →
  to_datetime parse s = None → clean_col parse (n, s) = Some (n, s).
Proof.
  intros Hd Hst Ht. destruct (stripped_fixed _ Hst) as (Hok & Hfix & Hna).
  unfold clean_col. simpl. rewrite Hd.
  unfold str_strip. rewrite Hd, Hok, Hfix. simpl.
  assert (forallb isna (values s) && negb (forallb isna (values s)) = false)
    as -> by by destruct (forallb isna (values s)).
  assert (mkSeries Dobject (values s) = s) as ->
    by (destruct s; simpl in *; by subst).
  rewrite (fillna_id _ s Hna : mode_fill s = s).
  unfold try_to_datetime. by rewrite Hd, Ht.
Qed.

(** A column of timestamps is refused by the [.str] accessor. *)
Lemma timestamps_refused vs :
  Exists (λ c, is_date c = true) vs →
  Forall (λ c, is_date c = true ∨ c = NA) vs →
  str_accessor_ok vs = false.
Proof.
  intros (c & Hc & Hd)%Exists_exists Hall. apply str_accessor_refuses.
  exists c. split; [done|]. split; [by destruct c|]. split; [by destruct c|].
  intros c' Hc' Hna. eapply Forall_forall in Hall; [|exact Hc'].
  destruct Hall as [Hd'| ->]; [|done]. by destruct c, c'.
Qed.

(** What comes out of the per-column pipeline: a column of another dtype
    than object, which the pipeline leaves as it is; an object column of
    stripped strings that do not parse, which it leaves as it is; or an
    object column of Timestamps. *)
Lemma clean_col_cases (parse : list cell → cell → parsed) p q :
  clean_col parse p = Some q →
  (dtype q.2 ≠ Dobject ∧ clean_col parse q = Some q) ∨
  (dtype q.2 = Dobject ∧ Forall stripped (values q.2) ∧
   clean_col parse q = Some q) ∨
  (holds_timestamps q.2 ∧
   Forall (λ c, is_date c = true ∨ c = NA) (values q.2)).
Proof.
  destruct p as [n s]. unfold clean_col at 1. simpl.
  destruct (dtype s) eqn:Hd.
  - destruct (str_strip s) as [s1|] eqn:Hs; simpl; [|done]. intros [= <-].
    pose proof (mode_fill_stripped _ _ Hs) as Hst.
    pose proof (mode_fill_dtype _ _ Hs) as Hd2.
    generalize dependent (mode_fill s1). intros s2 Hst Hd2. simpl.
    unfold try_to_datetime. rewrite Hd2. simpl.
    destruct (to_datetime parse s2) as [sd|] eqn:Ht; simpl.
    + destruct (mixed_timezones parse (values s2)) eqn:Hm.
      * right. right. split; [by eapply to_datetime_mixed|].
        apply Forall_forall. intros c Hc. by eapply to_datetime_values.
      * left. apply to_datetime_Some in Ht as [Hdd _]. rewrite Hm in Hdd.
        split; [by rewrite Hdd|]. unfold clean_col. simpl. by rewrite Hdd.
    + right. left. split; [done|]. split; [done|].
      by apply clean_col_text_fixed.
  - intros [= <-]. left. cbn [fst snd]. rewrite (median_fill_dtype _ Hd).
    split; [done|]. unfold clean_col. cbn [fst snd].
    by rewrite (median_fill_dtype _ Hd), median_fill_twice.
  - intros [= <-]. left. simpl. rewrite Hd. split; [done|].
    unfold clean_col. simpl. by rewrite Hd.
  - intros [= <-]. left. simpl. rewrite Hd. split; [done|].
    unfold clean_col. simpl. by rewrite Hd.
Qed.

Lemma clean_out_cases (parse : list cell → cell → parsed)
    (df out : DataFrame) col s :
  NoDup (columns df) → clean parse df = Some out → getitem out col = Some s →
  (dtype s ≠ Dobject ∧ clean_col parse (col, s) = Some (col, s)) ∨
  (dtype s = Dobject ∧ Forall stripped (values s) ∧
   clean_col parse (col, s) = Some (col, s)) ∨
  (holds_timestamps s ∧ Forall (λ c, is_date c = true ∨ c = NA) (values s)).
Proof.
  intros Hnd Hc Hg. pose proof (clean_Forall2 _ _ _ Hnd Hc) as H.
  apply getitem_Some_elem, list_elem_of_lookup in Hg as [i Hi].
  destruct (Forall2_lookup_r _ _ _ _ _ H Hi) as (p & _ & Hpq).
  by apply clean_col_cases in Hpq.
Qed.

Lemma holds_timestamps_dedup (d : DataFrame) n s :
  rectangular d → (n, s) ∈ d → holds_timestamps s →
  holds_timestamps (dedup_series d s).
Proof.
  intros Hr Hin [Hd (c & Hc & Hdate)%Exists_exists]. split; [done|].
  destruct (column_survives d n s c Hr Hin Hc) as (c' & Hc' & Hk).
  apply Exists_exists. exists c'. split; [done|].
  destruct c, c' as [| | |[]| |]; simpl in *; done.
Qed.

(** C1, counterexample. [padded] holds [" a"] and ["a"]: the first pass
    strips them to two equal rows, the second pass drops one of them. *)
Lemma clean_twice_differs :
  wf padded ∧
  clean iso_parse padded = Some padded_out ∧
  clean iso_parse padded_out = Some padded_twice ∧
  padded_twice ≠ padded_out.
Proof.
  split; [wf_frame|]. split; [vm_compute; reflexivity|].
  split; [vm_compute; reflexivity|done].
Qed.

(** C1, amended. For a rectangular frame with distinct column names on
    which [clean] returns [out]: a second pass returns [out] again exactly
    when [out] has no two equal rows and no object column holding
    Timestamps (what Stage 5 makes of values parsed with different time
    zones).  On an object column of Timestamps the [.str] accessor of
    Stage 2 raises: the second pass returns no table exactly when [out]
    has such a column.  Without one, Stages 2 to 5, which [clean_col] runs
    on one column, change nothing on their own output. *)
Theorem clean_idempotent_iff (parse : list cell → cell → parsed)
    (df out : DataFrame) :
  NoDup (columns df) → rectangular df → clean parse df = Some out →
  (clean parse out = Some out ↔
   NoDup (row_keys out) ∧ ¬ text_timestamps out) ∧
  (clean parse out = None ↔ text_timestamps out) ∧
  (¬ text_timestamps out → mapM (clean_col parse) out = Some out).
Proof.
  intros Hnd Hr Hc.
  assert (NoDup (columns out)) as Hnd' by by rewrite (clean_columns _ _ _ Hc).
  pose proof (clean_rectangular _ _ _ Hnd Hr Hc) as Hr'.
  assert (¬ text_timestamps out → mapM (clean_col parse) out = Some out)
    as Hfix.
  { intros Hno. apply mapM_Some_2, Forall_Forall2_diag, Forall_forall.
    intros [n s] Hq. apply (getitem_elem _ _ _ Hnd') in Hq.
    destruct (clean_out_cases parse df out n s Hnd Hc Hq)
      as [[_ E]|[(_ & _ & E)|[Hts _]]]; [done..|].
    destruct Hno. by exists n, s. }
  assert (clean parse out = None ↔ text_timestamps out) as Hnone.
  { rewrite clean_is_None by done. split.
    - intros (col & s & Hg & Hd & Hok).
      rewrite getitem_drop_duplicates in Hg.
      destruct (getitem out col) as [s0|] eqn:Hg0; [|done].
      injection Hg as <-.
      destruct (clean_out_cases parse df out col s0 Hnd Hc Hg0)
        as [[Hd0 _]|[(_ & Hst & _)|[Hts _]]].
      + done.
      + exfalso. assert (Forall stripped (values (dedup_series out s0)))
          as Hst' by by apply take_where_Forall.
        apply stripped_fixed in Hst' as (Hok' & _). congruence.
      + by exists col, s0.
    - intros (col & s & Hg & Hts).
      exists col, (dedup_series out s).
      split; [by rewrite getitem_drop_duplicates, Hg|].
      pose proof (getitem_Some_elem _ _ _ Hg) as Hin.
      destruct (holds_timestamps_dedup out col s Hr' Hin Hts) as [Hd He].
      split; [done|]. apply timestamps_refused; [done|].
      apply take_where_Forall.
      destruct (clean_out_cases parse df out col s Hnd Hc Hg)
        as [[Hd0 _]|[(_ & Hst & _)|[_ Hall]]]; [|exfalso|done].
      + by destruct Hts.
      + destruct Hts as [_ (c & Hin' & Hdate)%Exists_exists].
        eapply Forall_forall in Hst; [|exact Hin']. by destruct c. }
  split; [|done]. split.
  - intros Hc2. split.
    + pose proof (clean_nrows _ _ _ Hnd' Hc2) as Hn.
      rewrite nrows_drop_duplicates in Hn by done.
      apply (firsts_length_NoDup [] (row_keys out)).
      rewrite <-Hn. unfold row_keys. by rewrite length_fmap, length_rows.
    + intros Hts%Hnone. congruence.
  - intros [Hrows Hno]. rewrite clean_by_column by done.
    rewrite drop_duplicates_id by done. by apply Hfix.
Qed.

Lemma clean_idempotent_iff_witness :
  NoDup (columns scenario1) ∧ rectangular scenario1 ∧
  clean iso_parse scenario1 = Some scenario1_out ∧
  clean iso_parse scenario1_out = Some scenario1_out.
Proof.
  assert (NoDup (columns scenario1)) as H1
    by (refine (bool_decide_unpack _ _); vm_compute; exact I).
  assert (rectangular scenario1) as H2 by repeat constructor.
  assert (clean iso_parse scenario1 = Some scenario1_out) as H3
    by (vm_compute; reflexivity).
  refine (conj H1 (conj H2 (conj H3 _))).
  apply (proj2 (proj1 (clean_idempotent_iff iso_parse _ _ H1 H2 H3))).
  split; [refine (bool_decide_unpack _ _); vm_compute; exact I|].
  intros (col & s & Hg & _ & Hts). unfold scenario1_out in Hg. simpl in Hg.
  repeat case_decide; simplify_eq; simpl in Hts;
    repeat (apply Exists_cons in Hts as [?|Hts]; [done|]);
    by apply Exists_nil in Hts.
Defined.

(** ** Missing values in the output *)

Lemma has_value_dedup df n s :
  rectangular df → (n, s) ∈ df → has_value s → has_value (dedup_series df s).
Proof.
  intros Hr Hin [c [Hc Hna]]%Exists_exists.
  destruct (column_survives df n s c Hr Hin Hc) as (c' & Hc' & Hk).
  apply Exists_exists. exists c'. split; [done|].
  by rewrite <-py_key_isna, Hk, py_key_isna.
Qed.

(** C3, counterexample. The datetime column of [dated] has a value and a
    gap; no stage fills a datetime column, and the gap is in the output. *)
Lemma clean_keeps_missing_date :
  wf dated ∧
  getitem dated "when" = Some (mkSeries Ddatetime [Date 20240101; NA]) ∧
  has_value (mkSeries Ddatetime [Date 20240101; NA]) ∧
  clean iso_parse dated = Some dated ∧
  ¬ no_missing (mkSeries Ddatetime [Date 20240101; NA]).
Proof.
  split; [wf_frame|]. split; [done|].
  split; [by apply Exists_cons_hd|]. split; [vm_compute; reflexivity|].
  intros H. apply Forall_cons in H as [_ H]. by apply Forall_cons in H as [? _].
Qed.

(** C3, amended. In a well-formed frame on which [clean] returns:
    - a text (object) column comes out without a missing value, unless
      Stage 5 replaced its values by parsed ones and the parser read one
      of the strings Stage 4 left in the column as NaT, which then stands
      at the position of that string;
    - a numeric column with a non-missing value comes out without a
      missing value, unless it holds both infinities and the median of its
      non-missing values is NaN (the mean of the two infinities): the fill
      then replaces nothing;
    - a column of any other dtype is not filled: it comes out as
      deduplication left it, gaps included. *)
Theorem clean_fills_text_and_numeric (parse : list cell → cell → parsed)
    (df out : DataFrame) (col : string) (s : Series) :
  wf df → clean parse df = Some out → getitem df col = Some s →
  ∃ s', getitem out col = Some s' ∧
    (dtype s = Dobject →
       no_missing s' ∨
       ∃ s2 i t, str_strip (dedup_series df s) = Some s2 ∧
         to_datetime parse (mode_fill s2) = Some s' ∧
         values (mode_fill s2) !! i = Some (Str t) ∧
         parse (values (mode_fill s2)) (Str t) = NaT ∧
         values s' !! i = Some NA) ∧
    (dtype s = Dnumber → has_value s →
       no_missing s' ∨
       (median (dedup_series df s) = NA ∧ s' = dedup_series df s ∧
        ∃ a b, a ∈ values s ∧ b ∈ values s ∧
          float64 a = Inf true ∧ float64 b = Inf false)) ∧
    (dtype s ≠ Dobject → dtype s ≠ Dnumber → s' = dedup_series df s).
Proof.
  intros [Hnd Hr Hty] Hc Hg.
  destruct (getitem_clean parse _ _ _ _ Hnd Hc Hg) as (s' & Hg' & Hcol).
  exists s'. split; [done|].
  pose proof (getitem_Some_elem _ _ _ Hg) as Hin.
  unfold clean_col in Hcol. simpl in Hcol. split; [|split].
  - intros Hd. rewrite Hd in Hcol.
    destruct (str_strip _) as [s2|] eqn:Hs; simpl in Hcol; [|done].
    injection Hcol as <-.
    pose proof (mode_fill_stripped _ _ Hs) as Hst.
    pose proof (mode_fill_dtype _ _ Hs) as Hd2.
    unfold try_to_datetime. rewrite Hd2. simpl.
    destruct (to_datetime parse (mode_fill s2)) as [sd|] eqn:Ht; simpl.
    2:{ left. apply mode_fill_no_missing. }
    destruct (decide (no_missing sd)) as [|Hmiss]; [by left|]. right.
    exists s2. pose proof Ht as [_ Hv2]%to_datetime_Some.
    apply not_Forall_Exists in Hmiss; [|apply _].
    apply Exists_exists in Hmiss as (c' & [i Hi]%list_elem_of_lookup & Hc').
    destruct (Forall2_lookup_r _ _ _ _ _ Hv2 Hi) as (c & Hci & Hcc).
    pose proof (Forall_lookup_1 _ _ _ _ Hst Hci) as Hsc.
    destruct c as [t| | | | |]; try done. exists i, t.
    split; [done|]. split; [done|]. split; [done|].
    unfold to_datetime_cell in Hcc. cbn [isna] in Hcc.
    destruct (parse (values (mode_fill s2)) (Str t)) eqn:Hp; simplify_eq;
      try by destruct Hc'.
    done.
  - intros Hd Hv. rewrite Hd in Hcol. injection Hcol as <-.
    unfold median_fill.
    destruct (median_cases (dedup_series df s))
      as [Hm|[Hm [Hn|(a & b & H1 & H2 & Ha & Hb)]]].
    + left. apply fillna_no_missing. by destruct (median _).
    + exfalso. apply (has_value_dedup df col s Hr Hin) in Hv.
      apply Exists_exists in Hv as (c & Hc' & Hna).
      assert (c ∈ numbers (values (dedup_series df s))) as Hnum.
      { apply elem_of_numbers. split; [done|].
        eapply Forall_forall in Hty; [|exact Hin]. simpl in Hty.
        eapply Forall_forall in Hty; [|by eapply dedup_series_sub].
        rewrite Hd in Hty. simpl in Hty. by rewrite Hna, orb_false_r in Hty. }
      rewrite Hn in Hnum. by apply elem_of_nil in Hnum.
    + right. rewrite Hm. split; [done|].
      split; [apply fillna_NA; simpl; by rewrite Hd|].
      exists a, b. split; [by eapply dedup_series_sub|].
      split; [by eapply dedup_series_sub|done].
  - intros H1 H2. destruct (dtype s); try done; congruence.
Qed.

Lemma clean_fills_text_and_numeric_witness :
  wf scenario1 ∧ clean iso_parse scenario1 = Some scenario1_out ∧
  ∃ s', getitem scenario1_out "val" = Some s' ∧ no_missing s'.
Proof.
  assert (wf scenario1) as H1 by wf_frame.
  assert (clean iso_parse scenario1 = Some scenario1_out) as H2
    by (vm_compute; reflexivity).
  refine (conj H1 (conj H2 _)).
  destruct (clean_fills_text_and_numeric iso_parse scenario1 scenario1_out
    "val" (mkSeries Dnumber [Num 1%Qc; Num 1%Qc; NA]) H1 H2 eq_refl)
    as (s' & Hs' & _ & Hnum & _).
  exists s'. split; [exact Hs'|].
  destruct (Hnum eq_refl) as [Hn|(_ & _ & a & _ & Ha & _ & Hinf & _)];
    [|exact Hn|].
  - by apply Exists_cons_hd.
  - exfalso. simpl in Ha.
    repeat (apply elem_of_cons in Ha as [->|Ha];
            [vm_compute in Hinf; discriminate Hinf|]).
    by apply elem_of_nil in Ha.
Defined.

(** ** The scenarios of the specification, run *)

Example scenario_dedup_and_median :
  clean iso_parse scenario1 = Some scenario1_out.
Proof. vm_compute. reflexivity. Qed.

Example scenario_strip_and_mode :
  clean iso_parse [("t", mkSeries Dobject [Str " x "; Str "y"; NA])]
  = Some [("t", mkSeries Dobject [Str "x"; Str "y"; Str "x"])].
Proof. vm_compute. reflexivity. Qed.

Example scenario_all_dates :
  clean iso_parse
    [("t", mkSeries Dobject
             [Str "2024-01-01"; Str "2024-02-15"; Str "2024-03-10"])]
  = Some [("t", mkSeries Ddatetime
                  [Date 20240101; Date 20240215; Date 20240310])].
Proof. vm_compute. reflexivity. Qed.

Example scenario_one_bad_date :
  clean iso_parse
    [("t", mkSeries Dobject
             [Str "2024-01-01"; Str "not-a-date"; Str "2024-03-10"])]
  = Some [("t", mkSeries Dobject
                  [Str "2024-01-01"; Str "not-a-date"; Str "2024-03-10"])].
Proof. vm_compute. reflexivity. Qed.

(** Strings with different UTC offsets: the first pass leaves Timestamps
    in an object column, on which a second pass raises. *)
Example scenario_mixed_offsets :
  clean offset_parse zoned = Some zoned_out ∧
  clean offset_parse zoned_out = None.
Proof. split; vm_compute; reflexivity. Qed.

(** A text column of a number and a boolean: Stage 2 makes it a float64
    column of NaN, which is no object column any more, and Stage 4 still
    fills it, being in [str_cols]. *)
Example scenario_non_strings :
  select_dtypes is_object (drop_duplicates oddments) = ["x"] ∧
  strip_columns ["x"] (drop_duplicates oddments) = Some oddments_stripped ∧
  select_dtypes is_object oddments_stripped = [] ∧
  clean iso_parse oddments = Some oddments_out.
Proof. repeat split; vm_compute; reflexivity. Qed.

Example scenario_all_missing_numeric :
  clean iso_parse [("t", mkSeries Dnumber [NA; NA; NA])]
  = Some [("t", mkSeries Dnumber [NA])].
Proof. vm_compute. reflexivity. Qed.

Example scenario_all_missing_text :
  clean iso_parse
    [("t", mkSeries Dobject [NA; NA]);
     ("k", mkSeries Dnumber [Num 1%Qc; Num (Q2Qc 2)])]
  = Some [("t", mkSeries Dobject [Str "Unknown"; Str "Unknown"]);
          ("k", mkSeries Dnumber [Num 1%Qc; Num (Q2Qc 2)])].
Proof. vm_compute. reflexivity. Qed.

(** * Further properties of the pipeline *)

(** ** Stage 1 *)

Lemma firsts_NoDup_id {K} `{EqDecision K} (ks : list K) :
  NoDup ks → firsts [] ks = ks.
Proof.
  intros H. unfold firsts.
  rewrite duplicated_from_NoDup; [|done|by intros ?? ?%elem_of_nil].
  rewrite fmap_replicate. by apply take_where_all.
Qed.

(** X1. After [drop_duplicates] no two rows of a rectangular frame are
    equal, every row of the input has an equal row in the result and
    conversely, and dropping duplicates again changes nothing. *)
Theorem drop_duplicates_distinct (df : DataFrame) :
  rectangular df →
  NoDup (row_keys (drop_duplicates df)) ∧
  (∀ k, k ∈ row_keys (drop_duplicates df) ↔ k ∈ row_keys df) ∧
  drop_duplicates (drop_duplicates df) = drop_duplicates df.
Proof.
  intros Hr. rewrite row_keys_drop_duplicates by done.
  split; [apply NoDup_firsts|]. split.
  - intros k. rewrite elem_of_firsts, elem_of_nil. naive_solver.
  - apply drop_duplicates_id; [by apply rectangular_drop_duplicates|].
    rewrite row_keys_drop_duplicates by done. apply NoDup_firsts.
Qed.

Lemma drop_duplicates_distinct_witness :
  rectangular scenario1 ∧
  NoDup (row_keys (drop_duplicates scenario1)) ∧
  drop_duplicates (drop_duplicates scenario1) = drop_duplicates scenario1.
Proof.
  assert (rectangular scenario1) as H by repeat constructor.
  destruct (drop_duplicates_distinct scenario1 H) as (H1 & _ & H3).
  exact (conj H (conj H1 H3)).
Defined.

(** X2. A frame with a row cleans to a frame with a row: the first row
    is never a duplicate, so it heads the deduplicated frame, and the
    output is empty only when the input is. *)
Theorem clean_keeps_first_row (parse : list cell → cell → parsed)
    (df out : DataFrame) :
  NoDup (columns df) → rectangular df → clean parse df = Some out →
  rows (drop_duplicates df) !! 0 = rows df !! 0 ∧
  (nrows out = 0 ↔ nrows df = 0).
Proof.
  intros Hnd Hr Hc.
  rewrite (clean_nrows _ _ _ Hnd Hc), nrows_drop_duplicates by done.
  rewrite rows_drop_duplicates by done. unfold duplicated, row_keys.
  rewrite <-(length_rows df Hr).
  destruct (rows df) as [|r rs]; [done|]. csimpl. split; [done|lia].
Qed.

Lemma clean_keeps_first_row_witness :
  NoDup (columns scenario1) ∧ rectangular scenario1 ∧
  clean iso_parse scenario1 = Some scenario1_out ∧
  (nrows scenario1_out = 0 ↔ nrows scenario1 = 0).
Proof.
  assert (NoDup (columns scenario1)) as H1
    by (refine (bool_decide_unpack _ _); vm_compute; exact I).
  assert (rectangular scenario1) as H2 by repeat constructor.
  assert (clean iso_parse scenario1 = Some scenario1_out) as H3
    by (vm_compute; reflexivity).
  exact (conj H1 (conj H2 (conj H3
    (proj2 (clean_keeps_first_row iso_parse _ _ H1 H2 H3))))).
Defined.

(** ** Shape of the output *)

Lemma clean_nrows_le (parse : list cell → cell → parsed) (df out : DataFrame) :
  NoDup (columns df) → rectangular df → clean parse df = Some out →
  nrows out ≤ nrows df.
Proof.
  intros Hnd Hr Hc.
  rewrite (clean_nrows _ _ _ Hnd Hc), nrows_drop_duplicates by done.
  rewrite (sublist_length _ _ (firsts_sublist [] (row_keys df))).
  unfold row_keys. by rewrite length_fmap, length_rows.
Qed.

Lemma getitem_clean_inv (parse : list cell → cell → parsed)
    (df out : DataFrame) col s' :
  NoDup (columns df) → clean parse df = Some out → getitem out col = Some s' →
  ∃ s, getitem df col = Some s ∧
       clean_col parse (col, dedup_series df s) = Some (col, s').
Proof.
  intros Hnd Hc Hg.
  assert (col ∈ columns df) as Hin.
  { rewrite <-(clean_columns _ _ _ Hc). apply getitem_is_Some. eauto. }
  apply getitem_is_Some in Hin as [s Hs]. exists s. split; [done|].
  destruct (getitem_clean parse _ _ _ _ Hnd Hc Hs) as (s'' & Hg' & Hcol).
  congruence.
Qed.

Lemma clean_col_typed (parse : list cell → cell → parsed) p q :
  Forall (λ c, cell_fits (dtype p.2) c = true) (values p.2) →
  clean_col parse p = Some q →
  Forall (λ c, cell_fits (dtype q.2) c = true) (values q.2).
Proof.
  destruct p as [n s]. simpl. intros Hty. unfold clean_col. simpl.
  destruct (dtype s) eqn:Hd.
  - destruct (str_strip s) as [s1|] eqn:Hs; simpl; [|done]. intros [= <-].
    pose proof (mode_fill_dtype _ _ Hs) as Hd2.
    generalize dependent (mode_fill s1). intros s2 Hd2. simpl.
    unfold try_to_datetime. rewrite Hd2. simpl.
    destruct (to_datetime parse s2) as [sd|] eqn:Ht; simpl.
    + apply to_datetime_Some in Ht as [Hdd Hv].
      apply Forall_forall. intros c' [i Hi]%list_elem_of_lookup.
      destruct (Forall2_lookup_r _ _ _ _ _ Hv Hi) as (c & _ & Hcc).
      apply to_datetime_cell_fits in Hcc. rewrite Hdd.
      by destruct (mixed_timezones parse (values s2)).
    + rewrite Hd2. by apply Forall_forall.
  - intros [= <-]. cbn [fst snd]. rewrite (median_fill_dtype _ Hd).
    unfold median_fill. rewrite fillna_values. apply Forall_fmap.
    eapply Forall_impl; [exact Hty|]. intros c Hc. simpl.
    destruct (isna c); [|done]. apply median_fits.
  - intros [= <-]. simpl. by rewrite Hd.
  - intros [= <-]. simpl. by rewrite Hd.
Qed.

Lemma clean_col_dtype (parse : list cell → cell → parsed) p q :
  clean_col parse p = Some q →
  dtype q.2 = dtype p.2 ∨ (dtype p.2 = Dobject ∧ dtype q.2 = Ddatetime).
Proof.
  destruct p as [n s]. unfold clean_col. simpl.
  destruct (dtype s) eqn:Hd; try by (intros [= <-]; left).
  - destruct (str_strip s) as [s1|] eqn:Hs; simpl; [|done]. intros [= <-].
    pose proof (mode_fill_dtype _ _ Hs) as Hd2.
    generalize dependent (mode_fill s1). intros s2 Hd2. simpl.
    unfold try_to_datetime. rewrite Hd2. simpl.
    destruct (to_datetime parse s2) as [sd|] eqn:Ht; simpl; [|by left].
    apply to_datetime_Some in Ht as [-> _].
    destruct (mixed_timezones parse (values s2)); auto.
  - intros [= <-]. left. cbn [fst snd]. by rewrite (median_fill_dtype _ Hd).
Qed.

(** X3. [clean] keeps a frame well formed: the output of a well-formed
    frame has distinct column names, columns of one length and values of
    the kind their column's dtype stores; a column keeps its dtype, except
    that an object column may come out as a datetime column. *)
Theorem clean_keeps_wf (parse : list cell → cell → parsed)
    (df out : DataFrame) :
  wf df → clean parse df = Some out →
  wf out ∧
  ∀ col s, getitem df col = Some s →
    ∃ s', getitem out col = Some s' ∧
      (dtype s' = dtype s ∨ (dtype s = Dobject ∧ dtype s' = Ddatetime)).
Proof.
  intros [Hnd Hr Hty] Hc. split.
  - split.
    + by rewrite (clean_columns _ _ _ Hc).
    + by eapply clean_rectangular.
    + pose proof (clean_Forall2 _ _ _ Hnd Hc) as H.
      apply typed_drop_duplicates in Hty.
      apply Forall_forall. intros q [i Hi]%list_elem_of_lookup.
      destruct (Forall2_lookup_r _ _ _ _ _ H Hi) as (p & Hp & Hpq).
      eapply clean_col_typed; [|exact Hpq].
      eapply Forall_lookup_1 in Hty; [|exact Hp]. exact Hty.
  - intros col s Hg.
    destruct (getitem_clean parse _ _ _ _ Hnd Hc Hg) as (s' & Hg' & Hcol).
    exists s'. split; [done|]. by apply clean_col_dtype in Hcol.
Qed.

Lemma clean_keeps_wf_witness :
  wf scenario1 ∧ clean iso_parse scenario1 = Some scenario1_out ∧
  wf scenario1_out.
Proof.
  assert (wf scenario1) as H1 by wf_frame.
  assert (clean iso_parse scenario1 = Some scenario1_out) as H2
    by (vm_compute; reflexivity).
  exact (conj H1 (conj H2 (proj1 (clean_keeps_wf iso_parse _ _ H1 H2)))).
Defined.

(** X4. Columns that are neither text nor numeric (booleans, datetimes)
    are never modified: they come out as [drop_duplicates] left them. *)
Theorem clean_passes_other_columns (parse : list cell → cell → parsed)
    (df out : DataFrame) (col : string) (s : Series) :
  NoDup (columns df) → clean parse df = Some out →
  getitem df col = Some s → dtype s ≠ Dobject → dtype s ≠ Dnumber →
  getitem out col = Some (dedup_series df s).
Proof.
  intros Hnd Hc Hg H1 H2.
  destruct (getitem_clean parse _ _ _ _ Hnd Hc Hg) as (s' & Hg' & Hcol).
  unfold clean_col in Hcol. simpl in Hcol.
  destruct (dtype s); try done; congruence.
Qed.

Lemma clean_passes_other_columns_witness :
  NoDup (columns dated) ∧ clean iso_parse dated = Some dated ∧
  getitem dated "when"
  = Some (dedup_series dated (mkSeries Ddatetime [Date 20240101; NA])).
Proof.
  assert (NoDup (columns dated)) as H1
    by (refine (bool_decide_unpack _ _); vm_compute; exact I).
  assert (clean iso_parse dated = Some dated) as H2
    by (vm_compute; reflexivity).
  refine (conj H1 (conj H2 _)).
  by apply (clean_passes_other_columns iso_parse dated dated "when" _ H1 H2).
Defined.

(** X5. A frame without rows: [clean] returns whatever the dtypes, the
    output has no rows, and every object column comes out as a datetime
    column, the parser having nothing to refuse. *)
Theorem clean_empty_frame (parse : list cell → cell → parsed)
    (df : DataFrame) :
  NoDup (columns df) → rectangular df → nrows df = 0 →
  ∃ out, clean parse df = Some out ∧ nrows out = 0 ∧
    ∀ col s, getitem df col = Some s →
      getitem out col =
        Some (mkSeries (if is_object (dtype s) then Ddatetime else dtype s) []).
Proof.
  intros Hnd Hr Hn.
  assert (∀ n s, (n, s) ∈ df → values s = []) as Hnil.
  { intros n s Hin. eapply Forall_forall in Hr; [|exact Hin]. simpl in Hr.
    rewrite Hn in Hr. by apply nil_length_inv. }
  assert (∀ n s, (n, s) ∈ df → dedup_series df s = mkSeries (dtype s) []) as Hd.
  { intros n s Hin. unfold dedup_series. rewrite (Hnil n s Hin).
    by rewrite take_where_nil_r. }
  assert (∀ n s, (n, s) ∈ df →
    clean_col parse (n, dedup_series df s) =
      Some (n, mkSeries (if is_object (dtype s) then Ddatetime else dtype s) []))
    as Hcol.
  { intros n s Hin. rewrite (Hd n s Hin). unfold clean_col. simpl.
    by destruct (dtype s). }
  assert (is_Some (clean parse df)) as [out Hc].
  { rewrite clean_by_column, drop_duplicates_by_column by done.
    apply mapM_is_Some, Forall_fmap, Forall_forall. intros [n s] Hin. simpl.
    by rewrite (Hcol n s Hin). }
  exists out. split; [done|]. split.
  - pose proof (clean_nrows_le parse df out Hnd Hr Hc). lia.
  - intros col s Hg.
    destruct (getitem_clean parse _ _ _ _ Hnd Hc Hg) as (s' & Hg' & Hcs).
    rewrite (Hcol col s) in Hcs by by apply getitem_Some_elem. congruence.
Qed.

Lemma clean_empty_frame_witness :
  ∃ out,
    clean iso_parse [("t", mkSeries Dobject []); ("n", mkSeries Dnumber [])]
      = Some out ∧
    getitem out "t" = Some (mkSeries Ddatetime []).
Proof.
  destruct (clean_empty_frame iso_parse
    [("t", mkSeries Dobject []); ("n", mkSeries Dnumber [])])
    as (out & Hc & _ & Hcol).
  - refine (bool_decide_unpack _ _); vm_compute; exact I.
  - repeat constructor.
  - reflexivity.
  - exists out. split; [exact Hc|].
    exact (Hcol "t" (mkSeries Dobject []) eq_refl).
Defined.

(** ** Text columns *)

(** X6. Whitespace property: an output column of object dtype holds
    either strings only, none of which starts or ends with a whitespace
    character, or, when Stage 5 parsed its values with different time
    zones, Timestamps and NaT only. *)
Theorem clean_text_trimmed (parse : list cell → cell → parsed)
    (df out : DataFrame) (col : string) (s' : Series) :
  NoDup (columns df) → clean parse df = Some out →
  getitem out col = Some s' → dtype s' = Dobject →
  Forall (λ c, ∃ t, c = Str t ∧ trimmed t) (values s') ∨
  (holds_timestamps s' ∧
   Forall (λ c, is_date c = true ∨ c = NA) (values s')).
Proof.
  intros Hnd Hc Hg Hd.
  destruct (clean_out_cases parse df out col s' Hnd Hc Hg)
    as [[Hd0 _]|[(_ & Hst & _)|Hts]]; [done| |by right].
  left. eapply Forall_impl; [exact Hst|]. intros [t| | | | |] Hc'; try done.
  exists t. split; [done|]. by apply strip_fixed_iff.
Qed.

Lemma clean_text_trimmed_witness :
  NoDup (columns padded) ∧ clean iso_parse padded = Some padded_out ∧
  Forall (λ c, ∃ t, c = Str t ∧ trimmed t) [Str "a"; Str "a"].
Proof.
  assert (NoDup (columns padded)) as H1
    by (refine (bool_decide_unpack _ _); vm_compute; exact I).
  assert (clean iso_parse padded = Some padded_out) as H2
    by (vm_compute; reflexivity).
  refine (conj H1 (conj H2 _)).
  destruct (clean_text_trimmed iso_parse padded padded_out "name"
              (mkSeries Dobject [Str "a"; Str "a"]) H1 H2 eq_refl eq_refl)
    as [H|[[_ Hts] _]]; [exact H|].
  exfalso. simpl in Hts.
  repeat (apply Exists_cons in Hts as [?|Hts]; [done|]).
  by apply Exists_nil in Hts.
Defined.

(** ** What imputation touches *)

Lemma clean_col_text (parse : list cell → cell → parsed) n s s' :
  dtype s = Dobject → clean_col parse (n, s) = Some (n, s') →
  dtype s' = Dobject → ¬ holds_timestamps s' →
  ∃ s2, str_strip s = Some s2 ∧ s' = mode_fill s2.
Proof.
  intros Hd Hcol Hd' Hts. unfold clean_col in Hcol. simpl in Hcol.
  rewrite Hd in Hcol.
  destruct (str_strip s) as [s2|] eqn:Hs; simpl in Hcol; [|done].
  injection Hcol as <-. exists s2. split; [done|].
  unfold try_to_datetime in *. rewrite (mode_fill_dtype _ _ Hs) in *.
  simpl in *.
  destruct (to_datetime parse (mode_fill s2)) as [sd|] eqn:Ht; [|done].
  simpl in *. exfalso.
  destruct (mixed_timezones parse (values (mode_fill s2))) eqn:Hm.
  - apply Hts. by eapply to_datetime_mixed.
  - apply to_datetime_Some in Ht as [Hdd _]. rewrite Hm in Hdd. congruence.
Qed.

(** X7. Imputation writes into gaps only.  In a numeric column every
    value present after deduplication is in the output at the same row,
    and the column comes out unchanged when it has no gap; in a text
    column that comes out as text, not as Timestamps, every string
    present after deduplication is in the output at the same row,
    stripped. *)
Theorem clean_keeps_present_values (parse : list cell → cell → parsed)
    (df out : DataFrame) (col : string) (s : Series) :
  NoDup (columns df) → clean parse df = Some out → getitem df col = Some s →
  ∃ s', getitem out col = Some s' ∧
    (dtype s = Dnumber →
       (∀ i c, values (dedup_series df s) !! i = Some c → isna c = false →
               values s' !! i = Some c) ∧
       (no_missing (dedup_series df s) → s' = dedup_series df s)) ∧
    (dtype s = Dobject → dtype s' = Dobject → ¬ holds_timestamps s' →
       ∀ i t, values (dedup_series df s) !! i = Some (Str t) →
              values s' !! i = Some (Str (strip t))).
Proof.
  intros Hnd Hc Hg.
  destruct (getitem_clean parse _ _ _ _ Hnd Hc Hg) as (s' & Hg' & Hcol).
  exists s'. split; [done|]. split.
  - intros Hd. unfold clean_col in Hcol. simpl in Hcol.
    rewrite Hd in Hcol. injection Hcol as <-. split.
    + intros i c Hi Hna. unfold median_fill.
      rewrite (fillna_lookup _ _ _ _ Hi). by rewrite Hna.
    + intros Hno. by apply fillna_id.
  - intros Hd Hd' Hts i t Hi.
    destruct (clean_col_text parse col (dedup_series df s) s' Hd Hcol Hd' Hts)
      as (s2 & Hs2 & ->).
    apply str_strip_Some in Hs2 as (_ & _ & Hv & _).
    assert (values s2 !! i = Some (Str (strip t))) as E
      by by rewrite Hv, list_lookup_fmap, Hi.
    unfold mode_fill. by rewrite (fillna_lookup _ _ _ _ E).
Qed.

Lemma clean_keeps_present_values_witness :
  NoDup (columns scenario1) ∧
  clean iso_parse scenario1 = Some scenario1_out ∧
  ∃ s', getitem scenario1_out "name" = Some s' ∧
        values s' !! 1 = Some (Str "b").
Proof.
  assert (NoDup (columns scenario1)) as H1
    by (refine (bool_decide_unpack _ _); vm_compute; exact I).
  assert (clean iso_parse scenario1 = Some scenario1_out) as H2
    by (vm_compute; reflexivity).
  refine (conj H1 (conj H2 _)).
  destruct (clean_keeps_present_values iso_parse scenario1 scenario1_out
    "name" (mkSeries Dobject [Str "a"; Str "a"; Str "b"]) H1 H2 eq_refl)
    as (s' & Hs' & _ & Htext).
  exists s'. split; [exact Hs'|].
  assert (s' = mkSeries Dobject [Str "a"; Str "b"]) as E
    by (vm_compute in Hs'; by injection Hs' as <-).
  assert (¬ holds_timestamps s') as Hts.
  { rewrite E. intros [_ Hts]. simpl in Hts.
    repeat (apply Exists_cons in Hts as [?|Hts]; [done|]).
    by apply Exists_nil in Hts. }
  assert (dtype s' = Dobject) as Hd by by rewrite E.
  exact (Htext eq_refl Hd Hts 1 "b" eq_refl).
Defined.

(** X8. [clean] invents no value.  Every value of a numeric output
    column is a value of the input column or the median written into its
    gaps; every value of a text column that comes out as text, not as
    Timestamps, is the stripped form of a string of the input column, or
    the placeholder [Unknown], which appears only when the column holds no
    string at all. *)
Theorem clean_invents_no_value (parse : list cell → cell → parsed)
    (df out : DataFrame) (col : string) (s : Series) :
  NoDup (columns df) → clean parse df = Some out → getitem df col = Some s →
  ∃ s', getitem out col = Some s' ∧
    (dtype s = Dnumber →
       ∀ c, c ∈ values s' →
            c ∈ values s ∨ c = median (dedup_series df s)) ∧
    (dtype s = Dobject → dtype s' = Dobject → ¬ holds_timestamps s' →
       ∀ c, c ∈ values s' →
            (∃ t, Str t ∈ values s ∧ c = Str (strip t)) ∨
            (c = Str "Unknown" ∧
             ∀ t, Str t ∉ values (dedup_series df s))).
Proof.
  intros Hnd Hc Hg.
  destruct (getitem_clean parse _ _ _ _ Hnd Hc Hg) as (s' & Hg' & Hcol).
  exists s'. split; [done|]. split.
  - intros Hd. unfold clean_col in Hcol. simpl in Hcol.
    rewrite Hd in Hcol. injection Hcol as <-.
    unfold median_fill. rewrite fillna_values.
    intros c [c0 [-> Hc0]]%list_elem_of_fmap.
    destruct (isna c0); [by right|]. left. by eapply dedup_series_sub.
  - intros Hd Hd' Hts.
    destruct (clean_col_text parse col (dedup_series df s) s' Hd Hcol Hd' Hts)
      as (s2 & Hs2 & ->).
    apply str_strip_Some in Hs2 as (_ & _ & Hv & _).
    assert (∀ c, c ∈ values s2 → isna c = false →
                 ∃ t, Str t ∈ values (dedup_series df s) ∧ c = Str (strip t))
      as Hfrom.
    { rewrite Hv. intros c [c0 [-> Hc0]]%list_elem_of_fmap Hna.
      destruct c0 as [t| | | | |]; try done. eauto. }
    destruct (mode_fill_value s2) as (m & -> & Hm & Hmin).
    rewrite fillna_values.
    intros c [c0 [-> Hc0]]%list_elem_of_fmap.
    destruct (isna c0) eqn:Hna0.
    + destruct Hmin as [Hmin|[-> Hnone]].
      * destruct (Hfrom m Hmin Hm) as (t & Ht' & ->). left. exists t.
        split; [by eapply dedup_series_sub|done].
      * right. split; [done|]. intros t Ht'. apply Hnone.
        apply Exists_exists. exists (Str (strip t)). split; [|done].
        rewrite Hv. by apply (list_elem_of_fmap_2 strip_cell _ (Str t)).
    + destruct (Hfrom c0 Hc0 Hna0) as (t & Ht' & ->). left. exists t.
      split; [by eapply dedup_series_sub|done].
Qed.

Lemma clean_invents_no_value_witness :
  NoDup (columns codes) ∧ clean iso_parse codes = Some codes_out ∧
  ∃ s', getitem codes_out "qty" = Some s' ∧
        ∀ c, c ∈ values s' →
          c ∈ [NA; NA; NA; NA] ∨
          c = median (dedup_series codes (mkSeries Dnumber [NA; NA; NA; NA])).
Proof.
  assert (NoDup (columns codes)) as H1
    by (refine (bool_decide_unpack _ _); vm_compute; exact I).
  assert (clean iso_parse codes = Some codes_out) as H2
    by (vm_compute; reflexivity).
  refine (conj H1 (conj H2 _)).
  destruct (clean_invents_no_value iso_parse codes codes_out "qty"
    (mkSeries Dnumber [NA; NA; NA; NA]) H1 H2 eq_refl) as (s' & Hs' & Hnum & _).
  exists s'. exact (conj Hs' (Hnum eq_refl)).
Defined.

Lemma all_missing_replicate vs :
  Forall (λ c, c = NA) vs → vs = replicate (length vs) NA.
Proof. induction 1 as [|c vs -> _ IH]; simpl; [done|]. by rewrite <-IH. Qed.

Lemma present_replicate_NA n :
  filter (λ c, isna c = false) (replicate n NA) = [].
Proof. induction n as [|n IH]; [done|]. simpl. by rewrite filter_cons, IH. Qed.

Lemma clean_col_all_missing (parse : list cell → cell → parsed) col n :
  clean_col parse (col, mkSeries Dobject (replicate n NA)) =
    Some (col, try_to_datetime parse
                 (mkSeries Dobject (replicate n (Str "Unknown")))).
Proof.
  assert (Forall (λ c, c = NA) (replicate n NA)) as Hall
    by by apply Forall_replicate.
  unfold clean_col, str_strip, str_accessor_ok, infer_dtype. simpl.
  rewrite present_replicate_NA, fmap_replicate. simpl.
  rewrite (proj2 (forallb_isna _) Hall). simpl. do 3 f_equal.
  unfold mode_fill.
  rewrite (mode_all_missing (mkSeries Dobject (replicate n NA)) Hall).
  unfold fillna. simpl. by rewrite orb_true_r, fmap_replicate.
Qed.

(** X9. A text column without any value: Stage 4 writes the placeholder
    [Unknown] into every row.  The output column has the row count of the
    deduplicated column; when it is still text it reads [Unknown]
    throughout, and it is still text whenever it has a row and the parser
    refuses [Unknown]. *)
Theorem all_missing_text_unknown (parse : list cell → cell → parsed)
    (df out : DataFrame) (col : string) (s : Series) :
  NoDup (columns df) → clean parse df = Some out →
  getitem df col = Some s → dtype s = Dobject → all_missing s →
  let n := length (values (dedup_series df s)) in
  let unknown := replicate n (Str "Unknown") in
  ∃ s', getitem out col = Some s' ∧ length (values s') = n ∧
    (dtype s' = Dobject → values s' = unknown) ∧
    (0 < n → parse unknown (Str "Unknown") = ParseError → dtype s' = Dobject).
Proof.
  intros Hnd Hc Hg Hd Hall n unknown.
  destruct (getitem_clean parse _ _ _ _ Hnd Hc Hg) as (s' & Hg' & Hcol).
  exists s'. split; [done|].
  assert (all_missing (dedup_series df s)) as Hall'
    by by apply take_where_Forall.
  apply all_missing_replicate in Hall'. fold n in Hall'.
  assert (dedup_series df s = mkSeries Dobject (replicate n NA)) as E.
  { destruct (dedup_series df s) as [d vs] eqn:Es. simpl in *.
    assert (d = dtype (dedup_series df s)) as -> by by rewrite Es.
    simpl. by rewrite Hd, Hall'. }
  rewrite E, clean_col_all_missing in Hcol. injection Hcol as <-.
  fold unknown.
  split; [by rewrite try_to_datetime_length; apply length_replicate|].
  unfold try_to_datetime. simpl.
  destruct (to_datetime parse _) as [sd|] eqn:Ht; simpl.
  - pose proof Ht as [Hdd _]%to_datetime_Some. simpl in Hdd.
    unfold unknown in Hdd. rewrite mixed_timezones_replicate in Hdd.
    split; [intros ?; congruence|].
    intros Hn Hp. exfalso.
    assert (to_datetime parse (mkSeries Dobject unknown) = None) as E';
      [|congruence].
    apply to_datetime_None, Exists_exists. exists (Str "Unknown").
    split; [|done]. simpl. unfold unknown.
    destruct n; [lia|]. left.
  - done.
Qed.

Lemma all_missing_text_unknown_witness :
  ∃ s', getitem
          [("t", mkSeries Dobject [Str "Unknown"; Str "Unknown"]);
           ("k", mkSeries Dnumber [Num 1%Qc; Num (Q2Qc 2)])] "t" = Some s' ∧
        values s' = [Str "Unknown"; Str "Unknown"].
Proof.
  destruct (all_missing_text_unknown iso_parse
    [("t", mkSeries Dobject [NA; NA]);
     ("k", mkSeries Dnumber [Num 1%Qc; Num (Q2Qc 2)])]
    [("t", mkSeries Dobject [Str "Unknown"; Str "Unknown"]);
     ("k", mkSeries Dnumber [Num 1%Qc; Num (Q2Qc 2)])]
    "t" (mkSeries Dobject [NA; NA])) as (s' & Hs' & _ & Hv & _).
  - refine (bool_decide_unpack _ _); vm_compute; exact I.
  - vm_compute. reflexivity.
  - reflexivity.
  - reflexivity.
  - repeat constructor.
  - exists s'. split; [exact Hs'|]. apply Hv.
    vm_compute in Hs'. by injection Hs' as <-.
Defined.

(** ** The value Stage 3 writes *)

Lemma num_le_refl x : num_le x x.
Proof. destruct x; simpl; try lia. apply Qcle_refl. Qed.

Lemma num_le_trans : Transitive num_le.
Proof.
  intros x y z.
  destruct x as [s1|a|[]|b1|t1|], y as [s2|b|[]|b2|t2|],
    z as [s3|c|[]|b3|t3|]; simpl; try lia; try done.
  apply Qcle_trans.
Qed.

Lemma num_le_total : Total num_le.
Proof.
  intros x y.
  destruct x as [s1|a|[]|b1|t1|], y as [s2|b|[]|b2|t2|]; simpl; try lia.
  apply Qc_le_total.
Qed.

Section SortedCounting.

Context {A : Type} (R : relation A) (R_refl : ∀ x, R x x).
Context (P : A → Prop) `{!∀ x, Decision (P x)}.

Lemma sorted_take_le (xs : list A) i a :
  StronglySorted R xs → xs !! i = Some a →
  Forall (λ x, R x a) (take (S i) xs).
Proof.
  intros Hs Hi. rewrite (take_S_r _ _ _ Hi). apply Forall_app. split.
  - apply Forall_forall. intros x Hx.
    rewrite <-(take_drop i xs) in Hs.
    eapply StronglySorted_app_1_elem_of; [exact Hs|exact Hx|].
    apply list_elem_of_lookup. exists 0. by rewrite lookup_drop, Nat.add_0_r.
  - by constructor.
Qed.

Lemma sorted_drop_ge (xs : list A) i a :
  StronglySorted R xs → xs !! i = Some a → Forall (R a) (drop i xs).
Proof.
  intros Hs Hi. rewrite <-(take_drop i xs) in Hs.
  apply StronglySorted_app_1_r in Hs.
  rewrite (drop_S _ _ _ Hi) in *.
  apply StronglySorted_inv in Hs as [_ Hs]. by constructor.
Qed.

Lemma filter_all (l : list A) : Forall P l → filter P l = l.
Proof.
  induction 1 as [|x l Hx _ IH]; [done|].
  by rewrite filter_cons, decide_True, IH.
Qed.

Lemma count_take (xs : list A) j :
  Forall P (take j xs) → j ≤ length xs → j ≤ length (filter P xs).
Proof.
  intros HP Hj. rewrite <-(take_drop j xs), filter_app, length_app.
  rewrite (filter_all _ HP), length_take. lia.
Qed.

Lemma count_drop (xs : list A) j :
  Forall P (drop j xs) → length xs - j ≤ length (filter P xs).
Proof.
  intros HP. rewrite <-(take_drop j xs) at 2. rewrite filter_app, length_app.
  rewrite (filter_all _ HP), length_drop. lia.
Qed.

End SortedCounting.

Lemma half_cases n :
  (Nat.even n = true ∧ n = 2 * (n / 2)) ∨
  (Nat.even n = false ∧ n = 2 * (n / 2) + 1).
Proof.
  destruct (Nat.even n) eqn:Hev.
  - left. split; [done|]. apply Nat.even_spec in Hev as [h ->].
    by rewrite (Nat.mul_comm 2 h), Nat.div_mul, Nat.mul_comm.
  - right. split; [done|].
    assert (Nat.odd n = true) as [h ->]%Nat.odd_spec
      by by rewrite <-Nat.negb_even, Hev.
    replace (2 * h + 1) with (1 + h * 2) at 2 by lia.
    rewrite Nat.div_add by done. simpl. lia.
Qed.

(** X10. The value Stage 3 writes into the gaps of a numeric column.
    [Series.median] answers NaN for a column without a number.  Otherwise,
    with [n] numbers, let [lo] and [hi] be the lower and the upper middle
    one: at least half of the numbers are at most [lo] and more than half
    are at least [lo], more than half are at most [hi] and at least half
    are at least [hi].  For an odd [n] the median is [lo], as a float64;
    for an even [n] it is the float64 mean of [lo] and [hi], which is
    infinite when the sum overflows and NaN for the two infinities. *)
Theorem median_of_middle (s : Series) :
  (numbers (values s) = [] → median s = NA) ∧
  (numbers (values s) ≠ [] →
   ∃ lo hi, lo ∈ numbers (values s) ∧ hi ∈ numbers (values s) ∧
     num_le lo hi ∧
     length (numbers (values s)) ≤ 2 * count_le lo (numbers (values s)) ∧
     length (numbers (values s)) < 2 * count_ge lo (numbers (values s)) ∧
     length (numbers (values s)) < 2 * count_le hi (numbers (values s)) ∧
     length (numbers (values s)) ≤ 2 * count_ge hi (numbers (values s)) ∧
     median s = if Nat.even (length (numbers (values s)))
                then mean64 lo hi else float64 lo).
Proof.
  split; [apply median_no_numbers|]. intros Hne.
  unfold median, count_le, count_ge.
  set (xs := numbers (values s)) in *. set (ys := merge_sort num_le xs).
  assert (ys ≡ₚ xs) as Hperm by apply merge_sort_Permutation.
  assert (StronglySorted num_le ys) as Hs
    by exact (@StronglySorted_merge_sort _ num_le _ num_le_trans
                num_le_total xs).
  setoid_rewrite <-Hperm. set (n := length ys). set (k := n / 2).
  assert (0 < n) as Hpos.
  { unfold n. rewrite Hperm. destruct xs; [done|simpl; lia]. }
  destruct (half_cases n) as [[-> Hh]|[-> Hh]]; fold k in Hh.
  - assert (is_Some (ys !! (k - 1))) as [a Ha]
      by (apply lookup_lt_is_Some; fold n; lia).
    assert (is_Some (ys !! k)) as [b Hb]
      by (apply lookup_lt_is_Some; fold n; lia).
    rewrite Ha, Hb. exists a, b.
    assert (S (k - 1) = k) as Ek1 by lia.
    pose proof (sorted_take_le num_le num_le_refl ys _ a Hs Ha) as Hlo.
    pose proof (sorted_drop_ge num_le num_le_refl ys _ a Hs Ha) as Hlo'.
    pose proof (sorted_take_le num_le num_le_refl ys _ b Hs Hb) as Hhi.
    pose proof (sorted_drop_ge num_le num_le_refl ys _ b Hs Hb) as Hhi'.
    rewrite Ek1 in Hlo.
    split; [by eapply list_elem_of_lookup_2|].
    split; [by eapply list_elem_of_lookup_2|].
    split.
    { eapply Forall_forall in Hlo'; [exact Hlo'|].
      apply list_elem_of_lookup. exists 1.
      rewrite lookup_drop. by replace (k - 1 + 1) with k by lia. }
    split.
    { assert (k ≤ length (filter (λ x, num_le x a) ys))
        by (apply count_take; [done|fold n; lia]).
      fold n. lia. }
    split.
    { assert (n - (k - 1) ≤ length (filter (λ x, num_le a x) ys))
        by by apply count_drop.
      fold n. lia. }
    split.
    { assert (S k ≤ length (filter (λ x, num_le x b) ys))
        by (apply count_take; [done|fold n; lia]).
      fold n. lia. }
    split; [|done].
    assert (n - k ≤ length (filter (λ x, num_le b x) ys))
      by by apply count_drop.
    fold n. lia.
  - assert (is_Some (ys !! k)) as [b Hb]
      by (apply lookup_lt_is_Some; fold n; lia).
    rewrite Hb. exists b, b.
    pose proof (sorted_take_le num_le num_le_refl ys _ b Hs Hb) as Hlo.
    pose proof (sorted_drop_ge num_le num_le_refl ys _ b Hs Hb) as Hhi.
    assert (S k ≤ length (filter (λ x, num_le x b) ys))
      by (apply count_take; [done|fold n; lia]).
    assert (n - k ≤ length (filter (λ x, num_le b x) ys))
      by by apply count_drop.
    split; [by eapply list_elem_of_lookup_2|].
    split; [by eapply list_elem_of_lookup_2|].
    split; [apply num_le_refl|]. fold n.
    split; [lia|]. split; [lia|]. split; [lia|]. split; [lia|done].
Qed.

Lemma median_of_middle_witness :
  ∃ lo hi, num_le lo hi ∧
    median (mkSeries Dnumber [Num (Q2Qc 3); NA; Num 1%Qc; Num (Q2Qc 2)])
    = if Nat.even (length (numbers [Num (Q2Qc 3); NA; Num 1%Qc; Num (Q2Qc 2)]))
      then mean64 lo hi else float64 lo.
Proof.
  destruct (proj2 (median_of_middle
    (mkSeries Dnumber [Num (Q2Qc 3); NA; Num 1%Qc; Num (Q2Qc 2)])))
    as (lo & hi & _ & _ & Hle & _ & _ & _ & _ & Hm).
  - done.
  - exists lo, hi. exact (conj Hle Hm).
Defined.

(** The median of two numbers whose sum is out of the range of float64 is
    infinite, and the median of the two infinities is NaN, so that the
    fill of Stage 3 replaces nothing. *)
Example median_overflows :
  median (mkSeries Dnumber
            [Num (Q2Qc (2 ^ 1023 # 1)); NA; Num (Q2Qc (2 ^ 1023 # 1))])
  = Inf false.
Proof. vm_compute. reflexivity. Qed.

Example scenario_infinities :
  wf unbounded ∧ clean iso_parse unbounded = Some unbounded.
Proof. split; [wf_frame|vm_compute; reflexivity]. Qed.

(** ** The value Stage 4 writes *)

Lemma string_compare_refl s : String.compare s s = Eq.
Proof.
  induction s as [|a s IH]; simpl; [done|].
  unfold Ascii.compare. by rewrite N.compare_refl.
Qed.

Lemma string_compare_lt_trans s1 s2 s3 :
  String.compare s1 s2 = Lt → String.compare s2 s3 = Lt →
  String.compare s1 s3 = Lt.
Proof.
  revert s2 s3. induction s1 as [|a s1 IH]; intros [|b s2] [|c s3]; simpl;
    try done.
  destruct (Ascii.compare a b) eqn:Hab; try done;
    destruct (Ascii.compare b c) eqn:Hbc; try done.
  - apply Ascii.compare_eq_iff in Hab, Hbc. subst.
    unfold Ascii.compare. rewrite N.compare_refl. apply IH.
  - apply Ascii.compare_eq_iff in Hab. subst. by rewrite Hbc.
  - apply Ascii.compare_eq_iff in Hbc. subst. by rewrite Hab.
  - intros _ _. unfold Ascii.compare in *.
    apply N.compare_lt_iff in Hab. apply N.compare_lt_iff in Hbc.
    pose proof (N.lt_trans _ _ _ Hab Hbc) as H.
    apply N.compare_lt_iff in H. by rewrite H.
Qed.

Lemma string_leb_trans s1 s2 s3 :
  String.leb s1 s2 = true → String.leb s2 s3 = true →
  String.leb s1 s3 = true.
Proof.
  unfold String.leb.
  destruct (String.compare s1 s2) eqn:H12; try done;
    destruct (String.compare s2 s3) eqn:H23; try done; intros _ _.
  - apply String.compare_eq_iff in H12. subst. by rewrite H23.
  - apply String.compare_eq_iff in H12. subst. by rewrite H23.
  - apply String.compare_eq_iff in H23. subst. by rewrite H12.
  - by rewrite (string_compare_lt_trans _ _ _ H12 H23).
Qed.

Lemma cell_le_total : Total cell_le.
Proof.
  intros x y. unfold cell_le.
  destruct (py_key x) as [s1|a|[]|b1|t1|], (py_key y) as [s2|b|[]|b2|t2|];
    try (by left); try (by right).
  - apply String.leb_total.
  - apply Qc_le_total.
  - apply Z.le_ge_cases.
Qed.

Lemma sorted_strings_head m ms :
  Sorted cell_le (m :: ms) → Forall (λ c, is_str c = true) (m :: ms) →
  Forall (cell_le m) ms.
Proof.
  revert m. induction ms as [|x ms IH]; intros m Hs Hstr; [done|].
  apply Sorted_inv in Hs as [Hs Hhd]. apply HdRel_inv in Hhd.
  apply Forall_cons in Hstr as [Hm Hstr].
  pose proof (IH x Hs Hstr) as Hx. constructor; [done|].
  eapply Forall_impl; [apply Forall_and; split; [exact Hx|]|].
  - apply Forall_cons in Hstr as [_ Hstr]. exact Hstr.
  - simpl. intros y [Hxy Hy]. apply Forall_cons in Hstr as [Hxs _].
    destruct m, x, y; try done. unfold cell_le in *. simpl in *.
    by eapply string_leb_trans.
Qed.

Lemma unique_from_key seen l c :
  c ∈ l → py_key c ∉ seen →
  ∃ u, u ∈ unique_from seen l ∧ py_key u = py_key c.
Proof.
  revert seen. induction l as [|x l IH]; intros seen Hc Hs.
  - by apply elem_of_nil in Hc.
  - simpl. case_bool_decide as Hx.
    + apply elem_of_cons in Hc as [->|Hc]; [done|]. by apply IH.
    + destruct (decide (py_key c = py_key x)) as [E|E].
      * exists x. split; [left|done].
      * apply elem_of_cons in Hc as [->|Hc]; [done|].
        destruct (IH (py_key x :: seen) Hc) as (u & Hu & Hk).
        { by intros [?|?]%elem_of_cons. }
        exists u. split; [by right|done].
Qed.

Lemma count_eq_key c u l : py_key u = py_key c → count_eq u l = count_eq c l.
Proof. unfold count_eq. by intros ->. Qed.

(** X11. The value Stage 4 writes into the gaps of a text column, the
    first mode of the column, is a value of the column that no other
    value outnumbers; when the values of the column are strings, it is
    the least in string order of the values that occur equally often. *)
Theorem first_mode_most_frequent (s : Series) (m : cell) (ms : list cell) :
  mode s = m :: ms →
  let vs := present (values s) in
  m ∈ values s ∧ isna m = false ∧
  (∀ c, c ∈ vs → count_eq c vs ≤ count_eq m vs) ∧
  (Forall (λ c, is_str c = true) vs →
   ∀ c, c ∈ vs → count_eq c vs = count_eq m vs →
        ∃ a b, m = Str a ∧ c = Str b ∧ String.leb a b = true).
Proof.
  intros Hmode vs.
  assert (m ∈ mode s) as Hin by (rewrite Hmode; left).
  destruct (mode_elem _ _ Hin) as [Hmv Hna]. split; [done|]. split; [done|].
  unfold mode in Hmode, Hin. fold (present (values s)) in Hmode, Hin.
  fold vs in Hmode, Hin.
  set (us := unique_from [] vs) in *.
  set (mx := max_list ((λ c, count_eq c vs) <$> us)) in *.
  set (modes := filter (λ c, count_eq c vs = mx) us) in *.
  assert (∀ c, c ∈ default modes (np_sort modes) ↔ c ∈ modes) as Hel.
  { intros c. destruct (np_sort modes) as [l|] eqn:Hs; simpl; [|done].
    by apply np_sort_elem. }
  assert (count_eq m vs = mx) as Hm.
  { apply Hel in Hin. by apply list_elem_of_filter in Hin as [? _]. }
  assert (∀ c, c ∈ vs → ∃ u, u ∈ us ∧ py_key u = py_key c) as Hrep.
  { intros c Hc. apply unique_from_key; [done|apply not_elem_of_nil]. }
  split.
  - intros c Hc. destruct (Hrep c Hc) as (u & Hu & Hk).
    rewrite <-(count_eq_key c u vs Hk), Hm.
    apply max_list_elem_of_le.
    by apply (list_elem_of_fmap_2 (λ c, count_eq c vs)).
  - intros Hstr c Hc Hcount.
    assert (c ∈ modes) as Hcm.
    { destruct (Hrep c Hc) as (u & Hu & Hk).
      assert (u = c) as ->.
      { pose proof (proj1 (Forall_forall _ _) Hstr c Hc) as H1.
        pose proof (proj1 (Forall_forall _ _) Hstr u
                      (unique_from_sub _ _ _ Hu)) as H2.
        destruct c, u; simpl in *; try done. }
      apply list_elem_of_filter. split; [congruence|done]. }
    assert (Forall (λ c, is_str c = true) modes) as Hms.
    { apply Forall_forall. intros x [_ Hx%unique_from_sub]%list_elem_of_filter.
      by eapply Forall_forall in Hstr. }
    assert (np_sort modes = Some (merge_sort cell_le modes)) as Hsort.
    { unfold np_sort, sortable.
      assert (forallb is_str modes = true) as ->; [|done].
      apply Is_true_true, forallb_True. eapply Forall_impl; [exact Hms|].
      by intros x ->. }
    rewrite Hsort in Hmode. simpl in Hmode.
    pose proof (@Sorted_merge_sort _ cell_le _ cell_le_total modes) as Hsd.
    assert (Forall (λ c, is_str c = true) (m :: ms)) as Hms'.
    { rewrite <-Hmode. apply Forall_forall. intros x Hx.
      rewrite merge_sort_Permutation in Hx.
      by eapply Forall_forall in Hms. }
    rewrite Hmode in Hsd.
    pose proof (sorted_strings_head _ _ Hsd Hms') as Hhead.
    assert (c ∈ m :: ms) as Hcin
      by (rewrite <-Hmode; by rewrite merge_sort_Permutation).
    assert (cell_le m c) as Hle.
    { apply elem_of_cons in Hcin as [->|Hcin].
      - destruct (cell_le_total m m); done.
      - by eapply Forall_forall in Hhead. }
    apply Forall_cons in Hms' as [Hmstr _].
    pose proof (proj1 (Forall_forall _ _) Hstr c Hc) as Hcstr.
    destruct m as [a|qa|na|ba|ta|], c as [b|qb|nb|bb|tb|]; try done. eauto.
Qed.

Lemma first_mode_most_frequent_witness :
  mode (mkSeries Dobject [Str "y"; NA; Str "x"; Str "y"; Str "x"])
    = [Str "x"; Str "y"] ∧
  Str "x" ∈ [Str "y"; NA; Str "x"; Str "y"; Str "x"].
Proof.
  assert (mode (mkSeries Dobject [Str "y"; NA; Str "x"; Str "y"; Str "x"])
          = [Str "x"; Str "y"]) as H by (vm_compute; reflexivity).
  exact (conj H (proj1 (first_mode_most_frequent _ _ _ H))).
Defined.

(** * The upload route *)

Lemma endswith_unfold s suffix :
  endswith s suffix =
    String.eqb s suffix ||
    match s with EmptyString => false | String _ s' => endswith s' suffix end.
Proof. by destruct s. Qed.

Lemma endswith_spec s suffix :
  endswith s suffix = true ↔ ∃ p, s = (p ++ suffix)%string.
Proof.
  split.
  - induction s as [|a s IH]; rewrite endswith_unfold.
    + rewrite orb_false_r. intros ->%String.eqb_eq. by exists "".
    + intros [->%String.eqb_eq|H]%orb_true_iff; [by exists ""|].
      destruct (IH H) as [p ->]. by exists (String a p).
  - intros [p ->]. induction p as [|a p IH].
    + rewrite endswith_unfold. change ("" ++ suffix)%string with suffix.
      by rewrite String.eqb_refl.
    + change (String a p ++ suffix)%string with (String a (p ++ suffix)).
      rewrite endswith_unfold, IH. apply orb_true_r.
Qed.

Lemma endswith_false s suffix :
  endswith s suffix = false ↔ ∀ p, s ≠ (p ++ suffix)%string.
Proof.
  rewrite <-not_true_iff_false, endswith_spec. naive_solver.
Qed.

Section UploadFacts.

Variable parse : list cell → cell → parsed.
Variable read_csv : string → string + DataFrame.
Variable read_excel : string → string + DataFrame.
Variable to_csv : DataFrame → string.

(** The call of [clean_data] in [upload], on the frame just read. *)
Lemma upload_clean_data (df : DataFrame) :
  ('(cleaned, h) ← clean_data parse 1%positive {[ 1%positive := df ]};
   h !! cleaned) = clean parse df.
Proof.
  rewrite clean_data_spec, lookup_singleton_eq. simpl.
  destruct (clean parse df) as [out|]; simpl; [|done].
  by rewrite lookup_insert_eq.
Qed.

Lemma upload_read (files : gmap string FileStorage) file df :
  files !! "file" = Some file →
  read_upload read_csv read_excel file = Some (inr df) →
  upload parse read_csv read_excel to_csv files =
    out ← clean parse df;
    Some (SendFile (to_csv out) "text/csv" true "cleaned_data.csv").
Proof.
  intros Hf Hr. unfold upload. rewrite Hf.
  destruct (decide (filename file = "")) as [E|_].
  { unfold read_upload in Hr. by rewrite E in Hr. }
  rewrite Hr. rewrite <-upload_clean_data.
  destruct (clean_data _ _ _) as [[r h]|]; simpl; [|done].
  by destruct (h !! r).
Qed.

(** X13. The reader is chosen by the end of the file name alone: a name
    that ends in [.csv] goes to [read_csv], also when [.xls] stands before
    it; a name that does not, and ends in [.xls] or [.xlsx], goes to
    [read_excel]; any other name is read by neither. *)
Theorem read_upload_by_suffix (file : FileStorage)
    (r : option (string + DataFrame)) :
  read_upload read_csv read_excel file = r ↔
  ((∃ p, filename file = (p ++ ".csv")%string) ∧
   r = Some (read_csv (stream file))) ∨
  ((∀ p, filename file ≠ (p ++ ".csv")%string) ∧
   (∃ p, filename file = (p ++ ".xls")%string ∨
         filename file = (p ++ ".xlsx")%string) ∧
   r = Some (read_excel (stream file))) ∨
  ((∀ p, filename file ≠ (p ++ ".csv")%string) ∧
   (∀ p, filename file ≠ (p ++ ".xls")%string) ∧
   (∀ p, filename file ≠ (p ++ ".xlsx")%string) ∧
   r = None).
Proof.
  unfold read_upload.
  destruct (endswith (filename file) ".csv") eqn:Hcsv.
  - apply endswith_spec in Hcsv. split; [intros <-; by left|].
    intros [[_ ->]|[(Hno & _)|(Hno & _)]]; [done| |];
      destruct Hcsv as [p Hp]; by destruct (Hno p).
  - rewrite endswith_false in Hcsv.
    destruct (endswith (filename file) ".xls") eqn:Hxls; simpl.
    + apply endswith_spec in Hxls as [p Hp]. split.
      * intros <-. right. left. eauto.
      * intros [[[q Hq] _]|[(_ & _ & ->)|(_ & Hno & _)]]; [|done|].
        -- by destruct (Hcsv q).
        -- by destruct (Hno p).
    + rewrite endswith_false in Hxls.
      destruct (endswith (filename file) ".xlsx") eqn:Hxlsx.
      * apply endswith_spec in Hxlsx as [p Hp]. split.
        -- intros <-. right. left. eauto.
        -- intros [[[q Hq] _]|[(_ & _ & ->)|(_ & _ & Hno & _)]]; [|done|].
           ++ by destruct (Hcsv q).
           ++ by destruct (Hno p).
      * rewrite endswith_false in Hxlsx. split.
        -- intros <-. right. right. done.
        -- intros [[[q Hq] _]|[(_ & [q [Hq|Hq]] & _)|(_ & _ & _ & ->)]];
             [| | |done].
           ++ by destruct (Hcsv q).
           ++ by destruct (Hxls q).
           ++ by destruct (Hxlsx q).
Qed.

(** X14. What [upload] answers: a text always carries status 400, and a
    file is sent only for a frame that a reader delivered and the pipeline
    cleaned; the file sent is the CSV text of the cleaned frame, named
    [cleaned_data.csv], with the column names of the frame read in their
    order. *)
Theorem upload_answers (files : gmap string FileStorage) (resp : response) :
  upload parse read_csv read_excel to_csv files = Some resp →
  (∃ msg, resp = Text msg 400) ∨
  (∃ file df out,
     files !! "file" = Some file ∧
     read_upload read_csv read_excel file = Some (inr df) ∧
     clean parse df = Some out ∧ columns out = columns df ∧
     resp = SendFile (to_csv out) "text/csv" true "cleaned_data.csv").
Proof.
  unfold upload. destruct (files !! "file") as [file|] eqn:Hf.
  2:{ intros [= <-]. left. eauto. }
  destruct (decide (filename file = "")); [intros [= <-]; left; eauto|].
  destruct (read_upload read_csv read_excel file) as [[e|df]|] eqn:Hr;
    [intros [= <-]; left; eauto| |intros [= <-]; left; eauto].
  pose proof (upload_clean_data df) as Hcd.
  destruct (clean_data _ _ _) as [[r h]|]; simpl in *; [|done].
  destruct (h !! r) as [out|]; simpl; [|done]. intros [= <-]. right.
  exists file, df, out. symmetry in Hcd.
  split; [done|]. split; [done|]. split; [done|].
  split; [by eapply clean_columns|done].
Qed.

(** X15. Which failures [upload] handles.  A request without the field
    [file], a file without a name, a name with none of the three
    extensions and an exception of the reader are each answered with
    status 400; an exception of the pipeline is not caught: [upload]
    raises exactly when a reader delivered a frame on which [clean]
    raises. *)
Theorem upload_failures (files : gmap string FileStorage) :
  (files !! "file" = None →
   upload parse read_csv read_excel to_csv files
     = Some (Text "No file uploaded" 400)) ∧
  (∀ file, files !! "file" = Some file →
     (filename file = "" →
      upload parse read_csv read_excel to_csv files
        = Some (Text "No selected file" 400)) ∧
     (∀ e, read_upload read_csv read_excel file = Some (inl e) →
      upload parse read_csv read_excel to_csv files
        = Some (Text ("Error reading file: " ++ e) 400))) ∧
  (upload parse read_csv read_excel to_csv files = None ↔
   ∃ file df, files !! "file" = Some file ∧
     read_upload read_csv read_excel file = Some (inr df) ∧
     clean parse df = None).
Proof.
  split; [|split].
  - intros Hf. unfold upload. by rewrite Hf.
  - intros file Hf. split.
    + intros E. unfold upload. rewrite Hf. by rewrite decide_True.
    + intros e Hr. unfold upload. rewrite Hf.
      destruct (decide (filename file = "")) as [E|_].
      { unfold read_upload in Hr. by rewrite E in Hr. }
      by rewrite Hr.
  - split.
    + unfold upload. destruct (files !! "file") as [file|] eqn:Hf; [|done].
      destruct (decide (filename file = "")); [done|].
      destruct (read_upload read_csv read_excel file) as [[e|df]|] eqn:Hr;
        [done| |done].
      intros Hnone. exists file, df. split; [done|]. split; [done|].
      rewrite <-upload_clean_data.
      destruct (clean_data _ _ _) as [[r h]|]; simpl in *; [|done].
      by destruct (h !! r).
    + intros (file & df & Hf & Hr & Hc).
      by rewrite (upload_read _ _ _ Hf Hr), Hc.
Qed.

End UploadFacts.

Lemma read_upload_by_suffix_witness :
  read_upload sample_reader (λ _, inl "not a workbook")
    (mkFile "sheet.xls.csv" "padded") = Some (inr padded).
Proof.
  apply (proj2 (read_upload_by_suffix sample_reader (λ _, inl "not a workbook")
                  (mkFile "sheet.xls.csv" "padded") (Some (inr padded)))).
  left. split; [by exists "sheet.xls"|reflexivity].
Defined.

Lemma upload_answers_witness :
  let files : gmap string FileStorage :=
    {[ "file" := mkFile "names.csv" "padded" ]} in
  let resp := SendFile "name" "text/csv" true "cleaned_data.csv" in
  upload iso_parse sample_reader sample_reader header_line files = Some resp ∧
  ((∃ msg, resp = Text msg 400) ∨
   (∃ file df out,
      files !! "file" = Some file ∧
      read_upload sample_reader sample_reader file = Some (inr df) ∧
      clean iso_parse df = Some out ∧ columns out = columns df ∧
      resp = SendFile (header_line out) "text/csv" true "cleaned_data.csv")).
Proof.
  intros files resp.
  assert (upload iso_parse sample_reader sample_reader header_line files
            = Some resp) as H by (vm_compute; reflexivity).
  exact (conj H (upload_answers iso_parse sample_reader sample_reader
                   header_line files resp H)).
Defined.

Lemma upload_failures_witness :
  upload iso_parse sample_reader sample_reader header_line
    {[ "file" := mkFile "survey.csv" "flags" ]} = None.
Proof.
  apply (proj2 (proj2 (proj2 (upload_failures iso_parse sample_reader
           sample_reader header_line
           {[ "file" := mkFile "survey.csv" "flags" ]})))).
  exists (mkFile "survey.csv" "flags"), flags.
  split; [|split]; vm_compute; reflexivity.
Defined.
